(** * fbuf: the growable output buffer of notcurses (src/lib/fbuf.h)

    A shallow embedding of the header-only buffer and the proofs of its
    specification.  The C code is translated function by function:

    - [uint64_t]/[size_t] values are integers in [Z] with the wrap-around
      modulo 2^64 written out ([wrap64]); conversions to [int] are [to_int];
    - the backing region [f->buf] is the list of the bytes of the
      allocation, [None] standing for [NULL]; every access is checked
      against the length of that list, an access outside of it is a crash;
    - the operating system (mmap, mremap, malloc, realloc) and the stdio
      stream are oracles: they may refuse a request;
    - the parts chosen by the preprocessor ([__linux__], [NDEBUG], the
      value of [BUFSIZ]) are the fields of a [platform]. *)

From Stdlib Require Import ZArith List Lia Bool.
From Stdlib.Strings Require Import Byte.
Import ListNotations.
Open Scope Z_scope.

(** ** Machine integers *)

Definition SIZE_MAX : Z := 2 ^ 64 - 1.
Definition INT_MAX : Z := 2 ^ 31 - 1.
Definition INT_MIN : Z := - 2 ^ 31.
Definition EOF : Z := -1.

(** Arithmetic on [uint64_t] and [size_t]. *)
Definition wrap64 (z : Z) : Z := z mod 2 ^ 64.

(** Conversion of an integer to [int] (two's complement, 32 bits). *)
Definition to_int (z : Z) : Z := (z + 2 ^ 31) mod 2 ^ 32 - 2 ^ 31.

(** ** Platform and environment *)

Record platform := {
  linux : bool;      (* __linux__ is defined *)
  ndebug : bool;     (* NDEBUG is defined: assert() expands to nothing *)
  BUFSIZ : Z         (* <stdio.h> *)
}.

(** What the operating system answers to a request for [n] bytes. *)
Record os := {
  grants : Z -> bool;     (* mmap, mremap, malloc, realloc of n bytes *)
  hugetlb : Z -> bool     (* mmap with MAP_HUGETLB of n bytes *)
}.

(** ** Outcomes of a call *)

Inductive crash :=
| AssertionFailed     (* assert() of a false condition *)
| BadAccess           (* a read or write outside of an allocation *)
| Hang.               (* a loop that does not end *)

Inductive outcome (A : Type) :=
| Returns (a : A)
| Crashes (c : crash).
Arguments Returns {A} a.
Arguments Crashes {A} c.

Definition bind {A B} (m : outcome A) (k : A -> outcome B) : outcome B :=
  match m with
  | Returns a => k a
  | Crashes c => Crashes c
  end.

Notation "x <- m ;; k" := (bind m (fun x => k))
  (at level 61, m at next level, right associativity).
Notation "' p <- m ;; k" := (bind m (fun p => k))
  (at level 61, p pattern, m at next level, right associativity).

(** [assert(c)]: checked unless NDEBUG. *)
Definition assert (P : platform) (c : bool) : outcome unit :=
  if ndebug P || c then Returns tt else Crashes AssertionFailed.

(** An access that needs a valid address. *)
Definition access {A} (o : option A) : outcome A :=
  match o with
  | Some a => Returns a
  | None => Crashes BadAccess
  end.

(** ** Memory *)

Definition region := list byte.

Definition zeros (n : Z) : region := repeat x00 (Z.to_nat n).

(** The region cut or extended to [n] bytes, its first bytes kept. *)
Definition resize (bs : region) (n : Z) : region :=
  firstn (Z.to_nat n) bs ++ repeat x00 (Z.to_nat n - length bs).

(** [load bs off len]: the [len] bytes at offset [off]. *)
Definition load (bs : region) (off len : Z) : option (list byte) :=
  if (0 <=? off) && (0 <=? len) && (off + len <=? Z.of_nat (length bs))
  then Some (firstn (Z.to_nat len) (skipn (Z.to_nat off) bs))
  else None.

(** [store bs off data]: [data] written at offset [off]. *)
Definition store (bs : region) (off : Z) (data : list byte) : option region :=
  if (0 <=? off) && (off + Z.of_nat (length data) <=? Z.of_nat (length bs))
  then Some (firstn (Z.to_nat off) bs ++ data
             ++ skipn (Z.to_nat off + length data) bs)
  else None.

(** ** The C library *)

(** [strlen]: the number of bytes before the terminator; [s] is the array
    that the pointer refers to, reading past its end is a bad access. *)
Fixpoint strlen (s : list byte) : option Z :=
  match s with
  | [] => None
  | c :: t => if Byte.eqb c x00 then Some 0 else option_map Z.succ (strlen t)
  end.

Definition digit (d : Z) : byte :=
  match d with
  | 0 => x30 | 1 => x31 | 2 => x32 | 3 => x33 | 4 => x34
  | 5 => x35 | 6 => x36 | 7 => x37 | 8 => x38 | _ => x39
  end.

(** The digits of [n >= 0] in front of [acc], at most [S fuel] of them. *)
Fixpoint udecimal (fuel : nat) (n : Z) (acc : list byte) : list byte :=
  let acc := digit (n mod 10) :: acc in
  match fuel with
  | 0%nat => acc
  | S fuel' => if n / 10 =? 0 then acc else udecimal fuel' (n / 10) acc
  end.

(** What the conversion "%d" produces for an [int]: at most ten digits,
    after a minus sign for a negative number. *)
Definition decimal (n : Z) : list byte :=
  if n <? 0 then x2d :: udecimal 9 (- n) [] else udecimal 9 n [].

(** [snprintf(dst, room, ...)] of an expansion [text]: the value returned
    and the bytes written at [dst].  The output is cut to [room - 1] bytes
    and terminated; an expansion longer than INT_MAX is an error. *)
Definition snprintf (room : Z) (text : list byte) : Z * list byte :=
  (if INT_MAX <? Z.of_nat (length text) then -1 else Z.of_nat (length text),
   if room =? 0 then [] else firstn (Z.to_nat (room - 1)) text ++ [x00]).

(** A stdio stream: the bytes it has taken, the number of flushes done,
    and how it will behave: it takes [quota] more bytes before a write
    error, and [flush_fails] tells whether fflush fails. *)
Record FILE := {
  written : list byte;
  flushes : nat;
  quota : Z;
  flush_fails : bool
}.

(** [fwrite(data, len, 1, fp)] with [len] the length of [data], not 0. *)
Definition fwrite (data : list byte) (fp : FILE) : Z * FILE :=
  let len := Z.of_nat (length data) in
  if len <=? quota fp
  then (1, {| written := written fp ++ data; flushes := flushes fp;
              quota := quota fp - len; flush_fails := flush_fails fp |})
  else (0, {| written := written fp ++ firstn (Z.to_nat (quota fp)) data;
              flushes := flushes fp; quota := 0;
              flush_fails := flush_fails fp |}).

Definition fflush (fp : FILE) : Z * FILE :=
  if flush_fails fp then (EOF, fp)
  else (0, {| written := written fp; flushes := S (flushes fp);
              quota := quota fp; flush_fails := flush_fails fp |}).

(** ** The buffer *)

Record fbuf := {
  size : Z;                 (* uint64_t size *)
  used : Z;                 (* uint64_t used *)
  buf : option region       (* char* buf; None is NULL *)
}.

(** The logical content: the bytes at offsets [0, used). *)
Definition content (f : fbuf) : list byte :=
  match buf f with
  | Some bs => firstn (Z.to_nat (used f)) bs
  | None => []
  end.

(** The byte of the region at offset [o]. *)
Definition load_byte (f : fbuf) (o : Z) : option byte :=
  match buf f with
  | Some bs => if 0 <=? o then nth_error bs (Z.to_nat o) else None
  | None => None
  end.

(** [fbuf_at]: [Some o] is the address [f->buf + o], [None] is NULL. *)
Definition fbuf_at (f : fbuf) (at_ : Z) : option Z :=
  if used f <? at_ then None else Some at_.

(** The address [f->buf + o] is the address of a byte of the region. *)
Definition in_region (f : fbuf) (o : Z) : Prop :=
  match buf f with
  | Some bs => 0 <= o < Z.of_nat (length bs)
  | None => False
  end.

Section Model.

Variable P : platform.
Variable E : os.

(** mremap(buf, old, new, MREMAP_MAYMOVE); [None] is MAP_FAILED. *)
Definition mremap (b : option region) (new : Z) : option region :=
  match b with
  | Some bs => if grants E new then Some (resize bs new) else None
  | None => None
  end.

(** realloc(buf, n); realloc(NULL, n) is malloc(n). *)
Definition realloc (b : option region) (n : Z) : option region :=
  if grants E n
  then Some (match b with Some bs => resize bs n | None => zeros n end)
  else None.

(** An anonymous mapping of [n] bytes; [None] is MAP_FAILED. *)
Definition mmap (ok : Z -> bool) (n : Z) : option region :=
  if ok n then Some (zeros n) else None.

Definition malloc (n : Z) : option region :=
  if grants E n then Some (zeros n) else None.

(** The loop of [fbuf_grow]; [sz] is the local variable [size]. *)
Fixpoint grow_loop (fuel : nat) (f : fbuf) (n : Z) (sz : Z)
  : outcome (Z * fbuf) :=
  match fuel with
  | 0%nat => Crashes Hang
  | S fuel' =>
    if sz <=? SIZE_MAX / 2 then
      let sz := wrap64 (sz * 2) in
      if wrap64 (sz - used f) <? n then grow_loop fuel' f n sz
      else
        let tmp := if linux P then mremap (buf f) sz
                   else realloc (buf f) (size f) in
        match tmp with
        | None => Returns (-1, f)
        | Some bs => Returns (0, {| size := sz; used := used f; buf := Some bs |})
        end
    else Returns (-1, f)
  end.

(** A size that is not zero is doubled at most 64 times before it exceeds
    SIZE_MAX / 2. *)
Definition grow_fuel : nat := 65.

Definition fbuf_grow (f : fbuf) (n : Z) : outcome (Z * fbuf) :=
  _ <- assert P (match buf f with Some _ => true | None => false end) ;;
  _ <- assert P (negb (size f =? 0)) ;;
  if n <=? wrap64 (size f - used f) then Returns (0, f)
  else grow_loop grow_fuel f n (size f).

(** [hp] is the static flag [hugepages_failed]. *)
Definition fbuf_initgrow (hp : bool) (f : fbuf) (small : bool)
  : outcome (Z * fbuf * bool) :=
  _ <- assert P (match buf f with Some _ => false | None => true end) ;;
  _ <- assert P (used f =? 0) ;;
  _ <- assert P (size f =? 0) ;;
  let sz := if small then (if BUFSIZ P <? 4096 then 4096 else BUFSIZ P)
            else 2097152 in
  if linux P then
    (* the attempt with MAP_HUGETLB *)
    let '(b, hp) :=
      if negb hp && negb small then
        match mmap (hugetlb E) sz with
        | Some bs => (Some bs, hp)
        | None => (None, true)
        end
      else (buf f, hp) in
    (* try again without MAP_HUGETLB *)
    match b with
    | Some bs => Returns (0, {| size := sz; used := used f; buf := Some bs |}, hp)
    | None =>
      match mmap (grants E) sz with
      | Some bs => Returns (0, {| size := sz; used := used f; buf := Some bs |}, hp)
      | None => Returns (-1, {| size := size f; used := used f; buf := None |}, hp)
      end
    end
  else
    match malloc sz with
    | Some bs => Returns (0, {| size := sz; used := used f; buf := Some bs |}, hp)
    | None => Returns (-1, {| size := size f; used := used f; buf := None |}, hp)
    end.

Definition fbuf_init_small (hp : bool) (f : fbuf) : outcome (Z * fbuf * bool) :=
  fbuf_initgrow hp {| size := 0; used := 0; buf := None |} true.

Definition fbuf_init (hp : bool) (f : fbuf) : outcome (Z * fbuf * bool) :=
  fbuf_initgrow hp {| size := 0; used := 0; buf := None |} false.

Definition fbuf_reset (f : fbuf) : fbuf :=
  {| size := size f; used := 0; buf := buf f |}.

(** A write of [data] into the region at offset [off]. *)
Definition poke (f : fbuf) (off : Z) (data : list byte) : outcome fbuf :=
  bs <- access (buf f) ;;
  bs' <- access (store bs off data) ;;
  Returns {| size := size f; used := used f; buf := Some bs' |}.

Definition set_used (f : fbuf) (u : Z) : fbuf :=
  {| size := size f; used := u; buf := buf f |}.

Definition fbuf_putc (f : fbuf) (c : byte) : outcome (Z * fbuf) :=
  '(g, f) <- fbuf_grow f 1 ;;
  if negb (g =? 0) then Returns (-1, f)
  else
    (* *fbuf_at(f, f->used++) = c *)
    let at_ := used f in
    let f := set_used f (wrap64 (used f + 1)) in
    p <- access (fbuf_at f at_) ;;
    f <- poke f p [c] ;;
    Returns (1, f).

(** [s] is the array that the pointer refers to. *)
Definition fbuf_putn (f : fbuf) (s : list byte) (len : Z) : outcome (Z * fbuf) :=
  '(g, f) <- fbuf_grow f len ;;
  if negb (g =? 0) then Returns (-1, f)
  else
    data <- access (load s 0 len) ;;
    f <- poke f (used f) data ;;
    Returns (to_int len, set_used f (wrap64 (used f + len))).

Definition fbuf_puts (f : fbuf) (s : list byte) : outcome (Z * fbuf) :=
  slen <- access (strlen s) ;;
  fbuf_putn f s slen.

Definition fbuf_putint (f : fbuf) (n : Z) : outcome (Z * fbuf) :=
  '(g, f) <- fbuf_grow f 10 ;;
  if negb (g =? 0) then Returns (-1, f)
  else
    let room := wrap64 (size f - used f) in
    let '(r, out) := snprintf room (decimal n) in
    f <- poke f (used f) out ;;
    let r := wrap64 r in
    if room <? r then
      _ <- assert P (r <=? room) ;;
      Returns (-1, f)
    else Returns (to_int r, set_used f (wrap64 (used f + r))).

(** [text] is the expansion of the format with its arguments. *)
Definition fbuf_printf (f : fbuf) (text : list byte) : outcome (Z * fbuf) :=
  '(g, f) <- fbuf_grow f (BUFSIZ P) ;;
  if g <? 0 then Returns (-1, f)
  else
    let room := wrap64 (size f - used f) in
    let '(r, out) := snprintf room text in
    f <- poke f (used f) out ;;
    if room <=? wrap64 r then Returns (-1, f)
    else
      _ <- assert P (0 <=? r) ;;
      Returns (r, set_used f (wrap64 (used f + r))).

(** [esc] is [None] for a NULL pointer. *)
Definition fbuf_emit (f : fbuf) (esc : option (list byte)) : outcome (Z * fbuf) :=
  match esc with
  | None => Returns (-1, f)
  | Some s =>
    '(r, f) <- fbuf_puts f s ;;
    if r <? 0 then Returns (-1, f) else Returns (0, f)
  end.

(** munmap or free of the region, when there is one. *)
Definition fbuf_free (f : fbuf) : fbuf :=
  {| size := 0; used := 0; buf := None |}.

Definition fbuf_finalize (f : fbuf) (fp : FILE) (flushfp : bool)
  : outcome (Z * fbuf * FILE) :=
  '(ret, fp) <-
    (if negb (used f =? 0) then
       bs <- access (buf f) ;;
       data <- access (load bs 0 (used f)) ;;
       let '(n, fp) := fwrite data fp in
       Returns (if negb (n =? 1) then -1 else 0, fp)
     else Returns (0, fp)) ;;
  let '(ret, fp) :=
    if flushfp && (ret =? 0) then
      let '(e, fp) := fflush fp in
      if e =? EOF then (-1, fp) else (ret, fp)
    else (ret, fp) in
  Returns (ret, fbuf_free f, fp).

End Model.

(** ** The interface as a set of calls *)

Inductive call :=
| Init (small : bool) (hp : bool)
| Grow (n : Z)
| Putc (c : byte)
| Putn (s : list byte) (len : Z)
| Puts (s : list byte)
| Putint (n : Z)
| Printf (text : list byte)
| Emit (esc : option (list byte))
| Reset
| Free
| Finalize (fp : FILE) (flushfp : bool).

(** The arguments are values of their C types. *)
Definition well_typed (c : call) : Prop :=
  match c with
  | Grow n | Putn _ n => 0 <= n <= SIZE_MAX
  | Putint n => INT_MIN <= n <= INT_MAX
  | _ => True
  end.

Definition run (P : platform) (E : os) (c : call) (f : fbuf) : outcome (Z * fbuf) :=
  match c with
  | Init small hp =>
    '(r, f, _) <- (if small then fbuf_init_small P E hp f else fbuf_init P E hp f) ;;
    Returns (r, f)
  | Grow n => fbuf_grow P E f n
  | Putc c => fbuf_putc P E f c
  | Putn s len => fbuf_putn P E f s len
  | Puts s => fbuf_puts P E f s
  | Putint n => fbuf_putint P E f n
  | Printf text => fbuf_printf P E f text
  | Emit esc => fbuf_emit P E f esc
  | Reset => Returns (0, fbuf_reset f)
  | Free => Returns (0, fbuf_free f)
  | Finalize fp flushfp =>
    '(r, f, _) <- fbuf_finalize f fp flushfp ;;
    Returns (r, f)
  end.

Fixpoint run_all (P : platform) (E : os) (cs : list call) (f : fbuf) : outcome fbuf :=
  match cs with
  | [] => Returns f
  | c :: cs => '(_, f) <- run P E c f ;; run_all P E cs f
  end.

(** The bytes that a call reads through its pointer are there. *)
Definition reads_within (c : call) : Prop :=
  match c with
  | Putn s len => 0 <= len <= Z.of_nat (length s)
  | Puts s | Emit (Some s) => strlen s <> None
  | _ => True
  end.

(** ** Predicates on buffers *)

(** The invariant on the two counters. *)
Definition consistent (f : fbuf) : Prop :=
  0 <= used f <= size f /\ size f <= SIZE_MAX.

(** A buffer between its initialization and its release: there is a
    region, it holds the bytes in use, and it is no longer than [size]. *)
Definition initialized (f : fbuf) : Prop :=
  match buf f with
  | Some bs =>
    0 <= used f <= Z.of_nat (length bs) /\
    Z.of_nat (length bs) <= size f /\ 0 < size f <= SIZE_MAX
  | None => False
  end.

(** The region has the [size] bytes that the buffer counts on. *)
Definition backed (f : fbuf) : Prop :=
  match buf f with
  | Some bs => Z.of_nat (length bs) = size f
  | None => False
  end.

(** ** The vocabulary of the statements *)

(** What a successful enlargement from the size [sz] gives: the size is
    doubled [S k] times, the last doubling starts within SIZE_MAX / 2, it
    is the first one that leaves room for [n] bytes, and the region is what
    the platform's call returned. *)
Definition enlarged (P : platform) (E : os) (f : fbuf) (n sz : Z) (f' : fbuf)
  : Prop :=
  used f' = used f /\
  exists k : nat,
    size f' = sz * 2 ^ Z.of_nat (S k) /\
    sz * 2 ^ Z.of_nat k <= SIZE_MAX / 2 /\
    n <= size f' - used f /\
    (forall j : nat, (1 <= j <= k)%nat -> sz * 2 ^ Z.of_nat j - used f < n) /\
    exists bs, buf f' = Some bs /\
      (if linux P then mremap E (buf f) (size f')
       else realloc E (buf f) (size f)) = Some bs.

(** [f1] with [data] written at the end of the bytes in use. *)
Definition appended (f1 : fbuf) (data : list byte) (f' : fbuf) : Prop :=
  size f' = size f1 /\
  used f' = used f1 + Z.of_nat (length data) /\
  content f' = content f1 ++ data /\
  initialized f' /\ (backed f1 -> backed f').

(** [sz'] is the smallest of [sz], [2 sz], [4 sz], ... that holds [need]
    bytes. *)
Definition least_doubling (sz need sz' : Z) : Prop :=
  exists m : nat,
    sz' = sz * 2 ^ Z.of_nat m /\ need <= sz' /\
    forall i : nat, (i < m)%nat -> sz * 2 ^ Z.of_nat i < need.

(** A sequence of [fbuf_putn], with the values returned. *)
Fixpoint put_each (P : platform) (E : os) (xs : list (list byte)) (f : fbuf)
  : outcome (list Z * fbuf) :=
  match xs with
  | [] => Returns ([], f)
  | x :: xs =>
    '(r, f) <- fbuf_putn P E f x (Z.of_nat (length x)) ;;
    '(rs, f) <- put_each P E xs f ;;
    Returns (r :: rs, f)
  end.

(** The stream takes the whole of [f]. *)
Definition takes (fp : FILE) (f : fbuf) : bool := used f <=? quota fp.

(** The calls that write into the buffer. *)
Definition is_write (c : call) : bool :=
  match c with
  | Putc _ | Putn _ _ | Puts _ | Putint _ | Printf _ | Emit _ => true
  | _ => false
  end.

(** The number of bytes to write is a value of [int]. *)
Definition fits_int (c : call) : Prop :=
  match c with
  | Putn _ len => 0 <= len <= INT_MAX
  | Puts s | Emit (Some s) =>
    match strlen s with
    | Some n => n <= INT_MAX
    | None => True
    end
  | _ => True
  end.

(** The operating system grants every request. *)
Definition generous (E : os) : Prop := forall n, grants E n = true.

(** Some platforms and buffers to run the code on. *)
Definition glibc : platform :=
  {| linux := true; ndebug := true; BUFSIZ := 8192 |}.
Definition glibc_debug : platform :=
  {| linux := true; ndebug := false; BUFSIZ := 8192 |}.
Definition other_libc : platform :=
  {| linux := false; ndebug := true; BUFSIZ := 1024 |}.
Definition plenty : os := {| grants := fun _ => true; hugetlb := fun _ => true |}.
Definition scarce : os := {| grants := fun _ => false; hugetlb := fun _ => false |}.
Definition blank : fbuf := {| size := 0; used := 0; buf := None |}.
Definition bytes_of (b : byte) (n : Z) : list byte := repeat b (Z.to_nat n).
Definition fresh (n : Z) : fbuf := {| size := n; used := 0; buf := Some (zeros n) |}.

Definition abc : list byte := [x61; x62; x63].

(** A stream that takes everything and flushes. *)
Definition stream : FILE :=
  {| written := []; flushes := 0; quota := 1000000; flush_fails := false |}.

(** The calls that add to the buffer: the writes and [fbuf_grow]. *)
Definition adds (c : call) : bool :=
  is_write c || match c with Grow _ => true | _ => false end.

(** The calls that are made between an initialization and a release. *)
Definition is_live (c : call) : bool :=
  match c with
  | Init _ _ | Free | Finalize _ _ => false
  | _ => true
  end.

(** The size that an initialization asks for. *)
Definition initial_size (P : platform) (small : bool) : Z :=
  if small then Z.max 4096 (BUFSIZ P) else 2097152.

(** [f] followed by a sequence of [fbuf_putn] and by [fbuf_finalize]. *)
Definition put_each_then_finalize (P : platform) (E : os)
    (xs : list (list byte)) (f : fbuf) (fp : FILE) (flushfp : bool)
  : outcome (Z * fbuf * FILE) :=
  '(_, f) <- put_each P E xs f ;;
  fbuf_finalize f fp flushfp.

(** The number that a sequence of decimal digits denotes. *)
Definition undigit (b : byte) : Z :=
  match b with
  | x30 => 0 | x31 => 1 | x32 => 2 | x33 => 3 | x34 => 4
  | x35 => 5 | x36 => 6 | x37 => 7 | x38 => 8 | _ => 9
  end.

Definition uvalue (ds : list byte) : Z :=
  fold_left (fun v b => 10 * v + undigit b) ds 0.

(** ** The writes, one by one *)

(** The number of bytes that a write asks [fbuf_grow] for. *)
Definition request (P : platform) (c : call) : Z :=
  match c with
  | Putc _ => 1
  | Putn _ len => len
  | Puts s | Emit (Some s) =>
    match strlen s with Some n => n | None => 0 end
  | Putint _ => 10
  | Printf _ => BUFSIZ P
  | _ => 0
  end.

(** The bytes that a write is to append. *)
Definition payload (c : call) : list byte :=
  match c with
  | Putc b => [b]
  | Putn s len => firstn (Z.to_nat len) s
  | Puts s | Emit (Some s) =>
    match strlen s with Some n => firstn (Z.to_nat n) s | None => [] end
  | Putint n => decimal n
  | Printf text => text
  | _ => []
  end.

(** The value that a write returns when it has appended its bytes. *)
Definition result (c : call) : Z :=
  match c with
  | Putc _ => 1
  | Putn _ len => to_int len
  | Puts s => to_int (match strlen s with Some n => n | None => 0 end)
  | Emit (Some s) =>
    if to_int (match strlen s with Some n => n | None => 0 end) <? 0
    then -1 else 0
  | Putint n => Z.of_nat (length (decimal n))
  | Printf text => Z.of_nat (length text)
  | _ => -1
  end.

(** A write that the code can serve: what it reads is there, and what it
    formats fits the fixed budget whatever the buffer: a number of at most
    nine characters in the 10 bytes of [fbuf_putint], a text shorter than
    the BUFSIZ bytes of [fbuf_printf]. *)
Definition sound_write (P : platform) (c : call) : Prop :=
  match c with
  | Putc _ => True
  | Putn s len => 0 <= len <= Z.of_nat (length s)
  | Puts s | Emit (Some s) => strlen s <> None
  | Putint n => (length (decimal n) <= 9)%nat
  | Printf text =>
    Z.of_nat (length text) < BUFSIZ P /\ Z.of_nat (length text) <= INT_MAX
  | _ => False
  end.

Definition requests (P : platform) (cs : list call) : Z :=
  fold_right (fun c acc => request P c + acc) 0 cs.

Definition payloads (cs : list call) : list byte :=
  concat (map payload cs).

(** A sequence of calls, with the values returned. *)
Fixpoint run_each (P : platform) (E : os) (cs : list call) (f : fbuf)
  : outcome (list Z * fbuf) :=
  match cs with
  | [] => Returns ([], f)
  | c :: cs =>
    '(r, f) <- run P E c f ;;
    '(rs, f) <- run_each P E cs f ;;
    Returns (r :: rs, f)
  end.

(** The string of a call has its terminator. *)
Definition terminated (c : call) : Prop :=
  match c with
  | Puts s | Emit (Some s) => strlen s <> None
  | _ => True
  end.

(** The operating system refuses every request. *)
Definition refuses (E : os) : Prop := forall n, grants E n = false.

(** The writes that format: [fbuf_putint] and [fbuf_printf]. *)
Definition is_format (c : call) : bool :=
  match c with
  | Putint _ | Printf _ => true
  | _ => false
  end.

(** The number of bytes of the region. *)
Definition region_size (f : fbuf) : Z :=
  match buf f with
  | Some bs => Z.of_nat (length bs)
  | None => 0
  end.

(** The characters '0' to '9'. *)
Definition is_digit (b : byte) : bool :=
  match b with
  | x30 | x31 | x32 | x33 | x34 | x35 | x36 | x37 | x38 | x39 => true
  | _ => false
  end.

(** A buffer of 4096 bytes that holds "abc". *)
Definition holding_abc : fbuf :=
  {| size := 4096; used := 3; buf := Some (abc ++ zeros 4093) |}.

(** * Proofs *)

(** ** Arithmetic and lists *)

Ltac consts :=
  unfold SIZE_MAX, INT_MAX, INT_MIN, EOF in *;
  change (2 ^ 64) with 18446744073709551616 in *;
  change (2 ^ 63) with 9223372036854775808 in *;
  change (2 ^ 32) with 4294967296 in *;
  change (2 ^ 31) with 2147483648 in *;
  change ((18446744073709551616 - 1) / 2) with 9223372036854775807 in *.

Lemma wrap64_small z : 0 <= z <= SIZE_MAX -> wrap64 z = z.
Proof. unfold wrap64; consts; intros; apply Z.mod_small; lia. Qed.

Lemma wrap64_range z : 0 <= wrap64 z <= SIZE_MAX.
Proof.
  unfold wrap64; consts.
  pose proof (Z.mod_pos_bound z 18446744073709551616); lia.
Qed.

Lemma to_int_small z : INT_MIN <= z <= INT_MAX -> to_int z = z.
Proof.
  unfold to_int; consts; intros.
  rewrite Z.mod_small; lia.
Qed.

Lemma length_resize bs n : length (resize bs n) = Z.to_nat n.
Proof.
  unfold resize. rewrite length_app, length_firstn, repeat_length. lia.
Qed.

Lemma firstn_resize bs n k :
  (k <= length bs)%nat -> (k <= Z.to_nat n)%nat ->
  firstn k (resize bs n) = firstn k bs.
Proof.
  intros Hk Hn. unfold resize.
  rewrite firstn_app, firstn_firstn, length_firstn.
  replace (Init.Nat.min k (Z.to_nat n)) with k by lia.
  replace (k - Init.Nat.min (Z.to_nat n) (length bs))%nat with 0%nat by lia.
  simpl. apply app_nil_r.
Qed.

Lemma store_length bs off data bs' :
  store bs off data = Some bs' -> length bs' = length bs.
Proof.
  unfold store. destruct (_ && _) eqn:Hc; [|discriminate].
  intros [= <-]. apply andb_prop in Hc as [H1 H2].
  apply Z.leb_le in H1, H2.
  rewrite !length_app, length_firstn, length_skipn. lia.
Qed.

Lemma store_prefix bs off data bs' k :
  store bs off data = Some bs' -> (k <= Z.to_nat off)%nat ->
  firstn k bs' = firstn k bs.
Proof.
  unfold store. destruct (_ && _) eqn:Hc; [|discriminate].
  intros [= <-] Hk. apply andb_prop in Hc as [H1 H2].
  apply Z.leb_le in H1, H2.
  rewrite firstn_app, firstn_firstn, length_firstn.
  replace (Init.Nat.min k (Z.to_nat off)) with k by lia.
  replace (k - Init.Nat.min (Z.to_nat off) (length bs))%nat with 0%nat by lia.
  simpl. apply app_nil_r.
Qed.

Lemma store_here bs off data bs' :
  store bs off data = Some bs' ->
  firstn (Z.to_nat off + length data) bs' = firstn (Z.to_nat off) bs ++ data.
Proof.
  unfold store. destruct (_ && _) eqn:Hc; [|discriminate].
  intros [= <-]. apply andb_prop in Hc as [H1 H2].
  apply Z.leb_le in H1, H2.
  rewrite app_assoc, firstn_app, length_app, length_firstn.
  replace (Z.to_nat off + length data
           - (Init.Nat.min (Z.to_nat off) (length bs) + length data))%nat
    with 0%nat by lia.
  simpl. rewrite app_nil_r. apply firstn_all2.
  rewrite length_app, length_firstn. lia.
Qed.

Lemma store_fits bs off data :
  0 <= off -> off + Z.of_nat (length data) <= Z.of_nat (length bs) ->
  exists bs', store bs off data = Some bs'.
Proof.
  intros H1 H2. unfold store.
  apply Z.leb_le in H1, H2. rewrite H1, H2. simpl. eauto.
Qed.

Lemma store_nil bs off :
  0 <= off <= Z.of_nat (length bs) -> store bs off [] = Some bs.
Proof.
  intros [H1 H2]. unfold store. simpl length.
  rewrite Z.add_0_r, Nat.add_0_r.
  apply Z.leb_le in H1, H2. rewrite H1, H2. simpl.
  now rewrite firstn_skipn.
Qed.

(** ** Growth *)

Lemma pow2_S k : 2 ^ Z.of_nat (S k) = 2 * 2 ^ Z.of_nat k.
Proof. rewrite Nat2Z.inj_succ, Z.pow_succ_r; lia. Qed.

Lemma pow2_pos k : 0 < 2 ^ Z.of_nat k.
Proof. apply Z.pow_pos_nonneg; lia. Qed.

Section Growth.

Variable P : platform.
Variable E : os.
Variable f : fbuf.
Variable n : Z.

Lemma grow_loop_cases fuel : forall sz g f',
  0 < sz -> 0 <= used f <= sz -> sz <= SIZE_MAX ->
  grow_loop P E fuel f n sz = Returns (g, f') ->
  (g = -1 /\ f' = f) \/ (g = 0 /\ enlarged P E f n sz f').
Proof.
  induction fuel as [|fuel IH]; intros sz g f' Hpos Hu Hmax; simpl; [discriminate|].
  destruct (sz <=? SIZE_MAX / 2) eqn:Hg; [|intros [= <- <-]; now left].
  apply Z.leb_le in Hg.
  assert (H2 : wrap64 (sz * 2) = sz * 2) by (apply wrap64_small; consts; lia).
  assert (H3 : wrap64 (sz * 2 - used f) = sz * 2 - used f)
    by (apply wrap64_small; consts; lia).
  rewrite H2, H3.
  destruct (sz * 2 - used f <? n) eqn:Hn.
  - apply Z.ltb_lt in Hn. intros H.
    apply IH in H; try (consts; lia).
    destruct H as [H|[-> [Hused [k (Hs & Hm & Hroom & Hmin & Hbuf)]]]]; [now left|].
    right. split; [reflexivity|]. split; [exact Hused|].
    exists (S k). rewrite !pow2_S in *.
    repeat split; try lia.
    + intros j Hj. destruct j as [|j]; [lia|].
      destruct j as [|j].
      * change (Z.of_nat 1) with 1. lia.
      * specialize (Hmin (S j)). rewrite !pow2_S in *. lia.
    + exact Hbuf.
  - apply Z.ltb_ge in Hn.
    destruct (if linux P then _ else _) as [bs|] eqn:Htmp;
      intros [= <- <-]; [right|now left].
    split; [reflexivity|]. split; [reflexivity|].
    exists 0%nat. simpl size. simpl used. simpl buf.
    change (2 ^ Z.of_nat 0) with 1. change (2 ^ Z.of_nat 1) with 2.
    repeat split; try lia.
    exists bs. now split.
Qed.

(** A size that is not zero leaves the loop. *)
Lemma grow_loop_returns k : forall sz,
  0 < sz -> 0 <= used f <= sz -> sz <= SIZE_MAX ->
  2 ^ 63 <= sz * 2 ^ Z.of_nat k ->
  exists g f', grow_loop P E (S k) f n sz = Returns (g, f').
Proof.
  induction k as [|k IH]; intros sz Hpos Hu Hmax Hk.
  - change (2 ^ Z.of_nat 0) with 1 in Hk. simpl.
    replace (sz <=? SIZE_MAX / 2) with false
      by (symmetry; apply Z.leb_gt; consts; lia).
    eauto.
  - rewrite pow2_S in Hk.
    change (grow_loop P E (S (S k)) f n sz) with
      (if sz <=? SIZE_MAX / 2 then
         if wrap64 (wrap64 (sz * 2) - used f) <? n
         then grow_loop P E (S k) f n (wrap64 (sz * 2))
         else match (if linux P then mremap E (buf f) (wrap64 (sz * 2))
                     else realloc E (buf f) (size f)) with
              | None => Returns (-1, f)
              | Some bs => Returns (0, {| size := wrap64 (sz * 2);
                                          used := used f; buf := Some bs |})
              end
       else Returns (-1, f)).
    destruct (sz <=? SIZE_MAX / 2) eqn:Hg; [|eauto].
    apply Z.leb_le in Hg.
    assert (H2 : wrap64 (sz * 2) = sz * 2) by (apply wrap64_small; consts; lia).
    rewrite H2.
    destruct (_ <? n).
    + apply IH; consts; lia.
    + destruct (if linux P then _ else _); eauto.
Qed.

(** A zero size never leaves it: the precondition [0 != f->size] matters. *)
Lemma grow_loop_hangs fuel :
  used f = 0 -> 0 < n -> grow_loop P E fuel f n 0 = Crashes Hang.
Proof.
  intros Hu Hn. induction fuel as [|fuel IH]; [reflexivity|].
  simpl. rewrite Hu. change (wrap64 (- 0)) with 0. change (wrap64 0) with 0.
  replace (0 <? n) with true by (symmetry; now apply Z.ltb_lt).
  exact IH.
Qed.

(** Where a doubling within SIZE_MAX / 2 leaves room and the platform
    grants the region, the loop succeeds. *)
Lemma grow_loop_succeeds k : forall fuel sz,
  (k < fuel)%nat -> 0 < sz -> 0 <= used f <= sz ->
  sz * 2 ^ Z.of_nat k <= SIZE_MAX / 2 ->
  used f + n <= sz * 2 ^ Z.of_nat (S k) ->
  (forall m, (if linux P then mremap E (buf f) m
              else realloc E (buf f) (size f)) <> None) ->
  exists f', grow_loop P E fuel f n sz = Returns (0, f').
Proof.
  induction k as [|k IH]; intros fuel sz Hf Hpos Hu Hm Hn Hos;
    (destruct fuel as [|fuel]; [lia|]); simpl.
  - change (2 ^ Z.of_nat 0) with 1 in Hm. change (2 ^ Z.of_nat 1) with 2 in Hn.
    replace (sz <=? SIZE_MAX / 2) with true by (symmetry; apply Z.leb_le; lia).
    assert (H2 : wrap64 (sz * 2) = sz * 2) by (apply wrap64_small; consts; lia).
    assert (H3 : wrap64 (sz * 2 - used f) = sz * 2 - used f)
      by (apply wrap64_small; consts; lia).
    rewrite H2, H3.
    replace (sz * 2 - used f <? n) with false by (symmetry; apply Z.ltb_ge; lia).
    specialize (Hos (sz * 2)).
    destruct (if linux P then _ else _); [eauto|congruence].
  - pose proof (pow2_pos k) as Hp. rewrite pow2_S in Hm.
    assert (Hg : sz <= SIZE_MAX / 2) by (consts; nia).
    replace (sz <=? SIZE_MAX / 2) with true by (symmetry; apply Z.leb_le; lia).
    assert (H2 : wrap64 (sz * 2) = sz * 2) by (apply wrap64_small; consts; lia).
    assert (H3 : wrap64 (sz * 2 - used f) = sz * 2 - used f)
      by (apply wrap64_small; consts; lia).
    rewrite H2, H3.
    destruct (sz * 2 - used f <? n).
    + rewrite pow2_S in Hn. apply IH; auto; lia.
    + specialize (Hos (sz * 2)).
      destruct (if linux P then _ else _); [eauto|congruence].
Qed.

End Growth.

Lemma assert_holds P c : c = true -> assert P c = Returns tt.
Proof. intros ->. unfold assert. now rewrite orb_true_r. Qed.

Lemma initialized_consistent f : initialized f -> consistent f.
Proof.
  unfold initialized, consistent. destruct (buf f); [lia|tauto].
Qed.

Lemma content_length f : initialized f -> Z.of_nat (length (content f)) = used f.
Proof.
  unfold initialized, content. destruct (buf f) as [bs|]; [|tauto].
  intros. rewrite length_firstn. lia.
Qed.

Section Ensure.

Variable P : platform.
Variable E : os.

Lemma fbuf_grow_unfold f n :
  initialized f ->
  fbuf_grow P E f n =
  if n <=? size f - used f then Returns (0, f)
  else grow_loop P E grow_fuel f n (size f).
Proof.
  intros Hi. unfold fbuf_grow. pose proof (initialized_consistent _ Hi) as Hc.
  unfold initialized in Hi. destruct (buf f) as [bs|]; [|tauto].
  rewrite assert_holds by reflexivity. cbn [bind].
  rewrite assert_holds by (apply negb_true_iff, Z.eqb_neq; lia). cbn [bind].
  rewrite wrap64_small; [reflexivity|]. destruct Hc. lia.
Qed.

Lemma fbuf_grow_enough f n :
  initialized f -> n <= size f - used f -> fbuf_grow P E f n = Returns (0, f).
Proof.
  intros Hi Hn. rewrite fbuf_grow_unfold by assumption.
  now replace (n <=? size f - used f) with true by (symmetry; now apply Z.leb_le).
Qed.

Lemma fbuf_grow_cases f n g f' :
  initialized f -> fbuf_grow P E f n = Returns (g, f') ->
  (g = 0 /\ f' = f /\ n <= size f - used f) \/
  (g = -1 /\ f' = f /\ size f - used f < n) \/
  (g = 0 /\ size f - used f < n /\ enlarged P E f n (size f) f').
Proof.
  intros Hi. rewrite fbuf_grow_unfold by assumption.
  pose proof (initialized_consistent _ Hi) as [Hu Hm].
  destruct (n <=? size f - used f) eqn:Hn.
  - apply Z.leb_le in Hn. intros [= <- <-]. now left.
  - apply Z.leb_gt in Hn. intros H. right.
    apply grow_loop_cases in H; try lia.
    + destruct H as [[-> ->]|[-> H]]; [left|right]; auto.
    + unfold initialized in Hi. destruct (buf f); [lia|tauto].
Qed.

Lemma fbuf_grow_returns f n :
  initialized f -> exists g f', fbuf_grow P E f n = Returns (g, f').
Proof.
  intros Hi. rewrite fbuf_grow_unfold by assumption.
  destruct (n <=? size f - used f); [eauto|].
  pose proof (initialized_consistent _ Hi) as [Hu Hm].
  apply grow_loop_returns; try lia.
  - unfold initialized in Hi. destruct (buf f); [lia|tauto].
  - unfold initialized in Hi. destruct (buf f); [|tauto].
    change (2 ^ Z.of_nat 64) with (2 ^ 64). consts. lia.
Qed.

(** The postcondition of [fbuf_grow] on an initialized buffer. *)
Lemma fbuf_grow_post f n g f' :
  initialized f -> fbuf_grow P E f n = Returns (g, f') ->
  initialized f' /\ used f' = used f /\ content f' = content f /\
  size f <= size f' /\
  (g = 0 /\ n <= size f' - used f' \/ g = -1 /\ f' = f).
Proof.
  intros Hi H. pose proof (fbuf_grow_cases _ _ _ _ Hi H) as Hc.
  destruct Hc as [(-> & -> & Hn)|[(-> & -> & Hn)|(-> & Hn & Hused & k & He)]].
  - repeat split; auto; lia.
  - repeat split; auto; lia.
  - destruct He as (Hs & Hm & Hroom & _ & bs' & Hb & Htmp).
    pose proof (pow2_pos k) as Hp. rewrite pow2_S in Hs.
    unfold initialized, content in *. rewrite Hb, Hused.
    destruct (buf f) as [bs|]; [|tauto].
    assert (Hlen : Z.of_nat (length bs') = size f' \/ Z.of_nat (length bs') = size f).
    { destruct (linux P); simpl in Htmp.
      - destruct (grants E (size f')); [|discriminate].
        injection Htmp as <-. rewrite length_resize. left. nia.
      - unfold realloc in Htmp. destruct (grants E (size f)); [|discriminate].
        injection Htmp as <-. rewrite length_resize. right. lia. }
    assert (Hpre : firstn (Z.to_nat (used f)) bs' = firstn (Z.to_nat (used f)) bs).
    { destruct (linux P); simpl in Htmp.
      - destruct (grants E (size f')); [|discriminate].
        injection Htmp as <-. apply firstn_resize; nia.
      - unfold realloc in Htmp. destruct (grants E (size f)); [|discriminate].
        injection Htmp as <-. apply firstn_resize; lia. }
    repeat split; auto; try (consts; nia).
Qed.

(** On Linux the region keeps the [size] bytes that the buffer counts on. *)
Lemma fbuf_grow_backed f n g f' :
  linux P = true -> initialized f -> backed f ->
  fbuf_grow P E f n = Returns (g, f') -> backed f'.
Proof.
  intros Hl Hi Hb H. pose proof (fbuf_grow_cases _ _ _ _ Hi H) as Hc.
  destruct Hc as [(-> & -> & Hn)|[(-> & -> & Hn)|(-> & Hn & Hused & k & He)]]; auto.
  destruct He as (Hs & Hm & Hroom & _ & bs' & Hb' & Htmp).
  pose proof (pow2_pos k) as Hp. rewrite pow2_S in Hs.
  unfold backed, initialized in *. rewrite Hb'. rewrite Hl in Htmp.
  destruct (buf f) as [bs|]; [|tauto]. simpl in Htmp.
  destruct (grants E (size f')); [|discriminate].
  injection Htmp as <-. rewrite length_resize. nia.
Qed.

(** On any buffer whose counters are consistent. *)
Lemma fbuf_grow_consistent f n g f' :
  consistent f -> fbuf_grow P E f n = Returns (g, f') ->
  consistent f' /\ used f' = used f /\ size f <= size f' /\
  (g = 0 /\ n <= size f' - used f' \/ g = -1 /\ f' = f).
Proof.
  intros [Hu Hm]. unfold fbuf_grow.
  destruct (assert P _); [|discriminate]. cbn [bind].
  destruct (assert P _); [|discriminate]. cbn [bind].
  rewrite wrap64_small by lia.
  destruct (n <=? size f - used f) eqn:Hn.
  - apply Z.leb_le in Hn. intros [= <- <-]. unfold consistent. repeat split; lia.
  - apply Z.leb_gt in Hn. intros H.
    destruct (Z.eq_dec (size f) 0) as [H0|H0].
    + rewrite H0 in H. rewrite grow_loop_hangs in H; [discriminate|lia|lia].
    + apply grow_loop_cases in H; try lia.
      destruct H as [[-> ->]|[-> [Hused (k & Hs & Hk & Hroom & _)]]].
      * unfold consistent. repeat split; try lia; auto.
      * pose proof (pow2_pos k) as Hp. rewrite pow2_S in Hs.
        unfold consistent. rewrite Hused.
        repeat split; consts; nia.
Qed.

End Ensure.

(** ** Appending bytes *)

Lemma load_prefix s len :
  0 <= len <= Z.of_nat (length s) ->
  load s 0 len = Some (firstn (Z.to_nat len) s).
Proof.
  intros [H1 H2]. unfold load. simpl.
  apply Z.leb_le in H1, H2. now rewrite H1, H2.
Qed.

Lemma poke_end f1 data :
  initialized f1 ->
  match buf f1 with
  | Some bs => used f1 + Z.of_nat (length data) <= Z.of_nat (length bs)
  | None => False
  end ->
  exists f2, poke f1 (used f1) data = Returns f2 /\
    appended f1 data (set_used f2 (used f1 + Z.of_nat (length data))).
Proof.
  unfold initialized, poke, appended, backed, content.
  destruct (buf f1) as [bs|] eqn:Hb; [|tauto].
  intros (Hu & Hl & Hs) Hfit. cbn [access bind].
  destruct (store_fits bs (used f1) data) as [bs' Hst]; try lia.
  rewrite Hst. cbn [access bind]. eexists. split; [reflexivity|].
  pose proof (store_length _ _ _ _ Hst) as Hlen.
  pose proof (store_here _ _ _ _ Hst) as Hhere.
  simpl. rewrite Hlen.
  replace (Z.to_nat (used f1 + Z.of_nat (length data)))
    with (Z.to_nat (used f1) + length data)%nat by lia.
  unfold initialized, set_used. simpl. rewrite Hlen.
  repeat split; auto; lia.
Qed.

Section Putn.

Variable P : platform.
Variable E : os.

Lemma fbuf_putn_fails f s len f1 :
  fbuf_grow P E f len = Returns (-1, f1) ->
  fbuf_putn P E f s len = Returns (-1, f1).
Proof. unfold fbuf_putn. now intros ->. Qed.

Lemma fbuf_putn_appends f s len f1 :
  initialized f -> fbuf_grow P E f len = Returns (0, f1) ->
  0 <= len <= Z.of_nat (length s) ->
  match buf f1 with
  | Some bs => used f1 + len <= Z.of_nat (length bs)
  | None => False
  end ->
  exists f', fbuf_putn P E f s len = Returns (to_int len, f') /\
    appended f1 (firstn (Z.to_nat len) s) f'.
Proof.
  intros Hi Hg Hlen Hfit. unfold fbuf_putn. rewrite Hg. cbn [bind negb Z.eqb].
  rewrite load_prefix by assumption. cbn [access bind].
  destruct (fbuf_grow_post _ _ _ _ _ _ Hi Hg) as (Hi1 & Hu1 & Hc1 & _).
  assert (Hl : Z.of_nat (length (firstn (Z.to_nat len) s)) = len)
    by (rewrite length_firstn; lia).
  destruct (poke_end f1 (firstn (Z.to_nat len) s) Hi1) as (f2 & Hp & Ha).
  { rewrite Hl. exact Hfit. }
  rewrite Hp. cbn [bind].
  assert (Hu2 : used f2 = used f1).
  { unfold poke in Hp. destruct (buf f1); [|discriminate]. cbn in Hp.
    destruct (store _ _ _); [|discriminate]. cbn in Hp. now injection Hp as <-. }
  rewrite Hu2, wrap64_small.
  - eexists. split; [reflexivity|]. now rewrite Hl in Ha.
  - unfold initialized in Hi1. destruct (buf f1); [lia|tauto].
Qed.

(** Whatever [fbuf_putn] returns on an initialized buffer. *)
Lemma fbuf_putn_cases f s len r f' :
  initialized f -> 0 <= len ->
  fbuf_putn P E f s len = Returns (r, f') ->
  (r = -1 /\ f' = f) \/
  (r = to_int len /\ exists f1, fbuf_grow P E f len = Returns (0, f1) /\
     appended f1 (firstn (Z.to_nat len) s) f').
Proof.
  intros Hi Hlen H.
  destruct (fbuf_grow_returns P E f len Hi) as (g & f1 & Hg).
  destruct (fbuf_grow_post _ _ _ _ _ _ Hi Hg) as (Hi1 & Hu1 & Hc1 & Hs1 & Hr).
  destruct Hr as [[-> Hroom]|[-> ->]].
  - right.
    destruct (Z_le_gt_dec len (Z.of_nat (length s))) as [Hs|Hs].
    2:{ exfalso. unfold fbuf_putn in H. rewrite Hg in H.
        cbn [bind negb Z.eqb] in H. unfold load in H.
        replace (0 + len <=? Z.of_nat (length s)) with false in H
          by (symmetry; apply Z.leb_gt; lia).
        rewrite andb_false_r in H. discriminate. }
    destruct (buf f1) as [bs|] eqn:Hb.
    2:{ unfold initialized in Hi1. rewrite Hb in Hi1. tauto. }
    destruct (Z_le_gt_dec (used f1 + len) (Z.of_nat (length bs))) as [Hfit|Hfit].
    + destruct (fbuf_putn_appends f s len f1) as (f2 & H2 & Ha); auto; try lia.
      { now rewrite Hb. }
      rewrite H2 in H. injection H as <- <-. split; [reflexivity|eauto].
    + exfalso. unfold fbuf_putn in H. rewrite Hg in H.
      cbn [bind negb Z.eqb] in H. rewrite load_prefix in H by lia.
      cbn [access bind] in H. unfold poke in H. rewrite Hb in H.
      cbn [access bind] in H. unfold store in H.
      rewrite length_firstn in H.
      replace (used f1 + Z.of_nat (Init.Nat.min (Z.to_nat len) (length s))
               <=? Z.of_nat (length bs)) with false in H
        by (symmetry; apply Z.leb_gt; lia).
      rewrite andb_false_r in H. discriminate.
  - left. rewrite (fbuf_putn_fails _ _ _ _ Hg) in H. now injection H as <- <-.
Qed.

End Putn.

(** ** Writes of bytes *)

Lemma fbuf_eta f : {| size := size f; used := used f; buf := buf f |} = f.
Proof. now destruct f. Qed.

(** C10. On every initialized buffer [fbuf_putn] of zero bytes returns 0
    and leaves the buffer as it is: size, used and every byte of the
    region. *)
Theorem fbuf_putn_zero (P : platform) (E : os) (f : fbuf) (s : list byte) :
  initialized f -> fbuf_putn P E f s 0 = Returns (0, f).
Proof.
  intros Hi. unfold fbuf_putn.
  pose proof (initialized_consistent _ Hi) as [Hu Hm].
  rewrite fbuf_grow_enough by (auto; lia). cbn [bind negb Z.eqb].
  unfold load. cbn [Z.leb Z.compare andb Z.add].
  replace (0 <=? Z.of_nat (length s)) with true by (symmetry; apply Z.leb_le; lia).
  cbn [access bind Z.to_nat firstn]. unfold poke, initialized in *.
  destruct (buf f) as [bs|] eqn:Hb; [|tauto]. cbn [access bind].
  rewrite store_nil by lia. cbn [access bind].
  unfold set_used. cbn [size used buf]. rewrite Z.add_0_r, wrap64_small by lia.
  rewrite <- Hb, fbuf_eta. reflexivity.
Qed.

Lemma fbuf_putn_zero_witness :
  initialized (fresh 4096) /\
  fbuf_putn glibc plenty (fresh 4096) [] 0 = Returns (0, fresh 4096).
Proof.
  assert (Hi : initialized (fresh 4096)) by (vm_compute; intuition discriminate).
  split; [exact Hi|]. exact (fbuf_putn_zero glibc plenty (fresh 4096) [] Hi).
Defined.

(** C9. On every initialized buffer [fbuf_putc] of a byte and [fbuf_putn] of
    the one-byte sequence made of it have the same outcome: the same value
    returned (1, or -1 for a failure) and the same buffer. *)
Theorem fbuf_putc_is_putn (P : platform) (E : os) (f : fbuf) (b : byte) :
  initialized f -> fbuf_putc P E f b = fbuf_putn P E f [b] 1.
Proof.
  intros Hi. unfold fbuf_putc, fbuf_putn.
  destruct (fbuf_grow P E f 1) as [[g f1]|c] eqn:Hg; [|reflexivity].
  cbn [bind].
  destruct (fbuf_grow_post _ _ _ _ _ _ Hi Hg) as (Hi1 & Hu1 & _ & _ & Hr).
  destruct Hr as [[-> Hroom]|[-> ->]]; [|reflexivity].
  cbn [negb Z.eqb].
  pose proof (initialized_consistent _ Hi1) as [Hu Hm].
  assert (Hw : wrap64 (used f1 + 1) = used f1 + 1) by (apply wrap64_small; lia).
  unfold fbuf_at, set_used. cbn [used size buf]. rewrite Hw.
  replace (used f1 + 1 <? used f1) with false by (symmetry; apply Z.ltb_ge; lia).
  change (load [b] 0 1) with (Some [b]). cbn [access bind].
  unfold poke. cbn [buf size used].
  destruct (buf f1) as [bs|]; [|reflexivity]. cbn [access bind].
  destruct (store bs (used f1) [b]); [|reflexivity]. cbn [access bind].
  cbn [size used buf]. rewrite Hw. reflexivity.
Qed.

Lemma fbuf_putc_is_putn_witness :
  initialized (fresh 4096) /\
  fbuf_putc glibc plenty (fresh 4096) x41 = fbuf_putn glibc plenty (fresh 4096) [x41] 1.
Proof.
  assert (Hi : initialized (fresh 4096)) by (vm_compute; intuition discriminate).
  split; [exact Hi|]. exact (fbuf_putc_is_putn glibc plenty (fresh 4096) x41 Hi).
Defined.

(** ** Reset *)

Lemma initialized_reset f : initialized f -> initialized (fbuf_reset f).
Proof.
  unfold initialized, fbuf_reset. simpl. destruct (buf f); [lia|tauto].
Qed.

Lemma fbuf_putn_fits (P : platform) (E : os) f x :
  initialized f -> backed f -> Z.of_nat (length x) <= size f - used f ->
  exists f', fbuf_putn P E f x (Z.of_nat (length x))
             = Returns (to_int (Z.of_nat (length x)), f') /\
    appended f x f'.
Proof.
  intros Hi Hb Hfit.
  destruct (fbuf_putn_appends P E f x (Z.of_nat (length x)) f) as (f' & H & Ha);
    auto using fbuf_grow_enough; try lia.
  - unfold backed in Hb. destruct (buf f); [lia|tauto].
  - exists f'. split; [exact H|]. now rewrite Nat2Z.id, firstn_all in Ha.
Qed.

(** ** Transparent growth *)

Lemma least_doubling_trans a b c n1 n2 :
  0 < a -> n1 <= n2 ->
  least_doubling a n1 b -> least_doubling b n2 c -> least_doubling a n2 c.
Proof.
  intros Ha Hn (m1 & -> & H1 & L1) (m2 & -> & H2 & L2).
  exists (m1 + m2)%nat. rewrite Nat2Z.inj_add, Z.pow_add_r by lia.
  split; [lia|]. split; [lia|].
  intros i Hi. destruct (Nat.lt_ge_cases i m1) as [Hlt|Hge].
  - specialize (L1 i Hlt). lia.
  - specialize (L2 (i - m1)%nat ltac:(lia)).
    replace (Z.of_nat i) with (Z.of_nat m1 + Z.of_nat (i - m1)) by lia.
    rewrite Z.pow_add_r by lia. lia.
Qed.

(** Below SIZE_MAX / 2 there is always a doubling that is enough. *)
Lemma doubling_exists m : forall sz need,
  0 < sz -> sz < need -> need <= SIZE_MAX / 2 ->
  2 ^ 63 <= sz * 2 ^ Z.of_nat m ->
  exists k : nat, sz * 2 ^ Z.of_nat k <= SIZE_MAX / 2 /\
                  need <= sz * 2 ^ Z.of_nat (S k).
Proof.
  induction m as [|m IH]; intros sz need Hpos Hlt Hmax Hm.
  - change (2 ^ Z.of_nat 0) with 1 in Hm. consts. lia.
  - destruct (Z_le_gt_dec need (sz * 2)) as [Hle|Hgt].
    + exists 0%nat. change (2 ^ Z.of_nat 0) with 1.
      change (2 ^ Z.of_nat 1) with 2. lia.
    + rewrite pow2_S in Hm.
      destruct (IH (sz * 2) need) as (k & Hk1 & Hk2); try lia.
      exists (S k). rewrite !pow2_S in *. lia.
Qed.

Lemma doubling_bounded sz k :
  0 < sz -> sz * 2 ^ Z.of_nat k <= SIZE_MAX / 2 -> (k < grow_fuel)%nat.
Proof.
  intros Hpos Hk. unfold grow_fuel.
  destruct (Nat.lt_ge_cases k 65) as [|Hge]; [assumption|exfalso].
  assert (H : 2 ^ 65 <= 2 ^ Z.of_nat k) by (apply Z.pow_le_mono_r; lia).
  change (2 ^ 65) with 36893488147419103232 in H. consts. nia.
Qed.

Section Transparent.

Variable P : platform.
Variable E : os.
Hypothesis on_linux : linux P = true.
Hypothesis granted : generous E.

Lemma fbuf_putn_grows f x :
  initialized f -> backed f ->
  used f + Z.of_nat (length x) <= SIZE_MAX / 2 ->
  exists f', fbuf_putn P E f x (Z.of_nat (length x))
             = Returns (to_int (Z.of_nat (length x)), f') /\
    content f' = content f ++ x /\
    used f' = used f + Z.of_nat (length x) /\
    least_doubling (size f) (used f + Z.of_nat (length x)) (size f') /\
    initialized f' /\ backed f'.
Proof.
  intros Hi Hb Hmax. set (len := Z.of_nat (length x)) in *.
  pose proof (initialized_consistent _ Hi) as [Hu Hm].
  assert (Hpos : 0 < size f)
    by (unfold initialized in Hi; destruct (buf f); [lia|tauto]).
  destruct (Z_le_gt_dec len (size f - used f)) as [Hfit|Hgrow].
  - destruct (fbuf_putn_fits P E f x Hi Hb Hfit) as (f' & H & Hs & Hu' & Hc & Hi' & Hb').
    exists f'. repeat split; auto.
    exists 0%nat. change (2 ^ Z.of_nat 0) with 1. rewrite Hs.
    repeat split; try lia.
  - destruct (doubling_exists 63 (size f) (used f + len)) as (k & Hk1 & Hk2);
      try lia.
    destruct (grow_loop_succeeds P E f len k grow_fuel (size f)) as [f1 Hl];
      auto; try lia.
    { now apply doubling_bounded with (size f). }
    { intros m. rewrite on_linux. unfold backed in Hb.
      destruct (buf f); [|contradiction]. simpl. now rewrite granted. }
    assert (Hg : fbuf_grow P E f len = Returns (0, f1)).
    { rewrite fbuf_grow_unfold by assumption.
      now replace (len <=? size f - used f) with false
        by (symmetry; apply Z.leb_gt; lia). }
    pose proof (fbuf_grow_backed _ _ _ _ _ _ on_linux Hi Hb Hg) as Hb1.
    destruct (fbuf_grow_post _ _ _ _ _ _ Hi Hg) as (Hi1 & Hu1 & Hc1 & Hs1 & Hr).
    destruct Hr as [[_ Hroom]|[? _]]; [|discriminate].
    destruct (fbuf_putn_appends P E f x len f1) as (f' & H & Ha); auto.
    { unfold len. lia. }
    { unfold backed in Hb1. destruct (buf f1); [lia|contradiction]. }
    unfold len in Ha. rewrite Nat2Z.id, firstn_all in Ha.
    destruct Ha as (Hs & Hu' & Hc & Hi' & Hb').
    exists f'. rewrite Hc, Hu', Hs, Hc1, Hu1. repeat split; auto.
    destruct (fbuf_grow_cases _ _ _ _ _ _ Hi Hg)
      as [(_ & _ & ?)|[(? & _)|(_ & _ & _ & j & Hj & _ & Hjr & Hmin & _)]];
      [lia|discriminate|].
    exists (S j). split; [exact Hj|]. split; [lia|].
    intros i Hi2. destruct i as [|i].
    + change (2 ^ Z.of_nat 0) with 1. lia.
    + specialize (Hmin (S i) ltac:(lia)). lia.
Qed.

Lemma put_each_grows xs : forall f,
  initialized f -> backed f ->
  used f + Z.of_nat (length (concat xs)) <= SIZE_MAX / 2 ->
  exists f', put_each P E xs f
             = Returns (map (fun x => to_int (Z.of_nat (length x))) xs, f') /\
    content f' = content f ++ concat xs /\
    used f' = used f + Z.of_nat (length (concat xs)) /\
    least_doubling (size f) (used f + Z.of_nat (length (concat xs))) (size f') /\
    initialized f' /\ backed f'.
Proof.
  induction xs as [|x xs IH]; intros f Hi Hb Hmax.
  - exists f. simpl. rewrite app_nil_r, Z.add_0_r. repeat split; auto.
    exists 0%nat. change (2 ^ Z.of_nat 0) with 1.
    pose proof (initialized_consistent _ Hi) as [Hu Hm].
    repeat split; lia.
  - simpl concat in *. rewrite length_app, Nat2Z.inj_add in *.
    destruct (fbuf_putn_grows f x Hi Hb) as (f1 & H1 & Hc1 & Hu1 & Hd1 & Hi1 & Hb1);
      [lia|].
    destruct (IH f1 Hi1 Hb1) as (f' & H & Hc & Hu & Hd & Hi' & Hb'); [lia|].
    exists f'. simpl. rewrite H1. cbn [bind]. rewrite H. cbn [bind].
    rewrite Hc, Hc1, Hu, Hu1, app_assoc, Z.add_assoc.
    repeat split; auto.
    apply least_doubling_trans with (b := size f1)
                                    (n1 := used f + Z.of_nat (length x)).
    + unfold initialized in Hi. destruct (buf f); [lia|tauto].
    + lia.
    + exact Hd1.
    + rewrite Hu1 in Hd. rewrite ?Z.add_assoc in *. exact Hd.
Qed.

End Transparent.

(** Off Linux the region is reallocated with its old size, [f->size], and
    not with the new one: the buffer counts on bytes that it does not
    have, and the write that asked for them runs past the region. *)
Lemma realloc_keeps_old_size :
  (exists f', fbuf_grow other_libc plenty (fresh 4096) 5000 = Returns (0, f') /\
     size f' = 8192 /\ buf f' = Some (zeros 4096)) /\
  fbuf_putn other_libc plenty (fresh 4096) (bytes_of x41 5000) 5000
  = Crashes BadAccess.
Proof.
  split; [eexists; split; [vm_compute; reflexivity|split; reflexivity]|].
  vm_compute. reflexivity.
Qed.

(** ** The invariant on the counters *)

Lemma poke_fields f off data f' :
  poke f off data = Returns f' -> size f' = size f /\ used f' = used f.
Proof.
  unfold poke. destruct (buf f); [|discriminate]. cbn [access bind].
  destruct (store _ _ _); [|discriminate]. cbn [access bind].
  now intros [= <-].
Qed.

Lemma strlen_range s n : strlen s = Some n -> 0 <= n < Z.of_nat (length s).
Proof.
  revert n. induction s as [|c s IH]; intros n; simpl; [discriminate|].
  destruct (Byte.eqb c x00).
  - intros [= <-]. lia.
  - destruct (strlen s) as [m|]; [|discriminate]. simpl.
    intros [= <-]. specialize (IH m eq_refl). lia.
Qed.

Lemma snprintf_value room text r out :
  snprintf room text = (r, out) ->
  (r = -1 /\ wrap64 r = SIZE_MAX) \/
  (r = Z.of_nat (length text) /\ 0 <= r <= INT_MAX /\ wrap64 r = r).
Proof.
  unfold snprintf. intros [= <- _].
  destruct (INT_MAX <? Z.of_nat (length text)) eqn:Hlen.
  - left. split; reflexivity.
  - right. apply Z.ltb_ge in Hlen. split; [reflexivity|].
    split; [lia|]. apply wrap64_small. consts. lia.
Qed.

Ltac bind_inv H :=
  match type of H with
  | bind ?m _ = Returns _ =>
    let Hm := fresh "Hm" in
    destruct m as [?|?] eqn:Hm; [cbn [bind] in H|discriminate H]
  end.

Section Invariant.

Variable P : platform.
Variable E : os.
Hypothesis BUFSIZ_fits : BUFSIZ P <= SIZE_MAX.

Lemma fbuf_initgrow_consistent hp small r f' hp' :
  fbuf_initgrow P E hp blank small = Returns (r, f', hp') -> consistent f'.
Proof.
  unfold fbuf_initgrow. intros H.
  bind_inv H. bind_inv H. bind_inv H.
  assert (Hsz : 0 <= (if small then if BUFSIZ P <? 4096 then 4096 else BUFSIZ P
                      else 2097152) <= SIZE_MAX).
  { destruct small; [destruct (BUFSIZ P <? 4096) eqn:Hb|]; consts; lia. }
  destruct (linux P).
  - destruct (negb hp && negb small); [destruct (mmap _ _)|];
      cbn [buf blank] in H; try destruct (mmap _ _);
      injection H as <- <- <-; unfold consistent; simpl; consts; lia.
  - destruct (malloc _ _); injection H as <- <- <-;
      unfold consistent; simpl; consts; lia.
Qed.

Lemma fbuf_putn_consistent f s len r f' :
  consistent f -> 0 <= len ->
  fbuf_putn P E f s len = Returns (r, f') -> consistent f'.
Proof.
  intros Hc Hlen H. unfold fbuf_putn in H. bind_inv H.
  destruct a as [g f1].
  destruct (fbuf_grow_consistent _ _ _ _ _ _ Hc Hm) as (Hc1 & Hu1 & _ & Hr).
  destruct Hr as [[-> Hroom]|[-> ->]]; cbn [negb Z.eqb] in H;
    [|now injection H as <- <-].
  bind_inv H. bind_inv H. injection H as <- <-.
  apply poke_fields in Hm1 as [Hs Hu]. destruct Hc1 as [Hc1 Hc2].
  unfold consistent, set_used. simpl. rewrite Hs, Hu, wrap64_small; lia.
Qed.

Lemma run_consistent (c : call) (f : fbuf) (r : Z) (f1 : fbuf) :
  well_typed c -> consistent f ->
  run P E c f = Returns (r, f1) -> consistent f1.
Proof.
  intros Hw Hc Hm. destruct c; simpl in Hm, Hw.
  - (* Init *)
    bind_inv Hm. destruct a as [[r' f2] hp']. injection Hm as _ <-.
    destruct small; unfold fbuf_init_small, fbuf_init in Hm0;
      eapply fbuf_initgrow_consistent; exact Hm0.
  - (* Grow *)
    now destruct (fbuf_grow_consistent _ _ _ _ _ _ Hc Hm).
  - (* Putc *)
    unfold fbuf_putc in Hm. bind_inv Hm. destruct a as [g f2].
    destruct (fbuf_grow_consistent _ _ _ _ _ _ Hc Hm0) as (Hc2 & Hu2 & _ & Hr).
    destruct Hr as [[-> Hroom]|[-> ->]]; cbn [negb Z.eqb] in Hm;
      [|now injection Hm as _ <-].
    bind_inv Hm. bind_inv Hm. injection Hm as _ <-.
    apply poke_fields in Hm2 as [Hs Hu]. destruct Hc2 as [Hc2 Hc3].
    unfold consistent. rewrite Hs, Hu. unfold set_used. simpl.
    rewrite wrap64_small; lia.
  - (* Putn *)
    eapply fbuf_putn_consistent; [exact Hc| |exact Hm]. lia.
  - (* Puts *)
    unfold fbuf_puts in Hm. bind_inv Hm.
    destruct (strlen s) as [n|] eqn:Hn; [|discriminate].
    injection Hm0 as <-. apply strlen_range in Hn.
    eapply fbuf_putn_consistent; [exact Hc| |exact Hm]. lia.
  - (* Putint *)
    unfold fbuf_putint in Hm. bind_inv Hm. destruct a as [g f2].
    destruct (fbuf_grow_consistent _ _ _ _ _ _ Hc Hm0) as (Hc2 & Hu2 & _ & Hr).
    destruct Hr as [[-> Hroom]|[-> ->]]; cbn [negb Z.eqb] in Hm;
      [|now injection Hm as _ <-].
    destruct (snprintf _ _) as [v out] eqn:Hsn. bind_inv Hm.
    apply poke_fields in Hm1 as [Hs Hu]. destruct Hc2 as [Hc2 Hc3].
    rewrite (wrap64_small (size f2 - used f2)) in Hm by lia.
    pose proof (wrap64_range v) as Hv.
    destruct (size f2 - used f2 <? wrap64 v) eqn:Hcmp.
    + bind_inv Hm. injection Hm as _ <-. unfold consistent. lia.
    + apply Z.ltb_ge in Hcmp. injection Hm as _ <-.
      unfold consistent, set_used. simpl. rewrite Hs, Hu, wrap64_small; lia.
  - (* Printf *)
    unfold fbuf_printf in Hm. bind_inv Hm. destruct a as [g f2].
    destruct (fbuf_grow_consistent _ _ _ _ _ _ Hc Hm0) as (Hc2 & Hu2 & _ & Hr).
    destruct Hr as [[-> Hroom]|[-> ->]]; cbn [Z.ltb Z.compare] in Hm;
      [|now injection Hm as _ <-].
    destruct (snprintf _ _) as [v out] eqn:Hsn. bind_inv Hm.
    apply poke_fields in Hm1 as [Hs Hu]. destruct Hc2 as [Hc2 Hc3].
    rewrite (wrap64_small (size f2 - used f2)) in Hm by lia.
    destruct (size f2 - used f2 <=? wrap64 v) eqn:Hcmp.
    + injection Hm as _ <-. unfold consistent. lia.
    + apply Z.leb_gt in Hcmp. bind_inv Hm. injection Hm as _ <-.
      destruct (snprintf_value _ _ _ _ Hsn) as [[_ Hv]|(_ & Hr & Hv)];
        rewrite Hv in Hcmp; [consts; lia|].
      unfold consistent, set_used. simpl. rewrite Hs, Hu, wrap64_small; lia.
  - (* Emit *)
    unfold fbuf_emit in Hm. destruct esc as [s|]; [|now injection Hm as _ <-].
    bind_inv Hm. destruct a as [v f2].
    assert (Hc2 : consistent f2).
    { unfold fbuf_puts in Hm0. bind_inv Hm0.
      destruct (strlen s) as [n|] eqn:Hn; [|discriminate].
      injection Hm1 as <-. apply strlen_range in Hn.
      eapply fbuf_putn_consistent; [exact Hc| |exact Hm0]. lia. }
    destruct (v <? 0); now injection Hm as _ <-.
  - (* Reset *)
    injection Hm as _ <-. unfold consistent, fbuf_reset in *. simpl. lia.
  - (* Free *)
    injection Hm as _ <-. unfold consistent. simpl. consts. lia.
  - (* Finalize *)
    bind_inv Hm. destruct a as [[v f2] fp']. injection Hm as _ <-.
    unfold fbuf_finalize in Hm0. bind_inv Hm0. destruct a as [v' fp2].
    destruct (if flushfp && (v' =? 0) then _ else _) as [v3 fp3].
    injection Hm0 as _ <- _. unfold consistent. simpl. consts. lia.
Qed.

Lemma run_all_consistent (cs : list call) : forall f f',
  Forall well_typed cs -> consistent f ->
  run_all P E cs f = Returns f' -> consistent f'.
Proof.
  induction cs as [|c cs IH]; intros f f' Hwt Hc H.
  - now injection H as <-.
  - inversion Hwt as [|? ? Hw Hws]; subst.
    simpl in H. bind_inv H. destruct a as [r f1].
    apply (IH f1); auto. eapply run_consistent; eauto.
Qed.

(** C6. [used <= size] is an invariant of the interface.  It holds after
    an initialization, whatever the buffer was before; whatever call
    returns on a buffer that satisfies it, the buffer that it leaves
    satisfies it too; and so it holds after any sequence of calls that
    starts on such a buffer, or that starts with an initialization.  The
    calls are the initializations, [fbuf_grow], every write, [fbuf_reset],
    [fbuf_free] and [fbuf_finalize]. *)
Theorem used_le_size_preserved (cs : list call) (f f' : fbuf) :
  Forall well_typed cs ->
  consistent f \/ (exists small hp cs', cs = Init small hp :: cs') ->
  run_all P E cs f = Returns f' -> used f' <= size f'.
Proof.
  intros Hwt Hstart H. cut (consistent f'); [unfold consistent; lia|].
  destruct Hstart as [Hc|(small & hp & cs' & ->)].
  - eapply run_all_consistent; eauto.
  - inversion Hwt as [|? ? _ Hws]; subst.
    simpl in H. bind_inv H. destruct a as [r f1].
    bind_inv Hm. destruct a as [[r' f2] hp']. injection Hm as _ <-.
    apply (run_all_consistent cs' f2); auto.
    destruct small; unfold fbuf_init_small, fbuf_init in Hm0;
      eapply fbuf_initgrow_consistent; exact Hm0.
Qed.

End Invariant.

Lemma used_le_size_preserved_witness :
  exists f',
    run_all glibc plenty
      [Init true false; Putn abc 3; Putint 42; Reset;
       Putn (bytes_of x41 9000) 9000; Putc x0a] blank = Returns f' /\
    used f' <= size f'.
Proof.
  assert (Hb : BUFSIZ glibc <= SIZE_MAX) by (vm_compute; discriminate).
  assert (Hw : Forall well_typed
                 [Init true false; Putn abc 3; Putint 42; Reset;
                  Putn (bytes_of x41 9000) 9000; Putc x0a])
    by (repeat constructor; vm_compute; discriminate).
  assert (Hc : consistent blank) by (vm_compute; intuition discriminate).
  eexists. split; [vm_compute; reflexivity|].
  refine (used_le_size_preserved glibc plenty Hb _ blank _ Hw (or_introl Hc) _).
  vm_compute. reflexivity.
Defined.

(** ** The bound on the size *)

(** Every size between a quarter and a half of SIZE_MAX passes the test of
    the loop and is doubled. *)
Lemma fbuf_grow_past_half (P : platform) (E : os) (f : fbuf) (n : Z) :
  generous E -> initialized f ->
  SIZE_MAX / 4 < size f <= SIZE_MAX / 2 ->
  size f - used f < n <= 2 * size f - used f ->
  exists f', fbuf_grow P E f n = Returns (0, f') /\
    size f' = 2 * size f /\ SIZE_MAX / 2 < size f'.
Proof.
  intros Hg Hi Hs Hn. pose proof (initialized_consistent _ Hi) as [Hu Hm].
  change (SIZE_MAX / 4) with 4611686018427387903 in Hs.
  change (SIZE_MAX / 2) with 9223372036854775807 in *.
  destruct (grow_loop_succeeds P E f n 0 grow_fuel (size f)) as [f' Hl];
    unfold grow_fuel; change (SIZE_MAX / 2) with 9223372036854775807 in *;
    try lia.
  - intros m. unfold initialized in Hi. unfold realloc.
    destruct (buf f); [|tauto]. simpl. rewrite !Hg. now destruct (linux P).
  - assert (H : fbuf_grow P E f n = Returns (0, f')).
    { rewrite fbuf_grow_unfold by assumption.
      now replace (n <=? size f - used f) with false
        by (symmetry; apply Z.leb_gt; lia). }
    exists f'. split; [exact H|].
    destruct (fbuf_grow_cases _ _ _ _ _ _ Hi H)
      as [(_ & _ & ?)|[(? & _)|(_ & _ & _ & k & Hk & Hmax & _)]];
      [lia|discriminate|].
    destruct k as [|k].
    + change (2 ^ Z.of_nat 1) with 2 in Hk. consts. lia.
    + exfalso. pose proof (pow2_pos k). rewrite pow2_S in Hmax. consts. nia.
Qed.

(** C3: the code at a failing input.  The comment of [fbuf_grow] says that
    the buffer never grows larger than SIZE_MAX / 2, but the loop tests the
    size before it doubles it.  A buffer just initialized, asked for
    2^62 + 1 bytes, gets a size of 2^63. *)
Theorem size_exceeds_half_of_SIZE_MAX :
  exists f0 f',
    fbuf_init_small other_libc plenty false blank = Returns (0, f0, false) /\
    size f0 = 4096 /\ used f0 = 0 /\
    fbuf_grow other_libc plenty f0 (2 ^ 62 + 1) = Returns (0, f') /\
    size f' = 2 ^ 63 /\ SIZE_MAX / 2 < size f'.
Proof.
  eexists. eexists. split; [vm_compute; reflexivity|].
  split; [reflexivity|]. split; [reflexivity|].
  split; [vm_compute; reflexivity|]. split; reflexivity.
Qed.

(** ** Addresses *)

(** C7 as it was stated fails on a full buffer: the offset [used] is then
    the size of the region, and no byte of the region has it. *)
Lemma fbuf_at_full :
  exists f,
    run_all glibc plenty [Init true false; Putn (bytes_of x41 8192) 8192] blank
    = Returns f /\
    initialized f /\ used f = 8192 /\
    fbuf_at f (used f) = Some 8192 /\ ~ in_region f 8192.
Proof.
  eexists. split; [vm_compute; reflexivity|].
  split; [vm_compute; intuition discriminate|].
  split; [reflexivity|]. split; [reflexivity|].
  vm_compute. intros [_ H]. discriminate H.
Qed.

(** ** Finalization *)

(** C5. [fbuf_finalize] on a buffer that is initialized, or that holds
    nothing: when [used] is not 0 the [used] bytes of the content are
    written, and only they, and the write succeeds when the stream takes
    them all; the stream is flushed exactly when [flushfp] is set and no
    write failed, and is flushed once; the buffer is released whatever
    happened; and 0 is returned when the write, if there was one, and the
    flush, if it was asked for, succeeded, -1 otherwise.  In particular
    with nothing written and [flushfp] set there is no write, the stream is
    flushed, and 0 is returned when the flush succeeds. *)
Theorem fbuf_finalize_spec (f : fbuf) (fp : FILE) (flushfp : bool) :
  used f = 0 \/ initialized f ->
  exists ret fp',
    fbuf_finalize f fp flushfp = Returns (ret, fbuf_free f, fp') /\
    (size (fbuf_free f) = 0 /\ used (fbuf_free f) = 0 /\
     buf (fbuf_free f) = None) /\
    (used f = 0 -> written fp' = written fp) /\
    (used f <> 0 -> takes fp f = true ->
     written fp' = written fp ++ content f) /\
    (used f <> 0 -> takes fp f = false ->
     written fp' = written fp ++ firstn (Z.to_nat (quota fp)) (content f)) /\
    flushes fp' =
      (if flushfp && ((used f =? 0) || takes fp f) && negb (flush_fails fp)
       then S (flushes fp) else flushes fp) /\
    (ret = 0 <->
     (used f = 0 \/ takes fp f = true) /\
     (flushfp = true -> flush_fails fp = false)) /\
    (ret = 0 \/ ret = -1) /\
    (used f = 0 -> flushfp = true -> flush_fails fp = false ->
     ret = 0 /\ written fp' = written fp /\ flushes fp' = S (flushes fp)).
Proof.
  intros Hf. unfold fbuf_finalize, takes.
  destruct (used f =? 0) eqn:Hz; cbn [negb].
  - apply Z.eqb_eq in Hz. cbn [bind Z.eqb].
    rewrite andb_true_r. unfold fflush.
    destruct flushfp, (flush_fails fp); cbn [andb orb negb Z.eqb EOF];
      eexists; eexists; (split; [reflexivity|]); simpl;
      repeat split; auto; try tauto; try discriminate; try congruence;
      intuition congruence.
  - apply Z.eqb_neq in Hz. destruct Hf as [Hf|Hi]; [contradiction|].
    pose proof (content_length _ Hi) as Hlen.
    unfold initialized, content in *. destruct (buf f) as [bs|]; [|tauto].
    cbn [access bind]. rewrite load_prefix by lia. cbn [access bind firstn skipn].
    unfold fwrite. rewrite Hlen.
    destruct (used f <=? quota fp) eqn:Hq; cbn [bind Z.eqb negb orb andb];
      unfold fflush;
      destruct flushfp, (flush_fails fp); cbn [andb orb negb Z.eqb EOF];
      eexists; eexists; (split; [reflexivity|]); simpl;
      repeat split; auto; try tauto; try discriminate; try congruence;
      intuition congruence.
Qed.

Lemma fbuf_finalize_spec_witness :
  exists fp',
    fbuf_finalize (fresh 8192) stream true = Returns (0, blank, fp') /\
    written fp' = [] /\ flushes fp' = 1%nat.
Proof.
  assert (H0 : used (fresh 8192) = 0 \/ initialized (fresh 8192))
    by (left; reflexivity).
  destruct (fbuf_finalize_spec (fresh 8192) stream true H0)
    as (ret & fp' & H & _ & _ & _ & _ & _ & _ & _ & Hs).
  destruct (Hs eq_refl eq_refl eq_refl) as (-> & Hw & Hfl).
  exists fp'. split; [exact H|]. split; assumption.
Defined.

(** ** Failures of the writes *)

Lemma udecimal_length fuel : forall n acc,
  (length acc < length (udecimal fuel n acc) <= S fuel + length acc)%nat.
Proof.
  induction fuel as [|fuel IH]; intros n acc; simpl; [lia|].
  destruct (n / 10 =? 0); simpl; [lia|].
  specialize (IH (n / 10) (digit (n mod 10) :: acc)). simpl in IH. lia.
Qed.

Lemma decimal_length n : (1 <= length (decimal n) <= 11)%nat.
Proof.
  unfold decimal. destruct (n <? 0); simpl length.
  - pose proof (udecimal_length 9 (- n) []). simpl in *. lia.
  - pose proof (udecimal_length 9 n []). simpl in *. lia.
Qed.

Lemma poke_content f1 data f2 :
  initialized f1 -> poke f1 (used f1) data = Returns f2 ->
  content f2 = content f1 /\ used f2 = used f1 /\ size f2 = size f1 /\
  initialized f2.
Proof.
  unfold poke, content, initialized.
  destruct (buf f1) as [bs|]; [|tauto]. intros Hi. cbn [access bind].
  destruct (store bs (used f1) data) as [bs'|] eqn:Hst; [|discriminate].
  cbn [access bind]. intros [= <-]. simpl.
  rewrite (store_length _ _ _ _ Hst).
  rewrite (store_prefix _ _ _ _ (Z.to_nat (used f1)) Hst) by lia.
  repeat split; lia.
Qed.

Section Failures.

Variable P : platform.
Variable E : os.

Lemma fbuf_putn_failure f s len r f' :
  initialized f -> 0 <= len <= INT_MAX ->
  fbuf_putn P E f s len = Returns (r, f') -> r < 0 -> r = -1 /\ f' = f.
Proof.
  intros Hi Hlen H Hr.
  destruct (fbuf_putn_cases P E f s len r f' Hi) as [[-> ->]|[-> _]];
    auto; try lia.
  rewrite to_int_small in Hr; consts; lia.
Qed.

Lemma fbuf_puts_failure f s r f' :
  initialized f -> fits_int (Puts s) ->
  fbuf_puts P E f s = Returns (r, f') -> r < 0 -> r = -1 /\ f' = f.
Proof.
  unfold fbuf_puts, fits_int. intros Hi Hs H Hr.
  destruct (strlen s) as [n|] eqn:Hn; [|discriminate].
  cbn [access bind] in H. apply strlen_range in Hn.
  eapply fbuf_putn_failure; eauto. lia.
Qed.

End Failures.

(** C4 as it was stated fails for [fbuf_printf]: the buffer is enlarged
    before the text is expanded, and the expansion is written, cut, after
    the content; a text that does not fit leaves both changes behind. *)
Lemma fbuf_printf_overflow_changes_buffer :
  exists f f',
    run_all glibc plenty [Init true false; Putn abc 3] blank = Returns f /\
    initialized f /\
    fbuf_printf glibc plenty f (bytes_of x41 20000) = Returns (-1, f') /\
    size f = 8192 /\ size f' = 16384 /\
    load_byte f 3 = Some x00 /\ load_byte f' 3 = Some x41 /\
    f' <> f.
Proof.
  eexists. eexists. split; [vm_compute; reflexivity|].
  split; [vm_compute; intuition discriminate|].
  split; [vm_compute; reflexivity|].
  split; [reflexivity|]. split; [reflexivity|].
  split; [reflexivity|]. split; [reflexivity|].
  intros H. apply (f_equal size) in H. discriminate H.
Qed.

(** ** Integers *)

(** With 12 bytes of room [fbuf_putint] appends the decimal digits of any
    number. *)
Lemma fbuf_putint_roomy (P : platform) (E : os) (f : fbuf) (n : Z) :
  initialized f -> backed f -> 12 <= size f - used f ->
  exists f', fbuf_putint P E f n
             = Returns (Z.of_nat (length (decimal n)), f') /\
    content f' = content f ++ decimal n /\
    used f' = used f + Z.of_nat (length (decimal n)) /\
    size f' = size f.
Proof.
  intros Hi Hb Hroom. unfold fbuf_putint.
  rewrite fbuf_grow_enough by (auto; lia). cbn [bind negb Z.eqb].
  pose proof (initialized_consistent _ Hi) as [Hu Hm].
  pose proof (decimal_length n) as Hd.
  rewrite wrap64_small by lia. unfold snprintf.
  replace (INT_MAX <? Z.of_nat (length (decimal n))) with false
    by (symmetry; apply Z.ltb_ge; consts; lia).
  replace (size f - used f =? 0) with false by (symmetry; apply Z.eqb_neq; lia).
  rewrite firstn_all2 by lia.
  unfold poke, backed, content, initialized in *.
  destruct (buf f) as [bs|]; [|tauto]. cbn [access bind].
  destruct (store_fits bs (used f) (decimal n ++ [x00])) as [bs' Hst].
  { lia. } { rewrite length_app. simpl length. lia. }
  rewrite Hst. cbn [access bind size used buf].
  rewrite wrap64_small by (consts; lia).
  replace (size f - used f <? Z.of_nat (length (decimal n))) with false
    by (symmetry; apply Z.ltb_ge; lia).
  rewrite to_int_small by (consts; lia).
  rewrite wrap64_small by lia.
  eexists. split; [reflexivity|]. simpl. repeat split; auto.
  pose proof (store_here _ _ _ _ Hst) as Hh.
  apply (f_equal (firstn (Z.to_nat (used f) + length (decimal n)))) in Hh.
  rewrite firstn_firstn, length_app in Hh. simpl length in Hh.
  replace (Init.Nat.min (Z.to_nat (used f) + length (decimal n))
             (Z.to_nat (used f) + (length (decimal n) + 1)))
    with (Z.to_nat (used f) + length (decimal n))%nat in Hh by lia.
  replace (Z.to_nat (used f + Z.of_nat (length (decimal n))))
    with (Z.to_nat (used f) + length (decimal n))%nat by lia.
  rewrite Hh, app_assoc, firstn_app, length_app, length_firstn.
  replace (Z.to_nat (used f) + length (decimal n)
           - (Init.Nat.min (Z.to_nat (used f)) (length bs)
              + length (decimal n)))%nat with 0%nat by lia.
  simpl. rewrite app_nil_r. apply firstn_all2.
  rewrite length_app, length_firstn. lia.
Qed.

(** The scenario of the specification: 12345 in a buffer just initialized. *)
Lemma fbuf_putint_12345 :
  exists f f',
    fbuf_init_small glibc plenty false blank = Returns (0, f, false) /\
    fbuf_putint glibc plenty f 12345 = Returns (5, f') /\
    used f' = 5 /\ content f' = [x31; x32; x33; x34; x35].
Proof.
  eexists. eexists. split; [vm_compute; reflexivity|].
  split; [vm_compute; reflexivity|]. split; reflexivity.
Qed.

(** C2: the code at a failing input.  [fbuf_putint] asks for 10 bytes,
    "up to 10 digits", and [snprintf] needs 12 for the sign, ten digits and
    the terminator.  With exactly 10 bytes left, a number of ten digits
    loses its last digit to the terminator and the call still returns 10
    and counts 10 bytes; INT_MIN, of 11 characters, makes the call fail
    (and the assertion fail, where assertions are compiled in). *)
Theorem fbuf_putint_short_of_room :
  exists f f' f'',
    run_all glibc plenty [Init true false; Putn (bytes_of x2e 8182) 8182] blank
    = Returns f /\
    initialized f /\ size f - used f = 10 /\
    fbuf_putint glibc plenty f 1234567890 = Returns (10, f') /\
    used f' = used f + 10 /\
    decimal 1234567890 = [x31; x32; x33; x34; x35; x36; x37; x38; x39; x30] /\
    skipn (Z.to_nat (used f)) (content f')
    = [x31; x32; x33; x34; x35; x36; x37; x38; x39; x00] /\
    content f' <> content f ++ decimal 1234567890 /\
    fbuf_putint glibc plenty f (-2147483648) = Returns (-1, f'') /\
    fbuf_putint glibc_debug plenty f (-2147483648) = Crashes AssertionFailed.
Proof.
  eexists. eexists. eexists. split; [vm_compute; reflexivity|].
  split; [vm_compute; intuition discriminate|].
  split; [reflexivity|]. split; [vm_compute; reflexivity|].
  split; [reflexivity|]. split; [reflexivity|].
  split; [vm_compute; reflexivity|].
  split.
  - intros H. apply (f_equal (skipn (Z.to_nat 8191))) in H. vm_compute in H. discriminate H.
  - split; vm_compute; reflexivity.
Qed.

(** ** The calls return *)

Lemma snprintf_fits room text :
  0 <= room -> Z.of_nat (length (snd (snprintf room text))) <= room.
Proof.
  intros Hr. unfold snprintf. simpl.
  destruct (room =? 0) eqn:H0; [simpl; lia|]. apply Z.eqb_neq in H0.
  rewrite length_app, length_firstn. simpl. lia.
Qed.

Lemma poke_returns f data :
  initialized f -> backed f ->
  Z.of_nat (length data) <= size f - used f ->
  exists f', poke f (used f) data = Returns f'.
Proof.
  unfold initialized, backed, poke. destruct (buf f) as [bs|]; [|tauto].
  intros Hi Hb Hfit. cbn [access bind].
  destruct (store_fits bs (used f) data) as [bs' ->]; try lia.
  cbn [access bind]. eauto.
Qed.

Section Progress.

Variable P : platform.
Variable E : os.
Hypothesis on_linux : linux P = true.

(** On Linux every call on an initialized buffer returns, when the bytes
    to read are there; the one exception is the assertion of
    [fbuf_putint], where assertions are compiled in. *)
Lemma run_returns (c : call) (f : fbuf) :
  initialized f -> backed f -> reads_within c ->
  (exists r f', run P E c f = Returns (r, f')) \/
  (ndebug P = false /\ exists n, c = Putint n /\
   run P E c f = Crashes AssertionFailed).
Proof.
  intros Hi Hb Hc. destruct c; simpl in *.
  - (* Init *)
    left. unfold fbuf_init_small, fbuf_init, fbuf_initgrow, blank.
    rewrite !assert_holds by reflexivity. cbn [bind buf]. rewrite on_linux.
    unfold mmap.
    destruct small, hp; cbn [negb andb];
      repeat match goal with
             | |- context [hugetlb E ?n] => destruct (hugetlb E n)
             | |- context [grants E ?n] => destruct (grants E n)
             end; cbn [bind]; eauto.
  - (* Grow *)
    left. now apply fbuf_grow_returns.
  - (* Putc *)
    left. unfold fbuf_putc.
    destruct (fbuf_grow_returns P E f 1 Hi) as (g & f1 & Hg). rewrite Hg.
    pose proof (fbuf_grow_backed _ _ _ _ _ _ on_linux Hi Hb Hg) as Hb1.
    destruct (fbuf_grow_post _ _ _ _ _ _ Hi Hg) as (Hi1 & _ & _ & _ & Hr).
    destruct Hr as [[-> Hroom]|[-> ->]]; cbn [bind negb Z.eqb]; [|eauto].
    pose proof (initialized_consistent _ Hi1) as [Hu Hm].
    unfold fbuf_at, set_used. cbn [used].
    rewrite wrap64_small by lia.
    replace (used f1 + 1 <? used f1) with false by (symmetry; apply Z.ltb_ge; lia).
    cbn [access bind]. unfold poke. cbn [buf].
    unfold initialized, backed in *. destruct (buf f1) as [bs|]; [|tauto].
    cbn [access bind].
    destruct (store_fits bs (used f1) [c]) as [bs' ->]; simpl length; try lia.
    cbn [access bind]. eauto.
  - (* Putn *)
    left. destruct (fbuf_grow_returns P E f len Hi) as (g & f1 & Hg).
    pose proof (fbuf_grow_backed _ _ _ _ _ _ on_linux Hi Hb Hg) as Hb1.
    destruct (fbuf_grow_post _ _ _ _ _ _ Hi Hg) as (Hi1 & _ & _ & _ & Hr).
    destruct Hr as [[-> Hroom]|[-> ->]].
    + destruct (fbuf_putn_appends P E f s len f1) as (f' & -> & _); eauto.
      unfold backed in Hb1. destruct (buf f1); [lia|tauto].
    + rewrite (fbuf_putn_fails _ _ _ _ _ _ Hg). eauto.
  - (* Puts *)
    left. unfold fbuf_puts. destruct (strlen s) as [n|] eqn:Hn; [|tauto].
    cbn [access bind]. apply strlen_range in Hn.
    destruct (fbuf_grow_returns P E f n Hi) as (g & f1 & Hg).
    pose proof (fbuf_grow_backed _ _ _ _ _ _ on_linux Hi Hb Hg) as Hb1.
    destruct (fbuf_grow_post _ _ _ _ _ _ Hi Hg) as (Hi1 & _ & _ & _ & Hr).
    destruct Hr as [[-> Hroom]|[-> ->]].
    + destruct (fbuf_putn_appends P E f s n f1) as (f' & -> & _); eauto; try lia.
      unfold backed in Hb1. destruct (buf f1); [lia|tauto].
    + rewrite (fbuf_putn_fails _ _ _ _ _ _ Hg). eauto.
  - (* Putint *)
    unfold fbuf_putint.
    destruct (fbuf_grow_returns P E f 10 Hi) as (g & f1 & Hg). rewrite Hg.
    pose proof (fbuf_grow_backed _ _ _ _ _ _ on_linux Hi Hb Hg) as Hb1.
    destruct (fbuf_grow_post _ _ _ _ _ _ Hi Hg) as (Hi1 & _ & _ & _ & Hr).
    destruct Hr as [[-> Hroom]|[-> ->]]; cbn [bind negb Z.eqb]; [|eauto].
    pose proof (initialized_consistent _ Hi1) as [Hu Hm].
    rewrite wrap64_small by lia.
    pose proof (snprintf_fits (size f1 - used f1) (decimal n) ltac:(lia)) as Hfit.
    destruct (snprintf _ _) as [v out]. simpl in Hfit.
    destruct (poke_returns f1 out Hi1 Hb1 Hfit) as [f2 ->]. cbn [bind].
    destruct (_ <? wrap64 v) eqn:Hcmp; [|eauto].
    unfold assert. apply Z.ltb_lt in Hcmp.
    replace (wrap64 v <=? size f1 - used f1) with false
      by (symmetry; apply Z.leb_gt; lia).
    rewrite orb_false_r. destruct (ndebug P); cbn [bind]; eauto.
  - (* Printf *)
    left. unfold fbuf_printf.
    destruct (fbuf_grow_returns P E f (BUFSIZ P) Hi) as (g & f1 & Hg). rewrite Hg.
    pose proof (fbuf_grow_backed _ _ _ _ _ _ on_linux Hi Hb Hg) as Hb1.
    destruct (fbuf_grow_post _ _ _ _ _ _ Hi Hg) as (Hi1 & _ & _ & _ & Hr).
    destruct Hr as [[-> Hroom]|[-> ->]]; cbn [bind Z.ltb Z.compare]; [|eauto].
    pose proof (initialized_consistent _ Hi1) as [Hu Hm].
    rewrite wrap64_small by lia.
    pose proof (snprintf_fits (size f1 - used f1) text ltac:(lia)) as Hfit.
    destruct (snprintf _ _) as [v out] eqn:Hsn. simpl in Hfit.
    destruct (poke_returns f1 out Hi1 Hb1 Hfit) as [f2 ->]. cbn [bind].
    destruct (_ <=? wrap64 v) eqn:Hcmp; [eauto|]. apply Z.leb_gt in Hcmp.
    rewrite assert_holds; [cbn [bind]; eauto|].
    destruct (snprintf_value _ _ _ _ Hsn) as [[-> Hv]|(_ & Hv & _)];
      [rewrite Hv in Hcmp|apply Z.leb_le]; lia.
  - (* Emit *)
    left. unfold fbuf_emit. destruct esc as [s|]; [|eauto].
    unfold fbuf_puts. destruct (strlen s) as [n|] eqn:Hn; [|tauto].
    cbn [access bind]. apply strlen_range in Hn.
    destruct (fbuf_grow_returns P E f n Hi) as (g & f1 & Hg).
    pose proof (fbuf_grow_backed _ _ _ _ _ _ on_linux Hi Hb Hg) as Hb1.
    destruct (fbuf_grow_post _ _ _ _ _ _ Hi Hg) as (Hi1 & _ & _ & _ & Hr).
    destruct Hr as [[-> Hroom]|[-> ->]].
    + destruct (fbuf_putn_appends P E f s n f1) as (f' & -> & _); eauto; try lia.
      { unfold backed in Hb1. destruct (buf f1); [lia|tauto]. }
      cbn [bind]. destruct (_ <? 0); eauto.
    + rewrite (fbuf_putn_fails _ _ _ _ _ _ Hg). cbn [bind Z.ltb Z.compare]. eauto.
  - left. eauto.
  - left. eauto.
  - (* Finalize *)
    left. unfold fbuf_finalize.
    pose proof (content_length _ Hi) as Hlen.
    unfold initialized, content in *. destruct (buf f) as [bs|]; [|tauto].
    destruct (negb (used f =? 0)); cbn [access bind];
      [rewrite load_prefix by lia; cbn [access bind];
       destruct (fwrite _ fp) as [w fp1]|]; cbn [bind];
      destruct (if flushfp && _ then _ else _); cbn [bind]; eauto.
Qed.

End Progress.

(** * Further properties of the code *)

(** ** The shape of a write *)

Lemma store_mid bs off data bs' k :
  store bs off data = Some bs' -> (k <= length data)%nat ->
  firstn (Z.to_nat off + k) bs' = firstn (Z.to_nat off) bs ++ firstn k data.
Proof.
  unfold store. destruct (_ && _) eqn:Hc; [|discriminate].
  intros [= <-] Hk. apply andb_prop in Hc as [H1 H2].
  apply Z.leb_le in H1, H2.
  rewrite firstn_app, length_firstn.
  replace (Init.Nat.min (Z.to_nat off) (length bs)) with (Z.to_nat off) by lia.
  rewrite firstn_firstn.
  replace (Init.Nat.min (Z.to_nat off + k) (Z.to_nat off)) with (Z.to_nat off) by lia.
  replace (Z.to_nat off + k - Z.to_nat off)%nat with k by lia.
  f_equal. rewrite firstn_app.
  replace (k - length data)%nat with 0%nat by lia.
  simpl. apply app_nil_r.
Qed.

Lemma appended_nothing f : initialized f -> appended f [] f.
Proof.
  intros Hi. unfold appended. simpl. rewrite app_nil_r, Z.add_0_r. auto.
Qed.

(** A write at the end of the content, of which [k] bytes are counted. *)
Lemma poke_counted f1 data f2 k :
  initialized f1 -> poke f1 (used f1) data = Returns f2 ->
  (k <= length data)%nat ->
  appended f1 (firstn k data) (set_used f2 (used f1 + Z.of_nat k)).
Proof.
  unfold poke, appended, initialized, backed, content.
  destruct (buf f1) as [bs|] eqn:Hb; [|tauto].
  intros (Hu & Hl & Hs) H Hk. cbn [access bind] in H.
  destruct (store bs (used f1) data) as [bs'|] eqn:Hst; [|discriminate].
  cbn [access bind] in H. injection H as <-.
  pose proof (store_length _ _ _ _ Hst) as Hlen.
  pose proof (store_mid _ _ _ _ k Hst Hk) as Hmid.
  assert (Hfit : used f1 + Z.of_nat (length data) <= Z.of_nat (length bs)).
  { unfold store in Hst. destruct (_ && _) eqn:Hc; [|discriminate].
    apply andb_prop in Hc as [_ H2]. now apply Z.leb_le in H2. }
  unfold set_used. simpl. rewrite Hlen, length_firstn.
  replace (Z.to_nat (used f1 + Z.of_nat k)) with (Z.to_nat (used f1) + k)%nat by lia.
  repeat split; auto; lia.
Qed.

Section Shape.

Variable P : platform.
Variable E : os.

Lemma fbuf_putc_cases f c r f' :
  initialized f -> fbuf_putc P E f c = Returns (r, f') ->
  (r = -1 /\ f' = f) \/
  (r = 1 /\ exists f1, fbuf_grow P E f 1 = Returns (0, f1) /\
     appended f1 [c] f').
Proof.
  intros Hi H. unfold fbuf_putc in H. bind_inv H. destruct a as [g f1].
  destruct (fbuf_grow_post _ _ _ _ _ _ Hi Hm) as (Hi1 & _ & _ & _ & Hg).
  destruct Hg as [[-> Hroom]|[-> ->]]; cbn [negb Z.eqb] in H;
    [|injection H as <- <-; now left].
  right. pose proof (initialized_consistent _ Hi1) as [Hu Hmax].
  unfold fbuf_at, set_used in H. cbn [used] in H.
  rewrite wrap64_small in H by lia.
  replace (used f1 + 1 <? used f1) with false in H
    by (symmetry; apply Z.ltb_ge; lia).
  cbn [access bind] in H. bind_inv H. injection H as <- <-.
  split; [reflexivity|]. exists f1. split; [reflexivity|].
  assert (Hp : poke f1 (used f1) [c] = Returns
                 {| size := size a; used := used f1; buf := buf a |}).
  { unfold poke in *. cbn [buf size used] in Hm0.
    destruct (buf f1); [|discriminate]. cbn [access bind] in *.
    destruct (store _ _ _); [|discriminate]. cbn [access bind] in *.
    injection Hm0 as <-. reflexivity. }
  pose proof (poke_counted f1 [c] _ 1%nat Hi1 Hp (le_n 1)) as Ha.
  unfold set_used in Ha. cbn [size used buf firstn] in Ha.
  assert (Ha' : {| size := size a; used := used f1 + Z.of_nat 1; buf := buf a |} = a).
  { unfold poke in Hm0. cbn [buf size used] in Hm0.
    destruct (buf f1); [|discriminate]. cbn [access bind] in Hm0.
    destruct (store _ _ _); [|discriminate]. cbn [access bind] in Hm0.
    injection Hm0 as <-. reflexivity. }
  now rewrite Ha' in Ha.
Qed.

Lemma fbuf_putint_cases f n r f' :
  initialized f -> fbuf_putint P E f n = Returns (r, f') ->
  (r = -1 /\ f' = f) \/
  exists f1 d, fbuf_grow P E f 10 = Returns (0, f1) /\ appended f1 d f' /\
    (r = -1 /\ d = [] \/ r = Z.of_nat (length d)).
Proof.
  intros Hi H. unfold fbuf_putint in H. bind_inv H. destruct a as [g f1].
  destruct (fbuf_grow_post _ _ _ _ _ _ Hi Hm) as (Hi1 & _ & _ & _ & Hg).
  destruct Hg as [[-> Hroom]|[-> ->]]; cbn [negb Z.eqb] in H;
    [|injection H as <- <-; now left].
  right. exists f1. pose proof (initialized_consistent _ Hi1) as [Hu Hmax].
  rewrite wrap64_small in H by lia.
  pose proof (decimal_length n) as Hd.
  unfold snprintf in H.
  replace (INT_MAX <? Z.of_nat (length (decimal n))) with false in H
    by (symmetry; apply Z.ltb_ge; consts; lia).
  replace (size f1 - used f1 =? 0) with false in H
    by (symmetry; apply Z.eqb_neq; lia).
  bind_inv H.
  destruct (poke_content _ _ _ Hi1 Hm0) as (Hc2 & Hu2 & Hs2 & Hi2).
  rewrite wrap64_small in H by (consts; lia).
  destruct (_ <? Z.of_nat (length (decimal n))) eqn:Hcmp.
  - bind_inv H. injection H as <- <-. exists [].
    split; [reflexivity|]. split; [|now left].
    unfold appended. simpl. rewrite app_nil_r, Z.add_0_r.
    repeat split; auto.
    unfold backed. unfold poke in Hm0. destruct (buf f1) as [bs|]; [|discriminate].
    cbn [access bind] in Hm0. destruct (store _ _ _) eqn:Hst; [|discriminate].
    cbn [access bind] in Hm0. injection Hm0 as <-. simpl.
    now rewrite (store_length _ _ _ _ Hst).
  - apply Z.ltb_ge in Hcmp. injection H as <- <-.
    set (out := firstn (Z.to_nat (size f1 - used f1 - 1)) (decimal n) ++ [x00]) in *.
    assert (Hk : (length (decimal n) <= length out)%nat).
    { unfold out. rewrite length_app, length_firstn. simpl. lia. }
    exists (firstn (length (decimal n)) out).
    split; [reflexivity|].
    pose proof (poke_counted f1 out a _ Hi1 Hm0 Hk) as Ha.
    rewrite Hu2, wrap64_small by lia.
    split; [exact Ha|]. right.
    rewrite length_firstn, to_int_small by (consts; lia). lia.
Qed.

Lemma fbuf_printf_cases f text r f' :
  initialized f -> fbuf_printf P E f text = Returns (r, f') ->
  (r = -1 /\ f' = f) \/
  exists f1, fbuf_grow P E f (BUFSIZ P) = Returns (0, f1) /\
    (r = -1 /\ appended f1 [] f' \/
     r = Z.of_nat (length text) /\ appended f1 text f').
Proof.
  intros Hi H. unfold fbuf_printf in H. bind_inv H. destruct a as [g f1].
  destruct (fbuf_grow_post _ _ _ _ _ _ Hi Hm) as (Hi1 & _ & _ & _ & Hg).
  destruct Hg as [[-> Hroom]|[-> ->]]; cbn [Z.ltb Z.compare] in H;
    [|injection H as <- <-; now left].
  right. exists f1. split; [reflexivity|].
  pose proof (initialized_consistent _ Hi1) as [Hu Hmax].
  rewrite wrap64_small in H by lia.
  destruct (snprintf _ _) as [v out] eqn:Hsn. bind_inv H.
  destruct (poke_content _ _ _ Hi1 Hm0) as (Hc2 & Hu2 & Hs2 & Hi2).
  destruct (_ <=? wrap64 v) eqn:Hcmp.
  - injection H as <- <-. left. split; [reflexivity|].
    unfold appended. simpl. rewrite app_nil_r, Z.add_0_r.
    repeat split; auto.
    unfold backed. unfold poke in Hm0. destruct (buf f1) as [bs|]; [|discriminate].
    cbn [access bind] in Hm0. destruct (store _ _ _) eqn:Hst; [|discriminate].
    cbn [access bind] in Hm0. injection Hm0 as <-. simpl.
    now rewrite (store_length _ _ _ _ Hst).
  - apply Z.leb_gt in Hcmp. bind_inv H. injection H as <- <-. right.
    destruct (snprintf_value _ _ _ _ Hsn) as [[-> Hv]|(Hv & Hr & Hw)];
      [rewrite Hv in Hcmp; lia|].
    rewrite Hw in Hcmp. split; [exact Hv|].
    unfold snprintf in Hsn. injection Hsn as _ Hout.
    replace (size f1 - used f1 =? 0) with false in Hout
      by (symmetry; apply Z.eqb_neq; lia).
    rewrite firstn_all2 in Hout by lia.
    assert (Hk : (length text <= length out)%nat)
      by (rewrite <- Hout, length_app; simpl; lia).
    pose proof (poke_counted f1 out a _ Hi1 Hm0 Hk) as Ha.
    rewrite <- Hout in Ha at 1. rewrite firstn_app, firstn_all, Nat.sub_diag in Ha.
    simpl in Ha. rewrite app_nil_r in Ha.
    rewrite Hu2, wrap64_small by lia. now rewrite Hv.
Qed.

End Shape.

(** ** What every adding call keeps *)

Section Steps.

Variable P : platform.
Variable E : os.

Lemma fbuf_puts_cases f s r f' :
  initialized f -> fbuf_puts P E f s = Returns (r, f') ->
  exists n, strlen s = Some n /\
    ((r = -1 /\ f' = f) \/
     (r = to_int n /\ exists f1, fbuf_grow P E f n = Returns (0, f1) /\
        appended f1 (firstn (Z.to_nat n) s) f')).
Proof.
  intros Hi H. unfold fbuf_puts in H.
  destruct (strlen s) as [n|] eqn:Hn; [|discriminate].
  cbn [access bind] in H. exists n. split; [reflexivity|].
  apply strlen_range in Hn.
  apply (fbuf_putn_cases P E f s n r f' Hi); [lia|exact H].
Qed.

(** Every adding call is a call of [fbuf_grow] followed by a write at the
    end of the content. *)
Lemma run_shape c f r f' :
  adds c = true -> well_typed c -> initialized f ->
  run P E c f = Returns (r, f') ->
  exists n g f1 d, fbuf_grow P E f n = Returns (g, f1) /\ appended f1 d f'.
Proof.
  intros Hadd Hw Hi H.
  assert (Hfail : f' = f ->
            exists n g f1 d, fbuf_grow P E f n = Returns (g, f1) /\ appended f1 d f').
  { intros ->. exists 0, 0, f, []. split; [|now apply appended_nothing].
    apply fbuf_grow_enough; auto.
    pose proof (initialized_consistent _ Hi) as [? ?]. lia. }
  destruct c; try discriminate Hadd; simpl in H, Hw.
  - (* Grow *)
    destruct (fbuf_grow_post _ _ _ _ _ _ Hi H) as (Hi1 & _).
    exists n, r, f', []. split; [exact H|now apply appended_nothing].
  - (* Putc *)
    destruct (fbuf_putc_cases P E f c r f' Hi H) as [[_ ->]|(_ & f1 & Hg & Ha)];
      [now apply Hfail|eauto 6].
  - (* Putn *)
    destruct (fbuf_putn_cases P E f s len r f' Hi (proj1 Hw) H)
      as [[_ ->]|(_ & f1 & Hg & Ha)]; [now apply Hfail|eauto 6].
  - (* Puts *)
    destruct (fbuf_puts_cases f s r f' Hi H)
      as (n & _ & [[_ ->]|(_ & f1 & Hg & Ha)]);
      [now apply Hfail|eauto 6].
  - (* Putint *)
    destruct (fbuf_putint_cases P E f n r f' Hi H)
      as [[_ ->]|(f1 & d & Hg & Ha & _)]; [now apply Hfail|eauto 6].
  - (* Printf *)
    destruct (fbuf_printf_cases P E f text r f' Hi H)
      as [[_ ->]|(f1 & Hg & [[_ Ha]|[_ Ha]])];
      [now apply Hfail|eauto 6|eauto 6].
  - (* Emit *)
    unfold fbuf_emit in H. destruct esc as [s|];
      [|injection H as _ <-; now apply Hfail].
    bind_inv H. destruct a as [v f2].
    assert (f2 = f') by (destruct (v <? 0); now injection H as _ <-). subst f2.
    destruct (fbuf_puts_cases f s v f' Hi Hm)
      as (n & _ & [[_ ->]|(_ & f1 & Hg & Ha)]);
      [now apply Hfail|eauto 6].
Qed.

(** What a step of an adding call keeps. *)
Lemma run_step c f r f' :
  adds c = true -> well_typed c -> initialized f ->
  run P E c f = Returns (r, f') ->
  initialized f' /\
  (exists d, content f' = content f ++ d /\
             used f' = used f + Z.of_nat (length d)) /\
  (exists k : nat, size f' = size f * 2 ^ Z.of_nat k) /\
  (linux P = true -> backed f -> backed f').
Proof.
  intros Hadd Hw Hi H.
  destruct (run_shape c f r f' Hadd Hw Hi H) as (n & g & f1 & d & Hg & Ha).
  destruct Ha as (Hs & Hu & Hc & Hi' & Hb').
  destruct (fbuf_grow_post _ _ _ _ _ _ Hi Hg) as (Hi1 & Hu1 & Hc1 & Hs1 & Hr).
  split; [exact Hi'|]. split; [|split].
  - exists d. rewrite Hc, Hc1, Hu, Hu1. auto.
  - rewrite Hs.
    destruct (fbuf_grow_cases _ _ _ _ _ _ Hi Hg)
      as [(_ & -> & _)|[(_ & -> & _)|(_ & _ & _ & k & Hk & _)]].
    + exists 0%nat. change (2 ^ Z.of_nat 0) with 1. lia.
    + exists 0%nat. change (2 ^ Z.of_nat 0) with 1. lia.
    + exists (S k). exact Hk.
  - intros Hl Hb. apply Hb'.
    now apply (fbuf_grow_backed P E f n g f1).
Qed.

End Steps.

(** ** Sequences of calls *)

(** X1. Writes only append, on every platform: after any sequence of
    writes and of [fbuf_grow] on an initialized buffer that returns, the
    buffer is initialized, its content is the former content followed by
    some bytes, [used] has grown by their number, and [size] is the former
    size times a power of two: no call shrinks the buffer or changes a
    byte that was in use. *)
Theorem writes_only_append (P : platform) (E : os) (cs : list call)
    (f f' : fbuf) :
  Forall (fun c => adds c = true /\ well_typed c) cs ->
  initialized f -> run_all P E cs f = Returns f' ->
  initialized f' /\
  (exists d, content f' = content f ++ d /\
             used f' = used f + Z.of_nat (length d)) /\
  (exists k : nat, size f' = size f * 2 ^ Z.of_nat k).
Proof.
  intros Hcs. revert f. induction Hcs as [|c cs [Hadd Hw] _ IH]; intros f Hi H.
  - injection H as <-. split; [exact Hi|]. split.
    + exists []. simpl. now rewrite app_nil_r, Z.add_0_r.
    + exists 0%nat. change (2 ^ Z.of_nat 0) with 1. lia.
  - simpl in H. bind_inv H. destruct a as [r f1].
    destruct (run_step P E c f r f1 Hadd Hw Hi Hm)
      as (Hi1 & (d1 & Hc1 & Hu1) & (k1 & Hk1) & _).
    destruct (IH f1 Hi1 H) as (Hi' & (d & Hc & Hu) & (k & Hk)).
    split; [exact Hi'|]. split.
    + exists (d1 ++ d). rewrite Hc, Hc1, Hu, Hu1, length_app, app_assoc.
      split; [reflexivity|lia].
    + exists (k1 + k)%nat. rewrite Hk, Hk1, Nat2Z.inj_add, Z.pow_add_r by lia. lia.
Qed.

Lemma writes_only_append_witness :
  exists f', run_all other_libc plenty
               [Putn abc 3; Putint (-7); Grow 5000; Printf abc; Putc x0a]
               (fresh 4096) = Returns f' /\
    (exists d, content f' = content (fresh 4096) ++ d /\
               used f' = used (fresh 4096) + Z.of_nat (length d)) /\
    (exists k : nat, size f' = size (fresh 4096) * 2 ^ Z.of_nat k).
Proof.
  assert (Hcs : Forall (fun c => adds c = true /\ well_typed c)
                  [Putn abc 3; Putint (-7); Grow 5000; Printf abc; Putc x0a])
    by (repeat constructor; vm_compute; discriminate).
  assert (Hi : initialized (fresh 4096)) by (vm_compute; intuition discriminate).
  eexists. split; [vm_compute; reflexivity|].
  refine (proj2 (writes_only_append other_libc plenty _ (fresh 4096) _ Hcs Hi _)).
  vm_compute. reflexivity.
Defined.

Lemma live_adds_or_resets c : is_live c = true -> adds c = true \/ c = Reset.
Proof. destruct c; simpl; auto; discriminate. Qed.

(** X2. On Linux the calls stay within the region: any sequence of writes,
    of [fbuf_grow] and of [fbuf_reset], whose pointers refer to the bytes
    that they read, on an initialized buffer whose region has [size]
    bytes, returns and leaves such a buffer.  No call reads or writes
    outside of the region and no call loops for ever.  The one crash
    that is left is the assertion of [fbuf_putint], where assertions are
    compiled in. *)
Theorem linux_calls_stay_in_region (P : platform) (E : os) (cs : list call)
    (f : fbuf) :
  linux P = true ->
  Forall (fun c => is_live c = true /\ well_typed c /\ reads_within c) cs ->
  initialized f -> backed f ->
  (exists f', run_all P E cs f = Returns f' /\ initialized f' /\ backed f') \/
  (ndebug P = false /\ run_all P E cs f = Crashes AssertionFailed).
Proof.
  intros Hl Hcs. revert f.
  induction Hcs as [|c cs (Hlive & Hw & Hr) _ IH]; intros f Hi Hb.
  - left. exists f. auto.
  - simpl. destruct (live_adds_or_resets c Hlive) as [Hadd| ->].
    + destruct (run_returns P E Hl c f Hi Hb Hr)
        as [(r & f1 & H1)|(Hn & n & _ & H1)]; rewrite H1; cbn [bind].
      * destruct (run_step P E c f r f1 Hadd Hw Hi H1) as (Hi1 & _ & _ & Hb1).
        apply IH; auto.
      * right. auto.
    + cbn [run bind]. apply IH; [now apply initialized_reset|exact Hb].
Qed.

Lemma linux_calls_stay_in_region_witness :
  exists f', run_all glibc plenty
               [Putn (bytes_of x41 9000) 9000; Reset; Putint 2147483647;
                Puts [x68; x69; x00]; Emit None; Printf abc; Putc x0a]
               (fresh 4096) = Returns f' /\
    initialized f' /\ backed f'.
Proof.
  assert (Hcs : Forall (fun c => is_live c = true /\ well_typed c /\ reads_within c)
                  [Putn (bytes_of x41 9000) 9000; Reset; Putint 2147483647;
                   Puts [x68; x69; x00]; Emit None; Printf abc; Putc x0a])
    by (repeat constructor; vm_compute; discriminate).
  assert (Hi : initialized (fresh 4096)) by (vm_compute; intuition discriminate).
  assert (Hb : backed (fresh 4096)) by reflexivity.
  destruct (linux_calls_stay_in_region glibc plenty _ (fresh 4096) eq_refl Hcs Hi Hb)
    as [H|[Hn _]]; [exact H|discriminate Hn].
Defined.

(** ** Initialization *)

Lemma zeros_backed sz : 0 <= sz -> Z.of_nat (length (zeros sz)) = sz.
Proof. intros. unfold zeros. rewrite repeat_length. lia. Qed.

Lemma fresh_initialized sz :
  0 < sz <= SIZE_MAX -> initialized (fresh sz) /\ backed (fresh sz).
Proof.
  intros. unfold initialized, backed, fresh. simpl.
  rewrite zeros_backed by lia. repeat split; lia.
Qed.

Lemma small_size P :
  (if BUFSIZ P <? 4096 then 4096 else BUFSIZ P) = Z.max 4096 (BUFSIZ P).
Proof. destruct (BUFSIZ P <? 4096) eqn:Hlt; lia. Qed.

Lemma fbuf_initgrow_unfold P E hp small :
  fbuf_initgrow P E hp {| size := 0; used := 0; buf := None |} small =
  if linux P then
    if negb hp && negb small then
      if hugetlb E (initial_size P small)
      then Returns (0, fresh (initial_size P small), hp)
      else if grants E (initial_size P small)
           then Returns (0, fresh (initial_size P small), true)
           else Returns (-1, blank, true)
    else if grants E (initial_size P small)
         then Returns (0, fresh (initial_size P small), hp)
         else Returns (-1, blank, hp)
  else if grants E (initial_size P small)
       then Returns (0, fresh (initial_size P small), hp)
       else Returns (-1, blank, hp).
Proof.
  unfold fbuf_initgrow. rewrite !assert_holds by reflexivity.
  cbn [bind buf used size]. unfold mmap, malloc, initial_size.
  rewrite small_size.
  destruct (linux P), hp, small; cbn [negb andb];
    repeat match goal with
           | |- context [hugetlb E ?n] => destruct (hugetlb E n)
           | |- context [grants E ?n] => destruct (grants E n)
           end; reflexivity.
Qed.

(** X3. An initialization does not look at the buffer that it is given.
    It returns 0 or -1.  With 0 the buffer is initialized, empty, and has
    a region of the size asked for: 2 MiB, or the larger of 4096 and
    BUFSIZ for a small one.  With -1 the buffer has no region and its
    counters are 0.  It returns 0 exactly when the operating system
    grants the region, to the plain request or, on Linux for a large buffer
    while no huge page was refused before, to the request of huge pages. *)
Theorem fbuf_init_spec (P : platform) (E : os) (hp small : bool) (f : fbuf) :
  BUFSIZ P <= SIZE_MAX ->
  exists r f' hp',
    (if small then fbuf_init_small P E hp f else fbuf_init P E hp f)
    = Returns (r, f', hp') /\
    (r = 0 /\ initialized f' /\ backed f' /\ used f' = 0 /\
     content f' = [] /\ size f' = initial_size P small
     \/ r = -1 /\ f' = blank) /\
    (r = 0 <->
     grants E (initial_size P small) = true \/
     linux P = true /\ hp = false /\ small = false /\
     hugetlb E (initial_size P small) = true).
Proof.
  intros HB.
  assert (Hpos : 0 < initial_size P small <= SIZE_MAX)
    by (unfold initial_size; destruct small; consts; lia).
  destruct (fresh_initialized _ Hpos) as [Hi Hb].
  assert (Hgood : initialized (fresh (initial_size P small)) /\
                  backed (fresh (initial_size P small)) /\
                  used (fresh (initial_size P small)) = 0 /\
                  content (fresh (initial_size P small)) = [] /\
                  size (fresh (initial_size P small)) = initial_size P small)
    by (split; [exact Hi|split; [exact Hb|repeat split]]).
  replace (if small then fbuf_init_small P E hp f else fbuf_init P E hp f)
    with (fbuf_initgrow P E hp {| size := 0; used := 0; buf := None |} small)
    by (destruct small; reflexivity).
  rewrite fbuf_initgrow_unfold.
  destruct (linux P), hp, small; cbn [negb andb];
    try destruct (hugetlb E _) eqn:Hh; destruct (grants E _) eqn:Hg;
    eexists; eexists; eexists; (split; [reflexivity|]);
    (split; [first [left; split; [reflexivity|exact Hgood]
                   |right; split; reflexivity]|]);
    clear Hi Hb Hgood Hpos HB;
    split; intros; try tauto; try discriminate; intuition discriminate.
Qed.

Lemma fbuf_init_spec_witness :
  exists f' hp',
    fbuf_init glibc {| grants := fun _ => true; hugetlb := fun _ => false |}
      false (fresh 4096) = Returns (0, f', hp') /\
    initialized f' /\ backed f' /\ used f' = 0 /\ size f' = 2097152.
Proof.
  assert (HB : BUFSIZ glibc <= SIZE_MAX) by (vm_compute; discriminate).
  destruct (fbuf_init_spec glibc
              {| grants := fun _ => true; hugetlb := fun _ => false |}
              false false (fresh 4096) HB)
    as (r & f' & hp' & H & Hres & Hiff).
  assert (Hr : r = 0) by (apply Hiff; left; reflexivity). subst r.
  destruct Hres as [(_ & Hi & Hb & Hu & _ & Hs)|[Hr _]]; [|discriminate Hr].
  exists f', hp'. simpl in H. repeat split; assumption.
Defined.

(** X4. The flag [hugepages_failed] is only ever set: an initialization
    leaves it set when it was, a small initialization leaves it as it is,
    and it becomes set exactly on Linux, for a large buffer, when the
    request of huge pages is refused.  Once it is set huge pages are not
    asked for again: the initialization does not depend on what that
    request would answer. *)
Theorem hugepages_failed_is_sticky (P : platform) (E : os) (hp small : bool)
    (f : fbuf) :
  exists r f' hp',
    (if small then fbuf_init_small P E hp f else fbuf_init P E hp f)
    = Returns (r, f', hp') /\
    (hp = true -> hp' = true) /\
    (small = true -> hp' = hp) /\
    (hp' = true <->
     hp = true \/
     linux P = true /\ small = false /\
     hugetlb E (initial_size P small) = false) /\
    forall h, fbuf_init P {| grants := grants E; hugetlb := h |} true f
              = fbuf_init P E true f.
Proof.
  assert (Hflag : forall h,
            fbuf_init P {| grants := grants E; hugetlb := h |} true f
            = fbuf_init P E true f).
  { intros h. unfold fbuf_init. now rewrite !fbuf_initgrow_unfold. }
  replace (if small then fbuf_init_small P E hp f else fbuf_init P E hp f)
    with (fbuf_initgrow P E hp {| size := 0; used := 0; buf := None |} small)
    by (destruct small; reflexivity).
  rewrite fbuf_initgrow_unfold.
  destruct (linux P), hp, small; cbn [negb andb];
    try destruct (hugetlb E _) eqn:Hh; try destruct (grants E _) eqn:Hg;
    eexists; eexists; eexists; (split; [reflexivity|]);
    (split; [tauto|]); (split; [try tauto; try discriminate; auto|]);
    (split; [|exact Hflag]); split; intros; try tauto; try discriminate;
    intuition discriminate.
Qed.

(** ** What [fbuf_grow] ensures *)

(** X5. On an initialized buffer [fbuf_grow] always returns, 0 or -1,
    on every platform and however the operating system answers.  It never
    changes [used] or the content and leaves the buffer initialized.
    With 0 there is room for [n] more bytes.  With -1 the buffer is
    exactly as it was, and there was no room.  The size is the former
    size times a power of two, computed without wrap-around: it never
    decreases and, when it changes, it is at most SIZE_MAX - 1. *)
Theorem fbuf_grow_ensures (P : platform) (E : os) (f : fbuf) (n : Z) :
  initialized f ->
  exists g f',
    fbuf_grow P E f n = Returns (g, f') /\
    initialized f' /\ used f' = used f /\ content f' = content f /\
    (g = 0 /\ n <= size f' - used f' \/
     g = -1 /\ f' = f /\ size f - used f < n) /\
    (exists k : nat, size f' = size f * 2 ^ Z.of_nat k) /\
    size f <= size f' /\ (size f' = size f \/ size f' <= SIZE_MAX - 1).
Proof.
  intros Hi.
  destruct (fbuf_grow_returns P E f n Hi) as (g & f' & H).
  exists g, f'. split; [exact H|].
  destruct (fbuf_grow_post _ _ _ _ _ _ Hi H) as (Hi' & Hu & Hc & Hs & _).
  split; [exact Hi'|]. split; [exact Hu|]. split; [exact Hc|].
  destruct (fbuf_grow_cases _ _ _ _ _ _ Hi H)
    as [(-> & -> & Hn)|[(-> & -> & Hn)|(-> & Hn & Hused & k & Hk & Hmax & Hroom & _)]].
  - split; [left; split; [reflexivity|lia]|].
    split; [exists 0%nat; change (2 ^ Z.of_nat 0) with 1; lia|]. split; [lia|now left].
  - split; [right; auto|].
    split; [exists 0%nat; change (2 ^ Z.of_nat 0) with 1; lia|]. split; [lia|now left].
  - split; [left; split; [reflexivity|lia]|].
    split; [exists (S k); exact Hk|]. split; [exact Hs|right].
    rewrite pow2_S in Hk. consts. lia.
Qed.

Lemma fbuf_grow_ensures_witness :
  exists f', fbuf_grow other_libc plenty (fresh 4096) 70000 = Returns (0, f') /\
    used f' = 0 /\ 70000 <= size f' - used f' /\
    exists k : nat, size f' = 4096 * 2 ^ Z.of_nat k.
Proof.
  assert (Hi : initialized (fresh 4096)) by (vm_compute; intuition discriminate).
  destruct (fbuf_grow_ensures other_libc plenty (fresh 4096) 70000 Hi)
    as (g & f' & H & _ & Hu & _ & Hg & Hk & _).
  assert (Hv : fbuf_grow other_libc plenty (fresh 4096) 70000
               = Returns (0, {| size := 131072; used := 0;
                                buf := Some (zeros 4096) |}))
    by (vm_compute; reflexivity).
  rewrite Hv in H. injection H as <- <-.
  eexists. split; [reflexivity|]. split; [reflexivity|].
  split; [vm_compute; discriminate|exact Hk].
Defined.

(** X6. "n (or our current buffer) is too large": when there is no room
    for [n] bytes and either the size is already above SIZE_MAX / 2, or
    [n] bytes after the content would end beyond SIZE_MAX - 1, [fbuf_grow]
    returns -1 and leaves the buffer as it is, whatever the operating
    system would answer. *)
Theorem fbuf_grow_too_large (P : platform) (E : os) (f : fbuf) (n : Z) :
  initialized f -> size f - used f < n ->
  SIZE_MAX / 2 < size f \/ SIZE_MAX - 1 < used f + n ->
  fbuf_grow P E f n = Returns (-1, f).
Proof.
  intros Hi Hn Hbig.
  destruct (fbuf_grow_returns P E f n Hi) as (g & f' & H). rewrite H.
  destruct (fbuf_grow_cases _ _ _ _ _ _ Hi H)
    as [(_ & _ & ?)|[(-> & -> & _)|(_ & _ & _ & k & Hk & Hmax & Hroom & _)]];
    [lia|reflexivity|exfalso].
  pose proof (pow2_pos k) as Hp. rewrite pow2_S in Hk.
  pose proof (initialized_consistent _ Hi) as [Hu Hm].
  destruct Hbig as [Hbig|Hbig]; consts; nia.
Qed.

Lemma fbuf_grow_too_large_witness :
  fbuf_grow glibc plenty (fresh 4096) SIZE_MAX = Returns (-1, fresh 4096).
Proof.
  assert (Hi : initialized (fresh 4096)) by (vm_compute; intuition discriminate).
  assert (Hn : size (fresh 4096) - used (fresh 4096) < SIZE_MAX) by reflexivity.
  assert (Hbig : SIZE_MAX / 2 < size (fresh 4096) \/
                 SIZE_MAX - 1 < used (fresh 4096) + SIZE_MAX)
    by (right; reflexivity).
  exact (fbuf_grow_too_large glibc plenty (fresh 4096) SIZE_MAX Hi Hn Hbig).
Defined.

(** ** A buffer that was released *)

Lemma grow_loop_zero (P : platform) (E : os) (f : fbuf) (n : Z) fuel :
  size f = 0 -> used f = 0 -> 0 < n ->
  grow_loop P E fuel f n (size f) = Crashes Hang.
Proof.
  intros Hs Hu Hn. rewrite Hs. now apply grow_loop_hangs.
Qed.

(** X7. The preconditions of [fbuf_grow] matter: on a buffer whose size
    is 0, as [fbuf_free] and a failed initialization leave it, a request
    for one byte or more never returns.  Where assertions are compiled in
    the assertion fails; where they are not, the loop doubles 0 for ever,
    however many iterations it is given.  So does every [fbuf_putc] after
    a release. *)
Theorem fbuf_grow_after_free (P : platform) (E : os) (f : fbuf) (n : Z)
    (c : byte) :
  0 < n ->
  (forall fuel, grow_loop P E fuel (fbuf_free f) n (size (fbuf_free f))
                = Crashes Hang) /\
  fbuf_grow P E (fbuf_free f) n
  = Crashes (if ndebug P then Hang else AssertionFailed) /\
  fbuf_putc P E (fbuf_free f) c
  = Crashes (if ndebug P then Hang else AssertionFailed).
Proof.
  intros Hn.
  assert (Hloop : forall m fuel, 0 < m ->
            grow_loop P E fuel (fbuf_free f) m (size (fbuf_free f)) = Crashes Hang)
    by (intros; now apply grow_loop_zero).
  assert (Hgrow : forall m, 0 < m ->
            fbuf_grow P E (fbuf_free f) m
            = Crashes (if ndebug P then Hang else AssertionFailed)).
  { intros m Hm. unfold fbuf_grow, assert. cbn [fbuf_free buf size used].
    destruct (ndebug P); cbn [orb bind]; [|reflexivity].
    change (wrap64 (0 - 0)) with 0.
    replace (m <=? 0) with false by (symmetry; apply Z.leb_gt; lia).
    apply (Hloop m grow_fuel Hm). }
  split; [intros; now apply Hloop|]. split; [now apply Hgrow|].
  unfold fbuf_putc. now rewrite Hgrow.
Qed.

Lemma fbuf_grow_after_free_witness :
  fbuf_grow glibc plenty (fbuf_free (fresh 4096)) 1 = Crashes Hang /\
  fbuf_putc glibc_debug plenty (fbuf_free (fresh 4096)) x41
  = Crashes AssertionFailed.
Proof.
  assert (Hn : 0 < 1) by reflexivity.
  split.
  - exact (proj1 (proj2 (fbuf_grow_after_free glibc plenty (fresh 4096) 1 x41 Hn))).
  - exact (proj2 (proj2 (fbuf_grow_after_free glibc_debug plenty (fresh 4096) 1 x41 Hn))).
Defined.

(** ** Reading back what was written *)

Lemma load_byte_content f i :
  initialized f -> 0 <= i < used f ->
  load_byte f i = nth_error (content f) (Z.to_nat i).
Proof.
  unfold initialized, load_byte, content. destruct (buf f) as [bs|]; [|tauto].
  intros Hi Hr. replace (0 <=? i) with true by (symmetry; apply Z.leb_le; lia).
  rewrite nth_error_firstn.
  now replace (Z.to_nat i <? Z.to_nat (used f))%nat with true
    by (symmetry; apply Nat.ltb_lt; lia).
Qed.

Lemma appended_reads f1 d f' :
  initialized f1 -> appended f1 d f' ->
  (forall j, 0 <= j < Z.of_nat (length d) ->
     load_byte f' (used f1 + j) = nth_error d (Z.to_nat j)) /\
  (forall i, 0 <= i < used f1 -> load_byte f' i = load_byte f1 i).
Proof.
  intros Hi1 (Hs & Hu & Hc & Hi' & _).
  pose proof (content_length _ Hi1) as Hlen.
  pose proof (initialized_consistent _ Hi1) as [Hu1 _].
  split.
  - intros j Hj. rewrite load_byte_content by (auto; lia).
    rewrite Hc, nth_error_app2 by lia. f_equal. lia.
  - intros i Hr. rewrite !load_byte_content by (auto; lia).
    rewrite Hc, nth_error_app1 by lia. reflexivity.
Qed.

Section Reads.

Variable P : platform.
Variable E : os.

(** X8. What [fbuf_putn] wrote can be read back: when it returns on an
    initialized buffer, reading [len] bytes of [s], either it returned -1
    and the buffer is as it was, or [used] grew by [len], the bytes at the
    offsets from the former [used] on are the bytes of [s], whatever their
    values, and the bytes before them are as they were. *)
Theorem fbuf_putn_reads_back (f : fbuf) (s : list byte) (len r : Z)
    (f' : fbuf) :
  initialized f -> 0 <= len <= Z.of_nat (length s) ->
  fbuf_putn P E f s len = Returns (r, f') ->
  (r = -1 /\ f' = f) \/
  (r = to_int len /\ used f' = used f + len /\
   (forall j, 0 <= j < len ->
      load_byte f' (used f + j) = nth_error s (Z.to_nat j)) /\
   (forall i, 0 <= i < used f -> load_byte f' i = load_byte f i)).
Proof.
  intros Hi Hlen H.
  destruct (fbuf_putn_cases P E f s len r f' Hi (proj1 Hlen) H)
    as [[-> ->]|(-> & f1 & Hg & Ha)]; [now left|right].
  destruct (fbuf_grow_post _ _ _ _ _ _ Hi Hg) as (Hi1 & Hu1 & Hc1 & _).
  destruct (appended_reads _ _ _ Hi1 Ha) as [Hnew Hold].
  destruct (appended_reads _ _ _ Hi1 (appended_nothing _ Hi1)) as [_ Hsame].
  assert (Hl : Z.of_nat (length (firstn (Z.to_nat len) s)) = len)
    by (rewrite length_firstn; lia).
  destruct Ha as (_ & Hu & _). rewrite Hl, Hu1 in Hu. rewrite Hu1 in *.
  split; [reflexivity|]. split; [exact Hu|]. split.
  - intros j Hj. rewrite Hnew by lia. rewrite nth_error_firstn.
    now replace (Z.to_nat j <? Z.to_nat len)%nat with true
      by (symmetry; apply Nat.ltb_lt; lia).
  - intros i Hr. rewrite Hold by lia.
    rewrite !load_byte_content by (auto; lia). now rewrite Hc1.
Qed.

(** X9. [fbuf_putc] appends one byte or nothing: when it returns on an
    initialized buffer, either it returned -1 and the buffer is as it
    was, or it returned 1, the content is the former content followed by
    the byte, and the byte is at the offset of the former [used]. *)
Theorem fbuf_putc_appends (f : fbuf) (c : byte) (r : Z) (f' : fbuf) :
  initialized f -> fbuf_putc P E f c = Returns (r, f') ->
  (r = -1 /\ f' = f) \/
  (r = 1 /\ used f' = used f + 1 /\ content f' = content f ++ [c] /\
   load_byte f' (used f) = Some c).
Proof.
  intros Hi H.
  destruct (fbuf_putc_cases P E f c r f' Hi H)
    as [[-> ->]|(-> & f1 & Hg & Ha)]; [now left|right].
  destruct (fbuf_grow_post _ _ _ _ _ _ Hi Hg) as (Hi1 & Hu1 & Hc1 & _).
  destruct (appended_reads _ _ _ Hi1 Ha) as [Hnew _].
  destruct Ha as (_ & Hu & Hc & _). simpl in Hu.
  rewrite Hu1 in *. rewrite Hc1 in Hc.
  split; [reflexivity|]. split; [exact Hu|]. split; [exact Hc|].
  specialize (Hnew 0 ltac:(simpl; lia)). now rewrite Z.add_0_r in Hnew.
Qed.

End Reads.

Lemma fbuf_putn_reads_back_witness :
  exists f', fbuf_putn other_libc plenty (fresh 4096) [x00; xff; x0a] 3
             = Returns (3, f') /\
    used f' = 3 /\
    forall j, 0 <= j < 3 ->
      load_byte f' (used (fresh 4096) + j) = nth_error [x00; xff; x0a] (Z.to_nat j).
Proof.
  assert (Hi : initialized (fresh 4096)) by (vm_compute; intuition discriminate).
  assert (Hlen : 0 <= 3 <= Z.of_nat (length [x00; xff; x0a]))
    by (vm_compute; intuition discriminate).
  eexists. split; [vm_compute; reflexivity|].
  destruct (fbuf_putn_reads_back other_libc plenty (fresh 4096) [x00; xff; x0a] 3
              3 _ Hi Hlen eq_refl) as [[Hr _]|(_ & Hu & Hnew & _)];
    [discriminate Hr|].
  split; [exact Hu|exact Hnew].
Defined.

Lemma fbuf_putc_appends_witness :
  exists f', fbuf_putc glibc plenty (fresh 4096) x41 = Returns (1, f') /\
    used f' = 1 /\ content f' = [x41] /\ load_byte f' 0 = Some x41.
Proof.
  assert (Hi : initialized (fresh 4096)) by (vm_compute; intuition discriminate).
  eexists. split; [vm_compute; reflexivity|].
  destruct (fbuf_putc_appends glibc plenty (fresh 4096) x41 1 _ Hi eq_refl)
    as [[Hr _]|(_ & Hu & Hc & Hl)]; [discriminate Hr|].
  split; [exact Hu|]. split; [exact Hc|exact Hl].
Defined.

(** ** Strings *)

Lemma strlen_stops pre rest :
  Forall (fun b => b <> x00) pre ->
  strlen (pre ++ x00 :: rest) = Some (Z.of_nat (length pre)).
Proof.
  induction 1 as [|b pre Hb _ IH]; [reflexivity|].
  simpl app. cbn [strlen].
  destruct (Byte.eqb b x00) eqn:Heq; [apply byte_dec_bl in Heq; contradiction|].
  rewrite IH. simpl option_map. f_equal. simpl length. lia.
Qed.

Lemma strlen_none s : Forall (fun b => b <> x00) s -> strlen s = None.
Proof.
  induction 1 as [|b s Hb _ IH]; [reflexivity|]. cbn [strlen].
  destruct (Byte.eqb b x00) eqn:Heq; [apply byte_dec_bl in Heq; contradiction|].
  now rewrite IH.
Qed.

(** ** Formatted text *)

Lemma poke_keeps_used f off data f2 :
  poke f off data = Returns f2 -> set_used f2 (used f) = f2.
Proof.
  unfold poke. destruct (buf f); [|discriminate]. cbn [access bind].
  destruct (store _ _ _); [|discriminate]. cbn [access bind].
  now intros [= <-].
Qed.

Lemma poke_load f off data f2 j :
  poke f off data = Returns f2 -> (j < length data)%nat ->
  load_byte f2 (off + Z.of_nat j) = nth_error data j.
Proof.
  unfold poke, load_byte. destruct (buf f) as [bs|]; [|discriminate].
  cbn [access bind]. destruct (store bs off data) as [bs'|] eqn:Hst; [|discriminate].
  cbn [access bind]. intros [= <-] Hj. simpl.
  unfold store in Hst. destruct (_ && _) eqn:Hc; [|discriminate].
  injection Hst as <-. apply andb_prop in Hc as [H1 H2].
  apply Z.leb_le in H1, H2.
  replace (0 <=? off + Z.of_nat j) with true by (symmetry; apply Z.leb_le; lia).
  rewrite nth_error_app2 by (rewrite length_firstn; lia).
  rewrite length_firstn.
  replace (Z.to_nat (off + Z.of_nat j) - Init.Nat.min (Z.to_nat off) (length bs))%nat
    with j by lia.
  now apply nth_error_app1.
Qed.

(** X11. The budget of [fbuf_printf] is the room left after
    [fbuf_grow(f, BUFSIZ)], less one byte.  When that call succeeds and
    leaves a buffer whose region has [size] bytes, [room] of them after
    the bytes in use, a text shorter than [room] is appended whole,
    its length is returned and a NUL that is not counted follows it in
    the region; a text of [room] bytes or more, up to INT_MAX, makes the
    call return -1 with [used] and the content as they were, even a text
    of exactly [room] bytes. *)
Theorem fbuf_printf_budget (P : platform) (E : os) (f f1 : fbuf)
    (text : list byte) :
  initialized f -> fbuf_grow P E f (BUFSIZ P) = Returns (0, f1) ->
  backed f1 -> Z.of_nat (length text) <= INT_MAX ->
  exists f',
    fbuf_printf P E f text
    = Returns (if Z.of_nat (length text) <? size f1 - used f1
               then Z.of_nat (length text) else -1, f') /\
    size f' = size f1 /\
    (Z.of_nat (length text) < size f1 - used f1 ->
     content f' = content f ++ text /\
     used f' = used f + Z.of_nat (length text) /\
     load_byte f' (used f') = Some x00) /\
    (size f1 - used f1 <= Z.of_nat (length text) ->
     content f' = content f /\ used f' = used f).
Proof.
  intros Hi Hg Hb Hint. unfold fbuf_printf. rewrite Hg. cbn [bind Z.ltb Z.compare].
  destruct (fbuf_grow_post _ _ _ _ _ _ Hi Hg) as (Hi1 & Hu1 & Hc1 & _).
  pose proof (initialized_consistent _ Hi1) as [Hu Hmax].
  rewrite wrap64_small by lia.
  pose proof (snprintf_fits (size f1 - used f1) text ltac:(lia)) as Hfit.
  destruct (snprintf _ _) as [v out] eqn:Hsn. simpl in Hfit.
  destruct (poke_returns f1 out Hi1 Hb Hfit) as [f2 Hp]. rewrite Hp. cbn [bind].
  destruct (poke_content _ _ _ Hi1 Hp) as (Hc2 & Hu2 & Hs2 & _).
  unfold snprintf in Hsn.
  replace (INT_MAX <? Z.of_nat (length text)) with false in Hsn
    by (symmetry; apply Z.ltb_ge; lia).
  injection Hsn as <- Hout.
  rewrite wrap64_small by (consts; lia).
  destruct (size f1 - used f1 <=? Z.of_nat (length text)) eqn:Hcmp.
  - apply Z.leb_le in Hcmp.
    replace (Z.of_nat (length text) <? size f1 - used f1) with false
      by (symmetry; apply Z.ltb_ge; lia).
    exists f2. split; [reflexivity|]. split; [exact Hs2|].
    split; [lia|]. intros _. now rewrite Hc2, Hu2, Hc1, Hu1.
  - apply Z.leb_gt in Hcmp.
    replace (Z.of_nat (length text) <? size f1 - used f1) with true
      by (symmetry; apply Z.ltb_lt; lia).
    rewrite assert_holds by (apply Z.leb_le; lia). cbn [bind].
    replace (size f1 - used f1 =? 0) with false in Hout
      by (symmetry; apply Z.eqb_neq; lia).
    rewrite firstn_all2 in Hout by lia.
    assert (Hk : (length text <= length out)%nat)
      by (rewrite <- Hout, length_app; simpl; lia).
    pose proof (poke_counted f1 out f2 _ Hi1 Hp Hk) as Ha.
    rewrite <- Hout in Ha at 1.
    rewrite firstn_app, firstn_all, Nat.sub_diag in Ha.
    simpl in Ha. rewrite app_nil_r in Ha.
    rewrite Hu2, wrap64_small by lia.
    eexists. split; [reflexivity|].
    destruct Ha as (Hs & Hu' & Hc & _).
    split; [exact Hs|]. split; [|lia]. intros _.
    rewrite Hc, Hu', Hc1, Hu1. split; [reflexivity|]. split; [reflexivity|].
    assert (Hl : load_byte f2 (used f1 + Z.of_nat (length text))
                 = nth_error out (length text)).
    { apply poke_load with (f := f1); auto.
      rewrite <- Hout, length_app. simpl. lia. }
    rewrite <- Hu1.
    change (load_byte f2 (used f1 + Z.of_nat (length text)) = Some x00).
    rewrite Hl, <- Hout, nth_error_app2, Nat.sub_diag by lia. reflexivity.
Qed.

Lemma fbuf_printf_budget_witness :
  exists f1 f',
    fbuf_grow glibc plenty (fresh 4096) (BUFSIZ glibc) = Returns (0, f1) /\
    size f1 - used f1 = 8192 /\
    fbuf_printf glibc plenty (fresh 4096) (bytes_of x41 8192) = Returns (-1, f') /\
    content f' = content (fresh 4096) /\ used f' = used (fresh 4096).
Proof.
  assert (Hi : initialized (fresh 4096)) by (vm_compute; intuition discriminate).
  assert (Hg : fbuf_grow glibc plenty (fresh 4096) (BUFSIZ glibc)
               = Returns (0, fresh 8192)) by (vm_compute; reflexivity).
  assert (Hb : backed (fresh 8192)) by (vm_compute; reflexivity).
  assert (Hint : Z.of_nat (length (bytes_of x41 8192)) <= INT_MAX)
    by (vm_compute; discriminate).
  destruct (fbuf_printf_budget glibc plenty (fresh 4096) (fresh 8192)
              (bytes_of x41 8192) Hi Hg Hb Hint) as (f' & H & _ & _ & Hfail).
  exists (fresh 8192), f'. split; [exact Hg|]. split; [reflexivity|].
  split; [exact H|]. apply Hfail. vm_compute. discriminate.
Defined.

(** ** Integers, with room *)

Lemma undigit_digit d : 0 <= d < 10 -> undigit (digit d) = d.
Proof.
  intros H.
  assert (Hd : d = 0 \/ d = 1 \/ d = 2 \/ d = 3 \/ d = 4 \/ d = 5 \/ d = 6 \/
               d = 7 \/ d = 8 \/ d = 9) by lia.
  repeat (destruct Hd as [->|Hd]; [reflexivity|]). now subst.
Qed.

Lemma udecimal_value fuel : forall n acc,
  0 <= n < 10 ^ Z.of_nat (S fuel) ->
  fold_left (fun v b => 10 * v + undigit b) (udecimal fuel n acc) 0
  = fold_left (fun v b => 10 * v + undigit b) acc n.
Proof.
  assert (Hstep : forall n acc, 0 <= n ->
            fold_left (fun v b => 10 * v + undigit b)
              (digit (n mod 10) :: acc) (n / 10)
            = fold_left (fun v b => 10 * v + undigit b) acc n).
  { intros n acc Hn. cbn [fold_left].
    rewrite undigit_digit by (apply Z.mod_pos_bound; lia).
    f_equal. pose proof (Z.div_mod n 10 ltac:(lia)). lia. }
  induction fuel as [|fuel IH]; intros n acc Hn.
  - change (10 ^ Z.of_nat 1) with 10 in Hn. cbn [udecimal].
    rewrite <- (Hstep n acc) by lia. now rewrite Z.div_small by lia.
  - cbn [udecimal]. destruct (n / 10 =? 0) eqn:Hq.
    + apply Z.eqb_eq in Hq. rewrite <- (Hstep n acc) by lia. now rewrite Hq.
    + rewrite IH; [apply Hstep; lia|].
      rewrite Nat2Z.inj_succ, Z.pow_succ_r in Hn by lia.
      split; [apply Z.div_pos; lia|].
      apply Z.div_lt_upper_bound; lia.
Qed.

(** The digits that [decimal] gives denote the number, for every [int]. *)
Lemma decimal_value n :
  INT_MIN <= n <= INT_MAX ->
  (0 <= n -> uvalue (decimal n) = n) /\
  (n < 0 -> exists ds, decimal n = x2d :: ds /\ uvalue ds = - n).
Proof.
  intros Hn. unfold decimal, uvalue. split; intros Hs.
  - replace (n <? 0) with false by (symmetry; apply Z.ltb_ge; lia).
    rewrite udecimal_value; [reflexivity|].
    change (10 ^ Z.of_nat 10) with 10000000000. consts. lia.
  - replace (n <? 0) with true by (symmetry; apply Z.ltb_lt; lia).
    eexists. split; [reflexivity|].
    rewrite udecimal_value; [reflexivity|].
    change (10 ^ Z.of_nat 10) with 10000000000. consts. lia.
Qed.

(** ** The path of realloc *)

(** X13. Off Linux a buffer that grows is not given the bytes that it
    counts on: [fbuf_grow] calls realloc with the old size, so that after
    a successful call that had to enlarge the buffer, [size] is larger
    but the region still has its old length, and the [fbuf_putn] that
    asked for the room writes past the end of the region. *)
Theorem realloc_path_overruns (P : platform) (E : os) (f f1 : fbuf)
    (s : list byte) (len : Z) :
  linux P = false -> initialized f -> backed f ->
  0 <= len <= Z.of_nat (length s) -> size f - used f < len ->
  fbuf_grow P E f len = Returns (0, f1) ->
  size f < size f1 /\
  (exists bs, buf f1 = Some bs /\ Z.of_nat (length bs) = size f) /\
  fbuf_putn P E f s len = Crashes BadAccess.
Proof.
  intros Hl Hi Hb Hlen Hn Hg.
  destruct (fbuf_grow_cases _ _ _ _ _ _ Hi Hg)
    as [(_ & _ & ?)|[(? & _)|(_ & _ & Hu & k & Hk & _ & Hroom & _ & bs' & Hb' & Htmp)]];
    [lia|discriminate|].
  pose proof (initialized_consistent _ Hi) as [Hcu Hcm].
  assert (Hlen' : Z.of_nat (length bs') = size f).
  { rewrite Hl in Htmp. unfold realloc, backed, initialized in *.
    destruct (buf f) as [bs|]; [|tauto].
    destruct (grants E (size f)); [|discriminate].
    injection Htmp as <-. rewrite length_resize. lia. }
  split; [lia|]. split; [eauto|].
  unfold fbuf_putn. rewrite Hg. cbn [bind negb Z.eqb].
  rewrite load_prefix by lia. cbn [access bind].
  unfold poke. rewrite Hb'. cbn [access bind]. unfold store.
  rewrite length_firstn.
  replace (used f1 + Z.of_nat (Init.Nat.min (Z.to_nat len) (length s))
           <=? Z.of_nat (length bs')) with false
    by (symmetry; apply Z.leb_gt; lia).
  now rewrite andb_false_r.
Qed.

Lemma realloc_path_overruns_witness :
  fbuf_putn other_libc plenty (fresh 4096) (bytes_of x41 5000) 5000
  = Crashes BadAccess.
Proof.
  assert (Hi : initialized (fresh 4096)) by (vm_compute; intuition discriminate).
  assert (Hb : backed (fresh 4096)) by reflexivity.
  assert (Hlen : 0 <= 5000 <= Z.of_nat (length (bytes_of x41 5000)))
    by (vm_compute; intuition discriminate).
  assert (Hn : size (fresh 4096) - used (fresh 4096) < 5000) by reflexivity.
  assert (Hg : fbuf_grow other_libc plenty (fresh 4096) 5000
               = Returns (0, {| size := 8192; used := 0;
                                buf := Some (zeros 4096) |}))
    by (vm_compute; reflexivity).
  exact (proj2 (proj2 (realloc_path_overruns other_libc plenty (fresh 4096) _
                         (bytes_of x41 5000) 5000 eq_refl Hi Hb Hlen Hn Hg))).
Defined.

(** ** Writing in pieces *)

Lemma least_doubling_unique sz need a b :
  least_doubling sz need a -> least_doubling sz need b -> a = b.
Proof.
  intros (m1 & -> & H1 & L1) (m2 & -> & H2 & L2).
  destruct (Nat.lt_trichotomy m1 m2) as [Hlt|[->|Hgt]]; [|reflexivity|].
  - specialize (L2 m1 Hlt). lia.
  - specialize (L1 m2 Hgt). lia.
Qed.

(** X14. On the remap path, with an operating system that grants, writing
    two sequences one after the other is the same as writing them in
    one go: both succeed and leave the same content, the same [used] and
    the same [size]. *)
Theorem fbuf_putn_in_pieces (P : platform) (E : os) (f : fbuf)
    (a b : list byte) :
  linux P = true -> generous E -> initialized f -> backed f ->
  used f + Z.of_nat (length (a ++ b)) <= SIZE_MAX / 2 ->
  exists rs f2 r f1,
    put_each P E [a; b] f = Returns (rs, f2) /\
    fbuf_putn P E f (a ++ b) (Z.of_nat (length (a ++ b))) = Returns (r, f1) /\
    content f2 = content f1 /\ content f1 = content f ++ a ++ b /\
    used f2 = used f1 /\ size f2 = size f1.
Proof.
  intros Hl Hg Hi Hb Hmax.
  destruct (put_each_grows P E Hl Hg [a; b] f Hi Hb)
    as (f2 & H2 & Hc2 & Hu2 & Hd2 & _).
  { simpl concat. now rewrite app_nil_r. }
  destruct (fbuf_putn_grows P E Hl Hg f (a ++ b) Hi Hb Hmax)
    as (f1 & H1 & Hc1 & Hu1 & Hd1 & _).
  simpl concat in *. rewrite app_nil_r in *.
  eexists. exists f2. eexists. exists f1.
  split; [exact H2|]. split; [exact H1|].
  split; [now rewrite Hc2, Hc1|]. split; [exact Hc1|].
  split; [now rewrite Hu2, Hu1|].
  exact (least_doubling_unique _ _ _ _ Hd2 Hd1).
Qed.

Lemma fbuf_putn_in_pieces_witness :
  exists rs f2 r f1,
    put_each glibc plenty [bytes_of x41 3000; bytes_of x42 3000] (fresh 4096)
    = Returns (rs, f2) /\
    fbuf_putn glibc plenty (fresh 4096)
      (bytes_of x41 3000 ++ bytes_of x42 3000) 6000 = Returns (r, f1) /\
    content f2 = content f1 /\ used f2 = used f1 /\ size f2 = size f1.
Proof.
  assert (Hg : generous plenty) by (intros n; reflexivity).
  assert (Hi : initialized (fresh 4096)) by (vm_compute; intuition discriminate).
  assert (Hb : backed (fresh 4096)) by reflexivity.
  assert (Hmax : used (fresh 4096)
                 + Z.of_nat (length (bytes_of x41 3000 ++ bytes_of x42 3000))
                 <= SIZE_MAX / 2) by (vm_compute; discriminate).
  destruct (fbuf_putn_in_pieces glibc plenty (fresh 4096)
              (bytes_of x41 3000) (bytes_of x42 3000) eq_refl Hg Hi Hb Hmax)
    as (rs & f2 & r & f1 & H2 & H1 & Hc & _ & Hu & Hs).
  exists rs, f2, r, f1. split; [exact H2|]. split; [exact H1|]. auto.
Defined.

(** ** From the writes to the stream *)

Lemma fbuf_finalize_delivers f fp flushfp :
  initialized f -> used f <= quota fp -> flush_fails fp = false ->
  exists fp', fbuf_finalize f fp flushfp = Returns (0, blank, fp') /\
    written fp' = written fp ++ content f /\
    flushes fp' = (if flushfp then S (flushes fp) else flushes fp).
Proof.
  intros Hi Hq Hfl. unfold fbuf_finalize.
  pose proof (content_length _ Hi) as Hlen.
  destruct (used f =? 0) eqn:Hz; cbn [negb].
  - apply Z.eqb_eq in Hz.
    assert (Hc : content f = []).
    { destruct (content f); [reflexivity|]. simpl in Hlen. lia. }
    cbn [bind Z.eqb]. rewrite andb_true_r, Hc, app_nil_r. unfold fflush.
    rewrite Hfl. destruct flushfp; cbn [Z.eqb EOF]; eauto.
  - unfold initialized, content in *. destruct (buf f) as [bs|]; [|tauto].
    cbn [access bind]. rewrite load_prefix by lia. cbn [access bind].
    unfold fwrite. rewrite Hlen.
    replace (used f <=? quota fp) with true by (symmetry; apply Z.leb_le; lia).
    cbn [bind Z.eqb negb]. rewrite andb_true_r. unfold fflush. cbn [flush_fails].
    rewrite Hfl. destruct flushfp; cbn [Z.eqb EOF]; eauto.
Qed.

(** X15. What is written is what the stream gets.  On the remap path,
    with an operating system that grants, a sequence of [fbuf_putn] on
    an initialized buffer followed by [fbuf_finalize] to a stream that
    takes the bytes and flushes returns 0, hands the stream the former
    content followed by the sequences in their order, in one write,
    flushes it once when asked to, and leaves the buffer released. *)
Theorem writes_reach_the_stream (P : platform) (E : os) (f : fbuf)
    (xs : list (list byte)) (fp : FILE) (flushfp : bool) :
  linux P = true -> generous E -> initialized f -> backed f ->
  used f + Z.of_nat (length (concat xs)) <= SIZE_MAX / 2 ->
  used f + Z.of_nat (length (concat xs)) <= quota fp ->
  flush_fails fp = false ->
  exists fp',
    put_each_then_finalize P E xs f fp flushfp = Returns (0, blank, fp') /\
    written fp' = written fp ++ content f ++ concat xs /\
    flushes fp' = (if flushfp then S (flushes fp) else flushes fp).
Proof.
  intros Hl Hg Hi Hb Hmax Hq Hfl.
  destruct (put_each_grows P E Hl Hg xs f Hi Hb Hmax)
    as (f' & H & Hc & Hu & _ & Hi' & _).
  destruct (fbuf_finalize_delivers f' fp flushfp Hi') as (fp' & Hf & Hw & Hn);
    [lia|exact Hfl|].
  exists fp'. unfold put_each_then_finalize. rewrite H. cbn [bind].
  rewrite Hf, Hw, Hc. auto.
Qed.

Lemma writes_reach_the_stream_witness :
  exists fp',
    put_each_then_finalize glibc plenty [abc; bytes_of x2e 9000; abc]
      (fresh 4096) stream true = Returns (0, blank, fp') /\
    written fp' = abc ++ bytes_of x2e 9000 ++ abc /\ flushes fp' = 1%nat.
Proof.
  assert (Hg : generous plenty) by (intros n; reflexivity).
  assert (Hi : initialized (fresh 4096)) by (vm_compute; intuition discriminate).
  assert (Hb : backed (fresh 4096)) by reflexivity.
  assert (Hmax : used (fresh 4096)
                 + Z.of_nat (length (concat [abc; bytes_of x2e 9000; abc]))
                 <= SIZE_MAX / 2) by (vm_compute; discriminate).
  assert (Hq : used (fresh 4096)
               + Z.of_nat (length (concat [abc; bytes_of x2e 9000; abc]))
               <= quota stream) by (vm_compute; discriminate).
  destruct (writes_reach_the_stream glibc plenty (fresh 4096)
              [abc; bytes_of x2e 9000; abc] stream true eq_refl Hg Hi Hb Hmax Hq
              eq_refl) as (fp' & H & Hw & Hn).
  exists fp'. split; [exact H|]. split; [|exact Hn].
  rewrite Hw. vm_compute. reflexivity.
Defined.

(** ** The append position *)

(** X16. After [fbuf_grow] has granted [n] bytes, one or more, on the
    remap path, the append position [fbuf_at(f, used)] is not NULL and is
    the address of a byte of the region, and so is the address of the
    last of the [n] bytes: the writes that follow a successful
    [fbuf_grow] stay within the region. *)
Theorem append_position_in_region (P : platform) (E : os) (f f1 : fbuf)
    (n : Z) :
  linux P = true -> initialized f -> backed f -> 1 <= n ->
  fbuf_grow P E f n = Returns (0, f1) ->
  fbuf_at f1 (used f1) = Some (used f1) /\
  in_region f1 (used f1) /\ in_region f1 (used f1 + n - 1).
Proof.
  intros Hl Hi Hb Hn Hg.
  pose proof (fbuf_grow_backed _ _ _ _ _ _ Hl Hi Hb Hg) as Hb1.
  destruct (fbuf_grow_post _ _ _ _ _ _ Hi Hg) as (Hi1 & _ & _ & _ & Hr).
  destruct Hr as [[_ Hroom]|[? _]]; [|discriminate].
  unfold fbuf_at, in_region, backed, initialized in *.
  rewrite Z.ltb_irrefl. destruct (buf f1) as [bs|]; [|tauto].
  split; [reflexivity|]. lia.
Qed.

Lemma append_position_in_region_witness :
  exists f1,
    fbuf_grow glibc plenty (fresh 4096) 5000 = Returns (0, f1) /\
    fbuf_at f1 (used f1) = Some (used f1) /\
    in_region f1 (used f1) /\ in_region f1 (used f1 + 5000 - 1).
Proof.
  assert (Hi : initialized (fresh 4096)) by (vm_compute; intuition discriminate).
  assert (Hb : backed (fresh 4096)) by reflexivity.
  assert (Hn : 1 <= 5000) by discriminate.
  assert (Hg : fbuf_grow glibc plenty (fresh 4096) 5000
               = Returns (0, {| size := 8192; used := 0;
                                buf := Some (resize (zeros 4096) 8192) |}))
    by (vm_compute; reflexivity).
  eexists. split; [exact Hg|].
  exact (append_position_in_region glibc plenty (fresh 4096) _ 5000
           eq_refl Hi Hb Hn Hg).
Defined.

(** * Growth and failure, in general *)

(** ** Writes that are served *)

Lemma render_fits f1 text :
  initialized f1 -> backed f1 ->
  Z.of_nat (length text) <= INT_MAX ->
  Z.of_nat (length text) < size f1 - used f1 ->
  exists f2,
    snprintf (size f1 - used f1) text
    = (Z.of_nat (length text), text ++ [x00]) /\
    poke f1 (used f1) (text ++ [x00]) = Returns f2 /\
    used f2 = used f1 /\
    appended f1 text (set_used f2 (used f1 + Z.of_nat (length text))).
Proof.
  intros Hi Hb Hint Hroom.
  assert (Hsn : snprintf (size f1 - used f1) text
                = (Z.of_nat (length text), text ++ [x00])).
  { unfold snprintf.
    replace (INT_MAX <? Z.of_nat (length text)) with false
      by (symmetry; apply Z.ltb_ge; lia).
    replace (size f1 - used f1 =? 0) with false
      by (symmetry; apply Z.eqb_neq; lia).
    now rewrite firstn_all2 by lia. }
  assert (Hlen : Z.of_nat (length (text ++ [x00])) <= size f1 - used f1)
    by (rewrite length_app; simpl; lia).
  destruct (poke_returns f1 (text ++ [x00]) Hi Hb Hlen) as [f2 Hp].
  destruct (poke_content _ _ _ Hi Hp) as (_ & Hu2 & _).
  exists f2. split; [exact Hsn|]. split; [exact Hp|]. split; [exact Hu2|].
  assert (Hk : (length text <= length (text ++ [x00]))%nat)
    by (rewrite length_app; lia).
  pose proof (poke_counted f1 _ f2 _ Hi Hp Hk) as Ha.
  rewrite firstn_app, firstn_all, Nat.sub_diag in Ha.
  simpl in Ha. now rewrite app_nil_r in Ha.
Qed.

Section Served.

Variable P : platform.
Variable E : os.

(** [fbuf_grow] succeeds when there is room, and on the remap path when
    the operating system grants and the bytes stay within SIZE_MAX / 2. *)
Lemma fbuf_grow_served f n :
  initialized f -> backed f ->
  n <= size f - used f \/
  (linux P = true /\ generous E /\ used f + n <= SIZE_MAX / 2) ->
  exists f1, fbuf_grow P E f n = Returns (0, f1) /\
    initialized f1 /\ backed f1 /\ used f1 = used f /\
    content f1 = content f /\ n <= size f1 - used f1 /\
    least_doubling (size f) (used f + n) (size f1).
Proof.
  intros Hi Hb Hserve.
  pose proof (initialized_consistent _ Hi) as [Hu Hm].
  assert (Hpos : 0 < size f)
    by (unfold initialized in Hi; destruct (buf f); [lia|tauto]).
  destruct (Z_le_gt_dec n (size f - used f)) as [Hfit|Hgrow].
  - exists f. split; [now apply fbuf_grow_enough|].
    repeat split; auto; try lia.
    exists 0%nat. change (2 ^ Z.of_nat 0) with 1. repeat split; lia.
  - destruct Hserve as [?|(Hl & Hg & Hmax)]; [lia|].
    destruct (doubling_exists 63 (size f) (used f + n)) as (k & Hk1 & Hk2);
      try lia.
    destruct (grow_loop_succeeds P E f n k grow_fuel (size f)) as [f1 Hloop];
      auto; try lia.
    { now apply doubling_bounded with (size f). }
    { intros m. rewrite Hl. unfold backed in Hb.
      destruct (buf f); [|contradiction]. simpl. now rewrite Hg. }
    assert (H : fbuf_grow P E f n = Returns (0, f1)).
    { rewrite fbuf_grow_unfold by assumption.
      now replace (n <=? size f - used f) with false
        by (symmetry; apply Z.leb_gt; lia). }
    pose proof (fbuf_grow_backed _ _ _ _ _ _ Hl Hi Hb H) as Hb1.
    destruct (fbuf_grow_post _ _ _ _ _ _ Hi H) as (Hi1 & Hu1 & Hc1 & Hs1 & Hr).
    destruct Hr as [[_ Hroom]|[? _]]; [|discriminate].
    exists f1. repeat split; auto.
    destruct (fbuf_grow_cases _ _ _ _ _ _ Hi H)
      as [(_ & _ & ?)|[(? & _)|(_ & _ & _ & j & Hj & _ & Hjr & Hmin & _)]];
      [lia|discriminate|].
    exists (S j). split; [exact Hj|]. split; [lia|].
    intros i Hi2. destruct i as [|i].
    + change (2 ^ Z.of_nat 0) with 1. lia.
    + specialize (Hmin (S i) ltac:(lia)). lia.
Qed.

Lemma fbuf_putc_after_grow f c f1 :
  initialized f -> fbuf_grow P E f 1 = Returns (0, f1) -> backed f1 ->
  exists f', fbuf_putc P E f c = Returns (1, f') /\ appended f1 [c] f'.
Proof.
  intros Hi Hg Hb1.
  destruct (fbuf_grow_post _ _ _ _ _ _ Hi Hg) as (Hi1 & _ & _ & _ & Hr).
  destruct Hr as [[_ Hroom]|[? _]]; [|discriminate].
  assert (Hret : exists f', fbuf_putc P E f c = Returns (1, f')).
  { unfold fbuf_putc. rewrite Hg. cbn [bind negb Z.eqb].
    pose proof (initialized_consistent _ Hi1) as [Hu Hm].
    unfold fbuf_at, set_used. cbn [used]. rewrite wrap64_small by lia.
    replace (used f1 + 1 <? used f1) with false by (symmetry; apply Z.ltb_ge; lia).
    cbn [access bind]. unfold poke. cbn [buf].
    unfold initialized, backed in *. destruct (buf f1) as [bs|]; [|tauto].
    cbn [access bind].
    destruct (store_fits bs (used f1) [c]) as [bs' ->]; simpl length; try lia.
    cbn [access bind]. eauto. }
  destruct Hret as [f' H]. exists f'. split; [exact H|].
  destruct (fbuf_putc_cases P E f c 1 f' Hi H) as [[? _]|(_ & f1' & Hg' & Ha)];
    [discriminate|].
  rewrite Hg in Hg'. now injection Hg' as <-.
Qed.

Lemma fbuf_putint_after_grow f n f1 :
  initialized f -> fbuf_grow P E f 10 = Returns (0, f1) -> backed f1 ->
  Z.of_nat (length (decimal n)) < size f1 - used f1 ->
  exists f', fbuf_putint P E f n
             = Returns (Z.of_nat (length (decimal n)), f') /\
    appended f1 (decimal n) f'.
Proof.
  intros Hi Hg Hb1 Hroom.
  destruct (fbuf_grow_post _ _ _ _ _ _ Hi Hg) as (Hi1 & _).
  pose proof (initialized_consistent _ Hi1) as [Hu Hm].
  pose proof (decimal_length n) as Hd.
  destruct (render_fits f1 (decimal n) Hi1 Hb1) as (f2 & Hsn & Hp & Hu2 & Ha);
    [consts; lia|lia|].
  unfold fbuf_putint. rewrite Hg. cbn [bind negb Z.eqb].
  rewrite wrap64_small by lia. rewrite Hsn, Hp. cbn [bind].
  rewrite wrap64_small by (consts; lia).
  replace (size f1 - used f1 <? Z.of_nat (length (decimal n))) with false
    by (symmetry; apply Z.ltb_ge; lia).
  rewrite to_int_small by (consts; lia).
  rewrite Hu2, wrap64_small by lia. eauto.
Qed.

Lemma fbuf_printf_after_grow f text f1 :
  initialized f -> fbuf_grow P E f (BUFSIZ P) = Returns (0, f1) -> backed f1 ->
  Z.of_nat (length text) <= INT_MAX ->
  Z.of_nat (length text) < size f1 - used f1 ->
  exists f', fbuf_printf P E f text = Returns (Z.of_nat (length text), f') /\
    appended f1 text f'.
Proof.
  intros Hi Hg Hb1 Hint Hroom.
  destruct (fbuf_grow_post _ _ _ _ _ _ Hi Hg) as (Hi1 & _).
  pose proof (initialized_consistent _ Hi1) as [Hu Hm].
  destruct (render_fits f1 text Hi1 Hb1 Hint Hroom) as (f2 & Hsn & Hp & Hu2 & Ha).
  unfold fbuf_printf. rewrite Hg. cbn [bind Z.ltb Z.compare].
  rewrite wrap64_small by lia. rewrite Hsn, Hp. cbn [bind].
  rewrite wrap64_small by (consts; lia).
  replace (size f1 - used f1 <=? Z.of_nat (length text)) with false
    by (symmetry; apply Z.leb_gt; lia).
  rewrite assert_holds by (apply Z.leb_le; lia). cbn [bind].
  rewrite Hu2, wrap64_small by lia. eauto.
Qed.

Lemma payload_le_request c :
  sound_write P c -> 0 <= Z.of_nat (length (payload c)) <= request P c.
Proof.
  destruct c; simpl; try tauto; intros H.
  - lia.
  - rewrite length_firstn. lia.
  - destruct (strlen s) as [n|] eqn:Hn; [|tauto].
    apply strlen_range in Hn. rewrite length_firstn. lia.
  - lia.
  - lia.
  - destruct esc as [s|]; [|tauto].
    destruct (strlen s) as [n|] eqn:Hn; [|tauto].
    apply strlen_range in Hn. rewrite length_firstn. lia.
Qed.

(** A write that is served appends its bytes. *)
Lemma write_served c f :
  initialized f -> backed f -> sound_write P c ->
  request P c <= size f - used f \/
  (linux P = true /\ generous E /\ used f + request P c <= SIZE_MAX / 2) ->
  exists f', run P E c f = Returns (result c, f') /\
    content f' = content f ++ payload c /\
    used f' = used f + Z.of_nat (length (payload c)) /\
    initialized f' /\ backed f' /\
    least_doubling (size f) (used f + request P c) (size f').
Proof.
  intros Hi Hb Hc Hserve.
  destruct (fbuf_grow_served f (request P c) Hi Hb Hserve)
    as (f1 & Hg & Hi1 & Hb1 & Hu1 & Hc1 & Hroom & Hd).
  pose proof (payload_le_request c Hc) as Hpl.
  assert (Hfit : match buf f1 with
                 | Some bs => used f1 + request P c <= Z.of_nat (length bs)
                 | None => False
                 end).
  { unfold backed in Hb1. destruct (buf f1); [lia|tauto]. }
  assert (Hdone : forall f',
            appended f1 (payload c) f' ->
            content f' = content f ++ payload c /\
            used f' = used f + Z.of_nat (length (payload c)) /\
            initialized f' /\ backed f' /\
            least_doubling (size f) (used f + request P c) (size f')).
  { intros f' (Hs & Hu & Hct & Hi' & Hb'). rewrite Hct, Hu, Hs, Hc1, Hu1.
    repeat split; auto. }
  destruct c; simpl in Hc; try tauto; simpl run; simpl in Hg, Hroom, Hfit, Hdone |- *.
  - (* Putc *)
    destruct (fbuf_putc_after_grow f c f1 Hi Hg Hb1) as (f' & H & Ha). eauto.
  - (* Putn *)
    destruct (fbuf_putn_appends P E f s len f1 Hi Hg Hc Hfit) as (f' & H & Ha).
    eauto.
  - (* Puts *)
    unfold fbuf_puts. destruct (strlen s) as [n|] eqn:Hn; [|tauto].
    cbn [access bind]. apply strlen_range in Hn.
    destruct (fbuf_putn_appends P E f s n f1 Hi Hg ltac:(lia) Hfit) as (f' & H & Ha).
    eauto.
  - (* Putint *)
    destruct (fbuf_putint_after_grow f n f1 Hi Hg Hb1 ltac:(lia)) as (f' & H & Ha).
    eauto.
  - (* Printf *)
    destruct (fbuf_printf_after_grow f text f1 Hi Hg Hb1 (proj2 Hc) ltac:(lia))
      as (f' & H & Ha). eauto.
  - (* Emit *)
    destruct esc as [s|]; [|tauto]. unfold fbuf_emit, fbuf_puts.
    destruct (strlen s) as [n|] eqn:Hn; [|tauto].
    cbn [access bind]. apply strlen_range in Hn.
    destruct (fbuf_putn_appends P E f s n f1 Hi Hg ltac:(lia) Hfit) as (f' & H & Ha).
    rewrite H. cbn [bind]. exists f'.
    split; [now destruct (to_int n <? 0)|auto].
Qed.

End Served.

Section Sequences.

Variable P : platform.
Variable E : os.

Lemma requests_nonneg cs : Forall (sound_write P) cs -> 0 <= requests P cs.
Proof.
  induction 1 as [|c cs Hc _ IH]; simpl; [lia|].
  pose proof (payload_le_request P c Hc). lia.
Qed.

Lemma run_each_served cs : forall f,
  initialized f -> backed f -> Forall (sound_write P) cs ->
  used f + requests P cs <= size f \/
  (linux P = true /\ generous E /\ used f + requests P cs <= SIZE_MAX / 2) ->
  exists f', run_each P E cs f = Returns (map result cs, f') /\
    content f' = content f ++ payloads cs /\
    used f' = used f + Z.of_nat (length (payloads cs)) /\
    initialized f' /\ backed f' /\
    exists m : nat, size f' = size f * 2 ^ Z.of_nat m /\
      forall i : nat, (i < m)%nat ->
        size f * 2 ^ Z.of_nat i < used f + requests P cs.
Proof.
  induction cs as [|c cs IH]; intros f Hi Hb Hcs Hserve.
  - exists f. unfold payloads. simpl. rewrite app_nil_r, Z.add_0_r.
    repeat split; auto. exists 0%nat. change (2 ^ Z.of_nat 0) with 1.
    split; [lia|]. intros i Hlt. lia.
  - inversion Hcs as [|? ? Hc Hcs']; subst.
    pose proof (requests_nonneg cs Hcs') as Hnn.
    pose proof (payload_le_request P c Hc) as Hpl.
    pose proof (initialized_consistent _ Hi) as [Hu Hm].
    assert (Hpos : 0 < size f)
      by (unfold initialized in Hi; destruct (buf f); [lia|tauto]).
    simpl requests in *.
    destruct (write_served P E c f Hi Hb Hc) as (f1 & H1 & Hc1 & Hu1 & Hi1 & Hb1 & Hd1).
    { destruct Hserve as [Hs|(Hl & Hg & Hs)]; [left|right]; repeat split; auto; lia. }
    destruct Hd1 as (m1 & Hm1 & Hneed1 & Hmin1).
    pose proof (pow2_pos m1) as Hp1.
    destruct (IH f1 Hi1 Hb1 Hcs') as (f' & H & Hct & Hut & Hi' & Hb' & m2 & Hm2 & Hmin2).
    { destruct Hserve as [Hs|(Hl & Hg & Hs)]; [left|right]; repeat split; auto;
        try lia. rewrite Hm1. nia. }
    exists f'. simpl. rewrite H1. cbn [bind]. rewrite H. cbn [bind].
    unfold payloads in *. simpl map. simpl concat.
    rewrite Hct, Hc1, Hut, Hu1, length_app, app_assoc.
    split; [reflexivity|]. split; [reflexivity|]. split; [lia|].
    split; [exact Hi'|]. split; [exact Hb'|].
    exists (m1 + m2)%nat. rewrite Hm2, Hm1, Nat2Z.inj_add, Z.pow_add_r by lia.
    split; [lia|]. intros i Hlt.
    destruct (Nat.lt_ge_cases i m1) as [Hlt1|Hge].
    + specialize (Hmin1 i Hlt1). lia.
    + specialize (Hmin2 (i - m1)%nat ltac:(lia)).
      replace (Z.of_nat i) with (Z.of_nat m1 + Z.of_nat (i - m1)) by lia.
      rewrite Z.pow_add_r by lia. rewrite Hm1 in Hmin2. lia.
Qed.

Lemma fbuf_grow_refused f n :
  initialized f -> refuses E -> size f - used f < n ->
  fbuf_grow P E f n = Returns (-1, f).
Proof.
  intros Hi Hr Hn.
  destruct (fbuf_grow_returns P E f n Hi) as (g & f' & H). rewrite H.
  destruct (fbuf_grow_cases _ _ _ _ _ _ Hi H)
    as [(_ & _ & ?)|[(-> & -> & _)|(_ & _ & _ & k & _ & _ & _ & _ & bs & _ & Htmp)]];
    [lia|reflexivity|exfalso].
  unfold mremap, realloc in Htmp. rewrite !Hr in Htmp.
  destruct (linux P), (buf f); discriminate.
Qed.

(** A write whose growth failed returns -1 and leaves the buffer. *)
Lemma write_refused c f :
  is_write c = true -> terminated c ->
  fbuf_grow P E f (request P c) = Returns (-1, f) ->
  run P E c f = Returns (-1, f).
Proof.
  intros Hw Hc Hg. destruct c; try discriminate Hw; simpl in *.
  - unfold fbuf_putc. now rewrite Hg.
  - now apply fbuf_putn_fails.
  - unfold fbuf_puts. destruct (strlen s); [|tauto]. cbn [access bind].
    now apply fbuf_putn_fails.
  - unfold fbuf_putint. now rewrite Hg.
  - unfold fbuf_printf. now rewrite Hg.
  - destruct esc as [s|]; [|reflexivity]. unfold fbuf_emit, fbuf_puts.
    destruct (strlen s); [|tauto]. cbn [access bind].
    now rewrite (fbuf_putn_fails _ _ _ _ _ _ Hg).
Qed.

Lemma sound_write_reads c : sound_write P c -> is_write c = true /\ terminated c.
Proof.
  destruct c; simpl; try tauto; auto. destruct esc; [auto|tauto].
Qed.

End Sequences.

(** C1, as amended. Growth is transparent where the platform grants it.
    On an initialized buffer whose region has [size] bytes, take any
    sequence of writes that the code can serve ([fbuf_putc], [fbuf_putn],
    [fbuf_puts], [fbuf_emit], [fbuf_putint] of a number of at most nine
    characters, [fbuf_printf] of a text shorter than BUFSIZ).  If what the
    writes ask for fits in the buffer, or if the region is enlarged by
    remapping, the operating system grants every request and the bytes in
    use and asked for stay within SIZE_MAX / 2, then every write returns
    the number of bytes written, converted to int ([fbuf_emit] returns 0
    for it), the content is the former content
    followed by all the bytes written, and the size is the former size
    doubled as often as needed and no more often: after one write it is
    the smallest of the size, its double, its quadruple, ... that holds
    the bytes in use and the bytes asked for, and so it is after a
    sequence of writes of bytes.  In particular 5000 bytes written to an
    empty buffer of size 4096 leave a size of 8192 and 5000 bytes in use.
    When the operating system refuses every request, a write that needs
    more room returns -1 and leaves the buffer as it is. *)
Theorem growth_is_transparent (P : platform) (E : os) (f : fbuf)
    (cs : list call) :
  initialized f -> backed f -> Forall (sound_write P) cs ->
  (used f + requests P cs <= size f \/
   (linux P = true /\ generous E /\ used f + requests P cs <= SIZE_MAX / 2) ->
   exists f', run_each P E cs f = Returns (map result cs, f') /\
     content f' = content f ++ payloads cs /\
     used f' = used f + Z.of_nat (length (payloads cs)) /\
     (exists m : nat, size f' = size f * 2 ^ Z.of_nat m /\
        forall i : nat, (i < m)%nat ->
          size f * 2 ^ Z.of_nat i < used f + requests P cs) /\
     (forall c, cs = [c] ->
        least_doubling (size f) (used f + request P c) (size f')) /\
     (Z.of_nat (length (payloads cs)) = requests P cs ->
      least_doubling (size f) (used f + requests P cs) (size f')) /\
     (size f = 4096 -> used f = 0 -> forall s, cs = [Putn s 5000] ->
      size f' = 8192 /\ used f' = 5000)) /\
  (refuses E -> forall c cs', cs = c :: cs' ->
   size f - used f < request P c -> run P E c f = Returns (-1, f)).
Proof.
  intros Hi Hb Hcs. split.
  - intros Hserve.
    destruct (run_each_served P E cs f Hi Hb Hcs Hserve)
      as (f' & H & Hc & Hu & Hi' & Hb' & m & Hm & Hmin).
    pose proof (initialized_consistent _ Hi') as [Hu' _].
    assert (Hone : forall c, cs = [c] ->
              least_doubling (size f) (used f + request P c) (size f')).
    { intros c ->. inversion Hcs as [|? ? Hc1 _]; subst.
      destruct (write_served P E c f Hi Hb Hc1) as (f1 & H1 & _ & _ & _ & _ & Hd).
      { unfold requests in Hserve. cbn [fold_right] in Hserve.
        rewrite Z.add_0_r in Hserve.
        destruct Hserve as [Hs|(Hl & Hg & Hs)]; [left; lia|right; auto]. }
      cbn [run_each] in H. rewrite H1 in H. cbn [bind] in H.
      now injection H as <-. }
    exists f'. split; [exact H|]. split; [exact Hc|]. split; [exact Hu|].
    split; [eauto|]. split; [exact Hone|]. split.
    + intros Heq. exists m. split; [exact Hm|]. split; [lia|exact Hmin].
    + intros Hs Hz s ->. specialize (Hone _ eq_refl). cbn [request] in Hone.
      inversion Hcs as [|? ? Hc1 _]; subst. cbn [sound_write] in Hc1.
      unfold payloads in Hu. cbn [map concat payload] in Hu.
      rewrite app_nil_r, length_firstn in Hu.
      destruct Hone as (k & Hk & Hneed & Hkmin). rewrite Hs, Hz in *.
      split; [|lia]. destruct k as [|[|k]].
      * change (2 ^ Z.of_nat 0) with 1 in Hk. lia.
      * change (2 ^ Z.of_nat 1) with 2 in Hk. lia.
      * specialize (Hkmin 1%nat ltac:(lia)).
        change (2 ^ Z.of_nat 1) with 2 in Hkmin. lia.
  - intros Hr c cs' -> Hn. inversion Hcs as [|? ? Hc _]; subst.
    destruct (sound_write_reads P c Hc) as [Hw Hrd].
    apply write_refused; auto. now apply fbuf_grow_refused.
Qed.

Lemma growth_is_transparent_witness :
  exists f',
    run_each glibc plenty
      [Putn (bytes_of x41 5000) 5000; Putc x0a; Putint (-1234567);
       Printf abc; Puts [x68; x69; x00]; Emit (Some [x1b; x5b; x6d; x00])]
      (fresh 4096)
    = Returns ([5000; 1; 8; 3; 2; 0], f') /\
    content f' = bytes_of x41 5000
                 ++ [x0a; x2d; x31; x32; x33; x34; x35; x36; x37;
                     x61; x62; x63; x68; x69; x1b; x5b; x6d] /\
    used f' = 5017.
Proof.
  assert (Hi : initialized (fresh 4096)) by (vm_compute; intuition discriminate).
  assert (Hb : backed (fresh 4096)) by reflexivity.
  assert (Hcs : Forall (sound_write glibc)
                  [Putn (bytes_of x41 5000) 5000; Putc x0a; Putint (-1234567);
                   Printf abc; Puts [x68; x69; x00];
                   Emit (Some [x1b; x5b; x6d; x00])])
    by (repeat constructor; vm_compute; try discriminate; auto).
  assert (Hg : generous plenty) by (intros n; reflexivity).
  destruct (proj1 (growth_is_transparent glibc plenty (fresh 4096) _ Hi Hb Hcs))
    as (f' & H & Hc & Hu & _).
  { right. split; [reflexivity|]. split; [exact Hg|]. vm_compute. discriminate. }
  exists f'. split; [exact H|]. split.
  - rewrite Hc. vm_compute. reflexivity.
  - rewrite Hu. vm_compute. reflexivity.
Defined.

(** C1 as it was stated fails in four ways.  With 5000 bytes for an empty
    buffer of size 4096: when the operating system refuses the larger
    region the write fails and the buffer is as before; and where the
    region is enlarged with realloc, which is given the old size, the
    write runs past the region.  With the fixed budgets of the writes that
    format, where the operating system grants everything: a number of ten
    digits written with 10 bytes left loses its last digit, so that the
    content is not the one that an unbounded buffer would have; and a text
    of BUFSIZ bytes is not written at all. *)
Lemma growth_is_not_always_transparent :
  initialized (fresh 4096) /\ backed (fresh 4096) /\
  fbuf_putn glibc scarce (fresh 4096) (bytes_of x41 5000) 5000
  = Returns (-1, fresh 4096) /\
  fbuf_putn other_libc plenty (fresh 4096) (bytes_of x41 5000) 5000
  = Crashes BadAccess /\
  (let f := {| size := 4096; used := 4086;
               buf := Some (bytes_of x2e 4086 ++ zeros 10) |} in
   initialized f /\ backed f /\
   exists f', fbuf_putint glibc plenty f 1234567890 = Returns (10, f') /\
     content f' <> content f ++ decimal 1234567890) /\
  exists f', fbuf_printf glibc plenty (fresh 4096) (bytes_of x41 8192)
             = Returns (-1, f') /\
    content f' = [] /\ size f' = 8192.
Proof.
  split; [vm_compute; intuition discriminate|]. split; [reflexivity|].
  split; [vm_compute; reflexivity|]. split; [vm_compute; reflexivity|].
  split.
  - intros f. split; [vm_compute; intuition discriminate|].
    split; [vm_compute; reflexivity|].
    eexists. split; [vm_compute; reflexivity|].
    intros H. apply (f_equal (skipn (Z.to_nat 4095))) in H.
    vm_compute in H. discriminate H.
  - eexists. split; [vm_compute; reflexivity|]. split; reflexivity.
Qed.

(** ** Writes that fail *)

Lemma poke_nothing_counted f1 data f2 :
  initialized f1 -> poke f1 (used f1) data = Returns f2 -> appended f1 [] f2.
Proof.
  intros Hi Hp.
  pose proof (poke_counted f1 data f2 0 Hi Hp (Nat.le_0_l _)) as Ha.
  change (Z.of_nat 0) with 0 in Ha. rewrite Z.add_0_r in Ha.
  now rewrite (poke_keeps_used _ _ _ _ Hp) in Ha.
Qed.

Section Atomic.

Variable P : platform.
Variable E : os.

Lemma returns_terminated c f r f' :
  run P E c f = Returns (r, f') -> terminated c.
Proof.
  destruct c; simpl; auto.
  - unfold fbuf_puts. destruct (strlen s); [discriminate|]. discriminate.
  - destruct esc as [s|]; [|auto]. unfold fbuf_emit, fbuf_puts.
    destruct (strlen s); discriminate.
Qed.

(** A formatting write that returns -1 after [fbuf_grow] has succeeded has
    counted nothing. *)
Lemma format_overflow c f f1 r f' :
  is_format c = true -> initialized f ->
  fbuf_grow P E f (request P c) = Returns (0, f1) ->
  run P E c f = Returns (r, f') -> r = -1 -> appended f1 [] f'.
Proof.
  intros Hfmt Hi Hg H Hr.
  destruct (fbuf_grow_post _ _ _ _ _ _ Hi Hg) as (Hi1 & _).
  pose proof (initialized_consistent _ Hi1) as [Hu Hm].
  destruct c; try discriminate Hfmt; simpl in Hg, H.
  - unfold fbuf_putint in H. rewrite Hg in H. cbn [bind negb Z.eqb] in H.
    destruct (snprintf _ _) as [v out] eqn:Hsn. bind_inv H.
    destruct (_ <? wrap64 v).
    + bind_inv H. injection H as _ <-. now apply poke_nothing_counted with out.
    + exfalso. injection H as Hv _.
      pose proof (decimal_length n) as Hd.
      unfold snprintf in Hsn.
      replace (INT_MAX <? Z.of_nat (length (decimal n))) with false in Hsn
        by (symmetry; apply Z.ltb_ge; consts; lia).
      injection Hsn as <- _.
      rewrite wrap64_small, to_int_small in Hv by (consts; lia). lia.
  - unfold fbuf_printf in H. rewrite Hg in H. cbn [bind Z.ltb Z.compare] in H.
    destruct (snprintf _ _) as [v out] eqn:Hsn. bind_inv H.
    rewrite wrap64_small in H by lia.
    destruct (_ <=? wrap64 v) eqn:Hcmp.
    + injection H as _ <-. now apply poke_nothing_counted with out.
    + exfalso. apply Z.leb_gt in Hcmp. bind_inv H. injection H as Hv _.
      destruct (snprintf_value _ _ _ _ Hsn) as [[_ Hw]|(_ & Hr1 & _)];
        [rewrite Hw in Hcmp|]; lia.
Qed.

(** What a negative value returned means, for a write of at most INT_MAX
    bytes. *)
Lemma negative_return c f r f' :
  initialized f -> is_write c = true -> fits_int c ->
  run P E c f = Returns (r, f') -> r < 0 ->
  r = -1 /\ used f' = used f /\ content f' = content f /\
  match c with
  | Putint _ | Printf _ => size f <= size f'
  | _ => f' = f
  end.
Proof.
  intros Hi Hw Hfit H Hr.
  assert (Hsame : f' = f -> used f' = used f /\ content f' = content f)
    by (now intros ->).
  destruct c; try discriminate Hw; simpl in H.
  - (* Putc *)
    destruct (fbuf_putc_cases P E f c r f' Hi H) as [[-> ->]|[-> _]]; [auto|lia].
  - (* Putn *)
    destruct (fbuf_putn_failure P E _ _ _ _ _ Hi Hfit H Hr) as [-> ->]. auto.
  - (* Puts *)
    destruct (fbuf_puts_failure P E _ _ _ _ Hi Hfit H Hr) as [-> ->]. auto.
  - (* Putint *)
    destruct (fbuf_putint_cases P E f n r f' Hi H)
      as [[-> ->]|(f1 & d & Hg & Ha & [[-> ->]| ->])]; [repeat split; lia| |lia].
    destruct (fbuf_grow_post _ _ _ _ _ _ Hi Hg) as (_ & Hu1 & Hc1 & Hs1 & _).
    destruct Ha as (Hs & Hu & Hc & _). simpl in Hu.
    rewrite Hc, Hu, Hs, Hc1, Hu1, app_nil_r. repeat split; lia.
  - (* Printf *)
    destruct (fbuf_printf_cases P E f text r f' Hi H)
      as [[-> ->]|(f1 & Hg & [[-> Ha]|[-> _]])]; [repeat split; lia| |lia].
    destruct (fbuf_grow_post _ _ _ _ _ _ Hi Hg) as (_ & Hu1 & Hc1 & Hs1 & _).
    destruct Ha as (Hs & Hu & Hc & _). simpl in Hu.
    rewrite Hc, Hu, Hs, Hc1, Hu1, app_nil_r. repeat split; lia.
  - (* Emit *)
    unfold fbuf_emit in H. destruct esc as [s|]; [|injection H as <- <-; auto].
    bind_inv H. destruct a as [v f1].
    destruct (v <? 0) eqn:Hv; injection H as <- <-; [|lia].
    apply Z.ltb_lt in Hv.
    destruct (fbuf_puts_failure P E _ _ _ _ Hi Hfit Hm Hv) as [_ ->]. auto.
Qed.

(** C4, as amended.  The writes fail atomically, on an initialized
    buffer, in this sense.  When the growth that a write asks for fails,
    the write returns -1 and the buffer is exactly as it was, for every
    write and whatever its size; so it is for [fbuf_emit] of a NULL
    pointer.  When [fbuf_putint] or [fbuf_printf] returns -1, [used] and
    the content are as they were, and the size is the one that
    [fbuf_grow] left: the buffer may have been enlarged, and the bytes
    after the content may have been written.  For a write of at most
    INT_MAX bytes a negative value is returned in these cases only: it
    is -1, and [used] and the content are as they were. *)
Theorem write_fails_atomically (c : call) (f : fbuf) (r : Z) (f' : fbuf) :
  initialized f -> is_write c = true ->
  run P E c f = Returns (r, f') ->
  (forall g f1, fbuf_grow P E f (request P c) = Returns (g, f1) ->
     g <> 0 -> r = -1 /\ f' = f) /\
  (c = Emit None -> r = -1 /\ f' = f) /\
  (is_format c = true -> r = -1 ->
   used f' = used f /\ content f' = content f /\ size f <= size f' /\
   forall f1, fbuf_grow P E f (request P c) = Returns (0, f1) ->
     size f' = size f1) /\
  (fits_int c -> r < 0 ->
   r = -1 /\ used f' = used f /\ content f' = content f /\
   match c with
   | Putint _ | Printf _ => size f <= size f'
   | _ => f' = f
   end).
Proof.
  intros Hi Hw H.
  pose proof (returns_terminated c f r f' H) as Ht.
  assert (Hfail : forall g f1,
            fbuf_grow P E f (request P c) = Returns (g, f1) ->
            g <> 0 -> r = -1 /\ f' = f).
  { intros g f1 Hg Hne.
    destruct (fbuf_grow_post _ _ _ _ _ _ Hi Hg) as (_ & _ & _ & _ & Hcase).
    destruct Hcase as [[-> _]|[-> ->]]; [contradiction|].
    rewrite (write_refused P E c f Hw Ht Hg) in H. now injection H as <- <-. }
  split; [exact Hfail|]. split; [|split].
  - intros ->. simpl in H. now injection H as <- <-.
  - intros Hfmt Hr.
    destruct (fbuf_grow_returns P E f (request P c) Hi) as (g & f1 & Hg).
    destruct (fbuf_grow_post _ _ _ _ _ _ Hi Hg) as (_ & Hu1 & Hc1 & Hs1 & Hcase).
    destruct Hcase as [[-> _]|[-> ->]].
    + destruct (format_overflow c f f1 r f' Hfmt Hi Hg H Hr) as (Hs & Hu & Hc & _).
      simpl in Hu. rewrite Hc, Hu, Hs, Hc1, Hu1, app_nil_r.
      repeat split; try lia. intros f2 Hg2. rewrite Hg in Hg2.
      now injection Hg2 as <-.
    + destruct (Hfail _ _ Hg ltac:(discriminate)) as [_ ->].
      repeat split; try lia. intros f2 Hg2. rewrite Hg in Hg2. discriminate.
  - intros Hfit Hr. now apply negative_return.
Qed.

End Atomic.

Lemma write_fails_atomically_witness :
  let f := {| size := 8192; used := 3; buf := Some (abc ++ zeros 8189) |} in
  exists f' f1,
    run_all glibc plenty [Init true false; Putn abc 3] blank = Returns f /\
    fbuf_printf glibc plenty f (bytes_of x41 20000) = Returns (-1, f') /\
    fbuf_grow glibc plenty f (BUFSIZ glibc) = Returns (0, f1) /\
    used f' = used f /\ content f' = content f /\
    size f <= size f' /\ size f' = size f1.
Proof.
  intros f.
  assert (Hi : initialized f) by (vm_compute; intuition discriminate).
  destruct (fbuf_printf glibc plenty f (bytes_of x41 20000))
    as [[r f']|c0] eqn:Hrun; [|vm_compute in Hrun; discriminate Hrun].
  assert (Hr : r = -1) by (vm_compute in Hrun; now injection Hrun as <- _).
  destruct (fbuf_grow glibc plenty f (BUFSIZ glibc))
    as [[g f1]|c1] eqn:Hgrow; [|vm_compute in Hgrow; discriminate Hgrow].
  assert (Hg : g = 0) by (vm_compute in Hgrow; now injection Hgrow as <- _).
  subst r g. exists f', f1.
  split; [vm_compute; reflexivity|]. split; [reflexivity|]. split; [reflexivity|].
  destruct (write_fails_atomically glibc plenty (Printf (bytes_of x41 20000))
              f (-1) f' Hi eq_refl Hrun) as (_ & _ & Hfmt & _).
  destruct (Hfmt eq_refl eq_refl) as (Hu & Hc & Hs & Hsz).
  split; [exact Hu|]. split; [exact Hc|]. split; [exact Hs|].
  apply Hsz. exact Hgrow.
Defined.

(** ** Addresses, again *)

(** C7, as amended. On an initialized buffer [fbuf_at] returns NULL for an
    offset beyond [used], and the address [buf + at] for an offset up to
    [used], without reading anything; that offset is at most [size].  The
    address is the address of a byte of the region for every offset below
    [used].  For the offset [used] it is one exactly when the region goes
    beyond the bytes in use; the region has at most [size] bytes, and
    [size] bytes when the buffer is backed, so that there the condition is
    [used < size].  When [used] is [size], a full buffer, [fbuf_at] of
    [used] is never the address of a byte of the region: it follows the
    last one. *)
Theorem fbuf_at_spec (f : fbuf) (at_ : Z) :
  initialized f -> 0 <= at_ ->
  (used f < at_ -> fbuf_at f at_ = None) /\
  (at_ <= used f -> fbuf_at f at_ = Some at_ /\ at_ <= size f) /\
  (at_ < used f -> in_region f at_) /\
  (at_ = used f -> (in_region f at_ <-> used f < region_size f)) /\
  region_size f <= size f /\
  (backed f -> region_size f = size f) /\
  (at_ = used f -> used f = size f -> ~ in_region f at_).
Proof.
  intros Hi H0. unfold fbuf_at, in_region, backed, region_size.
  unfold initialized in Hi. destruct (buf f) as [bs|]; [|tauto].
  split; [|split; [|split; [|split; [|split; [|split]]]]].
  - intros H. now replace (used f <? at_) with true by (symmetry; apply Z.ltb_lt; lia).
  - intros H. replace (used f <? at_) with false by (symmetry; apply Z.ltb_ge; lia).
    split; [reflexivity|lia].
  - lia.
  - intros ->. lia.
  - lia.
  - auto.
  - intros -> Hfull. lia.
Qed.

Lemma fbuf_at_spec_witness :
  fbuf_at holding_abc 1 = Some 1 /\ in_region holding_abc 1 /\
  fbuf_at holding_abc 3 = Some 3 /\ in_region holding_abc 3 /\
  fbuf_at holding_abc 4 = None.
Proof.
  assert (Hi : initialized holding_abc) by (vm_compute; intuition discriminate).
  destruct (fbuf_at_spec holding_abc 1 Hi ltac:(discriminate))
    as (_ & H1 & H1' & _).
  destruct (fbuf_at_spec holding_abc 3 Hi ltac:(discriminate))
    as (_ & H3 & _ & H3' & _).
  destruct (fbuf_at_spec holding_abc 4 Hi ltac:(discriminate)) as (H4 & _).
  split; [apply H1; discriminate|]. split; [apply H1'; reflexivity|].
  split; [apply H3; discriminate|]. split; [apply H3'; reflexivity|].
  apply H4. reflexivity.
Defined.

(** ** Reset, again *)

(** C8, as amended. [fbuf_reset] sets [used] to 0 and leaves [size] and
    the region as they are, and it is idempotent.  On an initialized
    buffer whose region has [size] bytes, [fbuf_reset] followed by
    [fbuf_putn] of a sequence [x] gives a buffer whose [used] is the length
    of [x] and whose content is [x], the value returned being that length
    as an int: for an [x] that is not longer than [size], on every
    platform and with the size that was there before the reset; for a
    longer [x], where the region is enlarged by remapping and the
    operating system grants, with the smallest of the double, the
    quadruple, ... of the size that holds [x].  When the operating system
    refuses, the write of a longer [x] returns -1 and the buffer stays as
    the reset left it. *)
Theorem fbuf_reset_then_putn (P : platform) (E : os) (f : fbuf) (x : list byte) :
  initialized f -> backed f ->
  (used (fbuf_reset f) = 0 /\ size (fbuf_reset f) = size f /\
   buf (fbuf_reset f) = buf f) /\
  fbuf_reset (fbuf_reset f) = fbuf_reset f /\
  (Z.of_nat (length x) <= size f ->
   exists f', fbuf_putn P E (fbuf_reset f) x (Z.of_nat (length x))
              = Returns (to_int (Z.of_nat (length x)), f') /\
     used f' = Z.of_nat (length x) /\ content f' = x /\ size f' = size f) /\
  (size f < Z.of_nat (length x) -> linux P = true -> generous E ->
   Z.of_nat (length x) <= SIZE_MAX / 2 ->
   exists f', fbuf_putn P E (fbuf_reset f) x (Z.of_nat (length x))
              = Returns (to_int (Z.of_nat (length x)), f') /\
     used f' = Z.of_nat (length x) /\ content f' = x /\
     size f < size f' /\
     least_doubling (size f) (Z.of_nat (length x)) (size f')) /\
  (size f < Z.of_nat (length x) -> refuses E ->
   fbuf_putn P E (fbuf_reset f) x (Z.of_nat (length x))
   = Returns (-1, fbuf_reset f)).
Proof.
  intros Hi Hb.
  pose proof (initialized_reset _ Hi) as Hir.
  assert (Hbr : backed (fbuf_reset f)) by exact Hb.
  assert (H0 : content (fbuf_reset f) = [])
    by (unfold content, fbuf_reset; simpl; now destruct (buf f)).
  split; [now repeat split|]. split; [reflexivity|]. split; [|split].
  - intros Hx.
    destruct (fbuf_putn_fits P E (fbuf_reset f) x Hir Hbr)
      as (f' & H & Hs & Hu & Hc & _); [simpl; lia|].
    exists f'. rewrite H0 in Hc. simpl in *. repeat split; auto; lia.
  - intros Hx Hl Hg Hmax.
    destruct (write_served P E (Putn x (Z.of_nat (length x))) (fbuf_reset f)
                Hir Hbr) as (f' & H & Hc & Hu & _ & _ & Hd).
    { simpl. lia. }
    { right. simpl. auto. }
    cbn [run result payload request] in *.
    rewrite Nat2Z.id, firstn_all, H0 in *. simpl in Hc, Hu, Hd.
    exists f'. repeat split; auto.
    destruct Hd as (m & Hm & Hneed & _). lia.
  - intros Hx Hr. apply fbuf_putn_fails.
    apply fbuf_grow_refused; auto. simpl. lia.
Qed.

Lemma fbuf_reset_then_putn_witness :
  exists f', fbuf_putn glibc plenty (fbuf_reset holding_abc) [x78; x79] 2
             = Returns (2, f') /\
    used f' = 2 /\ content f' = [x78; x79] /\ size f' = 4096.
Proof.
  assert (Hi : initialized holding_abc) by (vm_compute; intuition discriminate).
  assert (Hb : backed holding_abc) by (vm_compute; reflexivity).
  assert (Hx : Z.of_nat (length [x78; x79]) <= size holding_abc)
    by (vm_compute; discriminate).
  exact (proj1 (proj2 (proj2
    (fbuf_reset_then_putn glibc plenty holding_abc [x78; x79] Hi Hb))) Hx).
Defined.

(** C8 as it was stated fails for a sequence longer than the buffer, here
    5000 bytes after the reset of a buffer of size 4096 that held "abc":
    where the write succeeds the size is no longer the one before the
    reset; when the operating system refuses, the write fails and nothing
    is in use; and where the region is enlarged with realloc the write
    runs past the region. *)
Lemma fbuf_reset_then_putn_grows :
  initialized holding_abc /\ backed holding_abc /\
  (exists f', fbuf_putn glibc plenty (fbuf_reset holding_abc)
                (bytes_of x41 5000) 5000 = Returns (5000, f') /\
     size f' = 8192 /\ size f' <> size holding_abc) /\
  (fbuf_putn glibc scarce (fbuf_reset holding_abc) (bytes_of x41 5000) 5000
   = Returns (-1, fbuf_reset holding_abc) /\
   used (fbuf_reset holding_abc) <> 5000) /\
  fbuf_putn other_libc plenty (fbuf_reset holding_abc) (bytes_of x41 5000) 5000
  = Crashes BadAccess.
Proof.
  split; [vm_compute; intuition discriminate|].
  split; [vm_compute; reflexivity|]. split; [|split; [split|]].
  - eexists. split; [vm_compute; reflexivity|].
    split; [reflexivity|discriminate].
  - vm_compute. reflexivity.
  - discriminate.
  - vm_compute. reflexivity.
Qed.

(** ** Strings, again *)

(** X10. [fbuf_puts] and [fbuf_emit] stop at the first NUL and do not copy
    it: on an initialized buffer whose region has room after the bytes in
    use, for an array made of bytes [pre] that are not NUL, of a NUL, and
    of anything after it, [fbuf_puts] appends [pre] only and returns its
    length converted to int, and [fbuf_emit] leaves the same buffer and
    returns 0, or -1 when that int is negative.  [fbuf_emit] of a NULL
    pointer returns -1 and leaves the buffer as it is.  An array without a
    NUL is read past its end. *)
Theorem fbuf_puts_stops_at_NUL (P : platform) (E : os) (f : fbuf)
    (pre rest : list byte) :
  initialized f ->
  Forall (fun b => b <> x00) pre ->
  used f + Z.of_nat (length pre) <= region_size f ->
  (exists f',
     fbuf_puts P E f (pre ++ x00 :: rest)
     = Returns (to_int (Z.of_nat (length pre)), f') /\
     fbuf_emit P E f (Some (pre ++ x00 :: rest))
     = Returns (if to_int (Z.of_nat (length pre)) <? 0 then -1 else 0, f') /\
     content f' = content f ++ pre /\
     used f' = used f + Z.of_nat (length pre) /\ size f' = size f) /\
  fbuf_emit P E f None = Returns (-1, f) /\
  fbuf_puts P E f pre = Crashes BadAccess.
Proof.
  intros Hi Hpre Hfit. split; [|split; [reflexivity|]].
  - assert (Hroom : Z.of_nat (length pre) <= size f - used f).
    { unfold region_size in Hfit. unfold initialized in Hi.
      destruct (buf f); [lia|tauto]. }
    unfold fbuf_emit, fbuf_puts. rewrite (strlen_stops _ _ Hpre).
    cbn [access bind].
    destruct (fbuf_putn_appends P E f (pre ++ x00 :: rest)
                (Z.of_nat (length pre)) f) as (f' & H & Ha);
      auto using fbuf_grow_enough.
    + rewrite length_app. lia.
    + unfold region_size in Hfit. unfold initialized in Hi.
      destruct (buf f); [lia|tauto].
    + rewrite Nat2Z.id, firstn_app, firstn_all, Nat.sub_diag in Ha.
      simpl in Ha. rewrite app_nil_r in Ha.
      destruct Ha as (Hs & Hu & Hc & _).
      exists f'. rewrite H. cbn [bind]. repeat split; auto.
      now destruct (to_int (Z.of_nat (length pre)) <? 0).
  - unfold fbuf_puts. now rewrite (strlen_none _ Hpre).
Qed.

Lemma fbuf_puts_stops_at_NUL_witness :
  exists f',
    fbuf_puts glibc plenty holding_abc [x68; x69; x00; x21; x00]
    = Returns (2, f') /\
    fbuf_emit glibc plenty holding_abc (Some [x68; x69; x00; x21; x00])
    = Returns (0, f') /\
    content f' = abc ++ [x68; x69].
Proof.
  assert (Hi : initialized holding_abc) by (vm_compute; intuition discriminate).
  assert (Hpre : Forall (fun b => b <> x00) [x68; x69])
    by (repeat constructor; discriminate).
  assert (Hfit : used holding_abc + Z.of_nat (length [x68; x69])
                 <= region_size holding_abc)
    by (vm_compute; discriminate).
  destruct (fbuf_puts_stops_at_NUL glibc plenty holding_abc [x68; x69]
              [x21; x00] Hi Hpre Hfit) as ((f' & H1 & H2 & Hc & _) & _).
  exists f'. split; [exact H1|]. split; [exact H2|exact Hc].
Defined.

(** ** Integers, again *)

Lemma digit_is_digit d : is_digit (digit d) = true.
Proof.
  unfold digit. destruct d as [|p|p]; try reflexivity.
  repeat (destruct p as [p|p|]; try reflexivity).
Qed.

Lemma digit_nonzero d : 1 <= d -> digit d <> x30.
Proof.
  unfold digit. destruct d as [|p|p]; try lia. intros _.
  repeat (destruct p as [p|p|]; try discriminate).
Qed.

Lemma udecimal_digits fuel : forall n acc,
  Forall (fun b => is_digit b = true) acc ->
  Forall (fun b => is_digit b = true) (udecimal fuel n acc).
Proof.
  induction fuel as [|fuel IH]; intros n acc Hacc; cbn [udecimal].
  - constructor; auto using digit_is_digit.
  - destruct (n / 10 =? 0).
    + constructor; auto using digit_is_digit.
    + apply IH. constructor; auto using digit_is_digit.
Qed.

(** The first digit is not a zero, except for the number 0. *)
Lemma udecimal_head fuel : forall n acc,
  0 < n < 10 ^ Z.of_nat (S fuel) ->
  hd x30 (udecimal fuel n acc) <> x30.
Proof.
  induction fuel as [|fuel IH]; intros n acc Hn.
  - change (10 ^ Z.of_nat 1) with 10 in Hn. cbn [udecimal hd].
    apply digit_nonzero. rewrite Z.mod_small; lia.
  - cbn [udecimal]. destruct (n / 10 =? 0) eqn:Hq.
    + apply Z.eqb_eq in Hq. cbn [hd]. apply digit_nonzero.
      pose proof (Z.div_mod n 10 ltac:(lia)). lia.
    + apply Z.eqb_neq in Hq. apply IH.
      rewrite Nat2Z.inj_succ, Z.pow_succ_r in Hn by lia.
      split.
      * pose proof (Z.div_pos n 10 ltac:(lia) ltac:(lia)). lia.
      * apply Z.div_lt_upper_bound; lia.
Qed.

(** What [decimal] gives is the usual way to write an [int]: a minus sign
    for a negative number, then the digits of its absolute value, without
    a zero in front. *)
Lemma decimal_canonical n :
  INT_MIN <= n <= INT_MAX ->
  exists us,
    decimal n = (if n <? 0 then [x2d] else []) ++ us /\
    Forall (fun b => is_digit b = true) us /\
    uvalue us = Z.abs n /\
    (n = 0 -> us = [x30]) /\
    (n <> 0 -> hd x30 us <> x30).
Proof.
  intros Hn. exists (udecimal 9 (Z.abs n) []).
  assert (Hb : 0 <= Z.abs n < 10 ^ Z.of_nat 10)
    by (change (10 ^ Z.of_nat 10) with 10000000000; consts; lia).
  split; [|split; [|split; [|split]]].
  - unfold decimal. destruct (n <? 0) eqn:Hs.
    + apply Z.ltb_lt in Hs. now rewrite Z.abs_neq by lia.
    + apply Z.ltb_ge in Hs. now rewrite Z.abs_eq by lia.
  - apply udecimal_digits. constructor.
  - unfold uvalue. now rewrite udecimal_value.
  - intros ->. reflexivity.
  - intros Hnz. apply udecimal_head. lia.
Qed.

(** X12. On an initialized buffer whose region has [size] bytes, with 12
    bytes of room, for the sign, ten digits and the terminator,
    [fbuf_putint] needs no growth and appends the decimal representation
    of every [int]: it returns the number of characters, the content is
    the former content followed by them, [used] grows by their number,
    [size] stays, there are at most 11 of them, and they are a minus sign
    when the number is negative, followed by characters that are all
    among '0' to '9', that denote the absolute value of the number, and of
    which the first is '0' for the number 0 only, which is written "0". *)
Theorem fbuf_putint_appends_decimal (P : platform) (E : os) (f : fbuf) (n : Z) :
  initialized f -> backed f -> 12 <= size f - used f ->
  INT_MIN <= n <= INT_MAX ->
  exists f' ds us,
    fbuf_putint P E f n = Returns (Z.of_nat (length ds), f') /\
    content f' = content f ++ ds /\
    used f' = used f + Z.of_nat (length ds) /\ size f' = size f /\
    (1 <= length ds <= 11)%nat /\
    ds = (if n <? 0 then [x2d] else []) ++ us /\
    Forall (fun b => is_digit b = true) us /\
    uvalue us = Z.abs n /\
    (n = 0 -> us = [x30]) /\
    (n <> 0 -> hd x30 us <> x30).
Proof.
  intros Hi Hb Hroom Hn.
  destruct (fbuf_putint_roomy P E f n Hi Hb Hroom) as (f' & H & Hc & Hu & Hs).
  destruct (decimal_canonical n Hn) as (us & Hd & Hdig & Hv & Hz & Hnz).
  exists f', (decimal n), us. repeat split; auto; apply decimal_length.
Qed.

Lemma fbuf_putint_appends_decimal_witness :
  exists f',
    fbuf_putint glibc_debug plenty holding_abc (-2147483648)
    = Returns (11, f') /\
    content f'
    = abc ++ [x2d; x32; x31; x34; x37; x34; x38; x33; x36; x34; x38] /\
    used f' = 14 /\ size f' = 4096.
Proof.
  assert (Hi : initialized holding_abc) by (vm_compute; intuition discriminate).
  assert (Hb : backed holding_abc) by (vm_compute; reflexivity).
  assert (Hroom : 12 <= size holding_abc - used holding_abc)
    by (vm_compute; discriminate).
  assert (Hn : INT_MIN <= -2147483648 <= INT_MAX)
    by (vm_compute; intuition discriminate).
  destruct (fbuf_putint_appends_decimal glibc_debug plenty holding_abc
              (-2147483648) Hi Hb Hroom Hn)
    as (f' & ds & us & H & Hc & Hu & Hs & _ & Hd & Hdig & Hv & _ & Hnz).
  assert (Hds : ds = [x2d; x32; x31; x34; x37; x34; x38; x33; x36; x34; x38]).
  { assert (Hrun : fbuf_putint glibc_debug plenty holding_abc (-2147483648)
                   = Returns (11, set_used
                       {| size := 4096; used := 3;
                          buf := Some (abc ++ [x2d; x32; x31; x34; x37; x34;
                                   x38; x33; x36; x34; x38; x00]
                                 ++ zeros 4081) |} 14))
      by (vm_compute; reflexivity).
    rewrite Hrun in H. injection H as Hl Hf. subst f'.
    vm_compute in Hc. now injection Hc as <-. }
  exists f'. rewrite Hds in *. auto.
Defined.
